(** * E-AC-3 7.1 Atmos channel-map fix: bit accessor, CRC, framing,
      chanmap detector and patch pass of [main.py], embedded and verified. *)

From Stdlib Require Import String.
From Stdlib Require Import ZArith List Lia Bool Sorted.
From Stdlib Require Import Floats Uint63.
Import ListNotations.
Local Open Scope string_scope.
Local Open Scope list_scope.
Local Open Scope Z_scope.

(* ================================================================== *)
(** ** Python run-time model: exceptions, sequences, [range] *)

(** The exceptions the program can raise: the interpreter's [IndexError]
    (subscript out of range), [ValueError] ([max] of an empty sequence) and
    [AssertionError], and the program's own [PatchError]. *)
Inductive exn : Type :=
| IndexError
| ValueError
| AssertionError
| PatchError (msg : string).

Inductive result (A : Type) : Type :=
| Ok (a : A)
| Raise (e : exn).
Arguments Ok {A} a.
Arguments Raise {A} e.

Definition bind {A B : Type} (m : result A) (k : A -> result B) : result B :=
  match m with
  | Ok a => k a
  | Raise e => Raise e
  end.

Notation "x <- m ;; k" := (bind m (fun x => k))
  (at level 61, m at next level, right associativity).

(** [for x in xs: s = body(s, x)], stopping at the first exception. *)
Fixpoint for_each {A S : Type} (body : S -> A -> result S) (xs : list A) (s : S)
  : result S :=
  match xs with
  | [] => Ok s
  | x :: xs' => s' <- body s x ;; for_each body xs' s'
  end.

(** [len(l)] *)
Definition len {A : Type} (l : list A) : Z := Z.of_nat (length l).

(** [range(lo, hi)] and [range(n)] *)
Definition py_range (lo hi : Z) : list Z :=
  map (fun k => lo + Z.of_nat k) (seq 0 (Z.to_nat (hi - lo))).

(** Truth value of an integer in a condition. *)
Definition truthy (z : Z) : bool := negb (z =? 0).

(** [l[i]]: a negative index counts from the end; out of range raises. *)
Definition py_getitem {A : Type} (l : list A) (i : Z) : result A :=
  let j := if i <? 0 then i + len l else i in
  if (0 <=? j) && (j <? len l) then
    match nth_error l (Z.to_nat j) with
    | Some x => Ok x
    | None => Raise IndexError
    end
  else Raise IndexError.

Fixpoint update {A : Type} (l : list A) (n : nat) (x : A) : list A :=
  match l, n with
  | [], _ => []
  | _ :: t, O => x :: t
  | h :: t, S n' => h :: update t n' x
  end.

(** [l[i] = x] *)
Definition py_setitem {A : Type} (l : list A) (i : Z) (x : A) : result (list A) :=
  let j := if i <? 0 then i + len l else i in
  if (0 <=? j) && (j <? len l) then Ok (update l (Z.to_nat j) x)
  else Raise IndexError.

(** [l[lo:hi]] for non-negative bounds. *)
Definition py_slice {A : Type} (l : list A) (lo hi : Z) : list A :=
  firstn (Z.to_nat (hi - lo)) (skipn (Z.to_nat lo) l).

(** A [bytes] / [bytearray] object is a list of integers in [0, 256). *)
Definition is_byte (b : Z) : bool := (0 <=? b) && (b <? 256).
Definition is_bytes (buf : list Z) : bool := forallb is_byte buf.

(* ================================================================== *)
(** ** Bits *)

Definition getbit (buf : list Z) (bitoffset : Z) : result Z :=
  let idx := bitoffset / 8 in
  if idx >=? len buf then Ok 0
  else
    let mask := Z.shiftr 128 (bitoffset mod 8) in
    b <- py_getitem buf idx ;;
    Ok (if truthy (Z.land b mask) then 1 else 0).

Definition setbit (buf : list Z) (bit : Z) (bitoffset : Z) : result (list Z) :=
  let idx := bitoffset / 8 in
  if idx >=? len buf then Ok buf
  else
    let mask := Z.shiftr 128 (bitoffset mod 8) in
    if truthy bit then
      b <- py_getitem buf idx ;;
      py_setitem buf idx (Z.lor b mask)
    else
      b <- py_getitem buf idx ;;
      py_setitem buf idx (Z.land b (Z.land (Z.lnot mask) 255)).

Definition getbits (buf : list Z) (bitoffset nbits : Z) : result Z :=
  for_each (fun v i => b <- getbit buf (bitoffset + i) ;;
                       Ok (Z.lor (Z.shiftl v 1) b))
           (py_range 0 nbits) 0.

Definition setbits (buf : list Z) (bitoffset nbits value : Z) : result (list Z) :=
  for_each (fun buf i =>
              let bit := if truthy (Z.land value (Z.shiftl 1 (nbits - 1 - i)))
                         then 1 else 0 in
              setbit buf bit (bitoffset + i))
           (py_range 0 nbits) buf.

(** Exception-free counterparts, valid at non-negative offsets (see
    [getbit_nonneg], [setbit_nonneg]); used to reason about the code above. *)
Definition bit_at (buf : list Z) (pos : Z) : Z :=
  if truthy (Z.land (nth (Z.to_nat (pos / 8)) buf 0) (Z.shiftr 128 (pos mod 8)))
  then 1 else 0.

Definition put_bit (buf : list Z) (bit pos : Z) : list Z :=
  if pos / 8 >=? len buf then buf
  else
    let b := nth (Z.to_nat (pos / 8)) buf 0 in
    let mask := Z.shiftr 128 (pos mod 8) in
    update buf (Z.to_nat (pos / 8))
           (if truthy bit then Z.lor b mask
            else Z.land b (Z.land (Z.lnot mask) 255)).

Definition bits_at (buf : list Z) (pos nbits : Z) : Z :=
  fold_left (fun v i => Z.lor (Z.shiftl v 1) (bit_at buf (pos + i)))
            (py_range 0 nbits) 0.

Definition put_bits (buf : list Z) (pos nbits value : Z) : list Z :=
  fold_left (fun buf i =>
               put_bit buf
                       (if truthy (Z.land value (Z.shiftl 1 (nbits - 1 - i)))
                        then 1 else 0)
                       (pos + i))
            (py_range 0 nbits) buf.

(* ================================================================== *)
(** ** CRC *)

Definition CRC16_POLY : Z := 0x8005.

(** Body of the outer loop of [crc_init]: the value stored at [_crc_table[n]]. *)
Definition crc_init_entry (n : Z) : Z :=
  fold_left (fun c _ =>
               if truthy (Z.land c 0x8000)
               then Z.lxor (Z.land (Z.shiftl c 1) 0xFFFF) CRC16_POLY
               else Z.land (Z.shiftl c 1) 0xFFFF)
            (py_range 0 8) (Z.land (Z.shiftl n 8) 0xFFFF).

(** [crc_init] overwrites the 256 slots of the module-level table in place. *)
Definition crc_init (table : list Z) : list Z :=
  fold_left (fun t n => update t (Z.to_nat n) (crc_init_entry n))
            (py_range 0 256) table.

(** The table as [patch_file] sees it: [main] calls [crc_init()] on the
    initial [[0] * 256] before anything else. *)
Definition _crc_table : list Z :=
  Eval vm_compute in crc_init (repeat 0 256).

(** The subscript [(b ^ (crc >> 8)) & 0xFF] lies in [0, 256) and the table
    has 256 slots, so the lookup cannot raise (lemma [crc_table_lookup]). *)
Definition crc16 (data : list Z) (crc : Z) : Z :=
  fold_left (fun crc b =>
               Z.land (Z.lxor (nth (Z.to_nat (Z.land (Z.lxor b (Z.shiftr crc 8)) 0xFF))
                                   _crc_table 0)
                              (Z.land (Z.shiftl crc 8) 0xFFFF))
                      0xFFFF)
            data (Z.land crc 0xFFFF).

Definition eac3_rewrite_crc2_like_c (frame : list Z) (frlen : Z)
  : result (list Z) :=
  if frlen <? 6 then Ok frame
  else
    let c := crc16 (py_slice frame 2 (frlen - 2)) 0 in
    frame <- py_setitem frame (frlen - 2) (Z.land (Z.shiftr c 8) 0xFF) ;;
    py_setitem frame (frlen - 1) (Z.land c 0xFF).

(* ================================================================== *)
(** ** IO: the frame reader *)

Definition DEFAULT_CHANMAP : Z := 0x1A00.

Definition fsizetable : list Z :=
  [ 64;64;80;80;96;96;112;112;128;128;160;160;192;192;224;224;256;256;320;320;384;384;448;448;512;512;640;640;768;768;896;896;
    1024;1024;1152;1152;1280;1280;0;0;0;0;0;0;0;0;0;0;0;0;0;0;0;0;0;0;0;0;0;0;0;0;0;0;
    69;70;87;88;104;105;121;122;139;140;174;175;208;209;243;244;278;279;348;349;417;418;487;488;557;558;696;697;835;836;975;976;
    1114;1115;1253;1254;1393;1394;0;0;0;0;0;0;0;0;0;0;0;0;0;0;0;0;0;0;0;0;0;0;0;0;0;0;
    96;96;120;120;144;144;168;168;192;192;240;240;288;288;336;336;384;384;480;480;576;576;672;672;768;768;960;960;1152;1152;1344;1344;
    1536;1536;1728;1728;1920;1920;0;0;0;0;0;0;0;0;0;0;0;0;0;0;0;0;0;0;0;0;0;0;0;0;0;0;
    0;0;0;0;0;0;0;0;0;0;0;0;0;0;0;0;0;0;0;0;0;0;0;0;0;0;0;0;0;0;0;0;
    0;0;0;0;0;0;0;0;0;0;0;0;0;0;0;0;0;0;0;0;0;0;0;0;0;0 ].

(** An input file open for reading is the list of bytes not yet consumed.
    [f.read(n)] returns at most [n] bytes (everything left when [n < 0]). *)
Definition read_exact (f : list Z) (n : Z) : list Z * list Z :=
  if n <? 0 then (f, [])
  else (firstn (Z.to_nat n) f, skipn (Z.to_nat n) f).

(** The tuple [(frame, frame_len, eof, kind)] returned by [read_frame]. *)
Definition frame_tuple : Type := option (list Z) * Z * bool * string.

Definition read_frame (fin : list Z) : result (frame_tuple * list Z) :=
  let (head, fin) := read_exact fin 6 in
  if len head =? 0 then Ok ((None, 0, true, ""), fin)
  else if len head <? 6 then Raise (PatchError "Unexpected EOF (short header)")
  else
    let fr := head in
    b0 <- py_getitem fr 0 ;;
    sync_bad <- (if negb (b0 =? 0x0B) then Ok true
                 else b1 <- py_getitem fr 1 ;; Ok (negb (b1 =? 0x77))) ;;
    if (sync_bad : bool) then Raise (PatchError "Bad syncword (expected 0x0B 0x77)")
    else
      b5 <- py_getitem fr 5 ;;
      let bsid := Z.shiftr b5 3 in
      sized <- (if bsid <? 10 then
                  frmsizecod <- py_getitem fr 4 ;;
                  entry <- py_getitem fsizetable frmsizecod ;;
                  let frame_len := entry * 2 in
                  if frame_len =? 0 then Raise (PatchError "Invalid AC-3 frmsizecod")
                  else Ok (frame_len, "ac3")
                else
                  b2 <- py_getitem fr 2 ;;
                  b3 <- py_getitem fr 3 ;;
                  let frame_len := (256 * (Z.land b2 7) + b3) * 2 + 2 in
                  if frame_len <? 10 then Raise (PatchError "Invalid E-AC-3 frmsiz")
                  else Ok (frame_len, "eac3")) ;;
      let '(frame_len, kind) := sized in
      let (tail, fin) := read_exact fin (frame_len - 6) in
      if negb (len tail =? frame_len - 6)
      then Raise (PatchError "Unexpected EOF (truncated frame)")
      else Ok ((Some (fr ++ tail), frame_len, false, kind), fin).

(* ================================================================== *)
(** ** EAC3 header positions *)

Record positions : Type := mkPositions {
  strmtype : Z;
  dialnorm_pos : Z;
  compre_pos : Z;
  compr_pos : Z;
  scan_start : Z
}.

Definition eac3_parse_positions (fr : list Z) : result positions :=
  let off := 16 in
  strmtype <- getbits fr off 2 ;;
  let off := off + 2 in
  let off := off + 3 in
  let off := off + 11 in
  let off := off + 2 in
  let off := off + 2 in
  let off := off + 3 in
  let off := off + 1 in
  let off := off + 5 in
  let dialnorm_pos := off in
  let off := off + 5 in
  let compre_pos := off in
  compre <- getbits fr off 1 ;;
  let off := off + 1 in
  let compr_pos := off in
  let off := if compre =? 1 then off + 8 else off in
  Ok (mkPositions strmtype dialnorm_pos compre_pos compr_pos off).

(* ================================================================== *)
(** ** The chanmap position detector *)

(** A [dict] with integer keys, as the list of its items in insertion order. *)
Definition dict (V : Type) : Type := list (Z * V).

Fixpoint dict_get {V : Type} (d : dict V) (k : Z) : option V :=
  match d with
  | [] => None
  | (k', v) :: d' => if k' =? k then Some v else dict_get d' k
  end.

(** [d[k] = v]: an existing key keeps its place, a new key goes last. *)
Fixpoint dict_set {V : Type} (d : dict V) (k : Z) (v : V) : dict V :=
  match d with
  | [] => [(k, v)]
  | (k', v') :: d' => if k' =? k then (k, v) :: d' else (k', v') :: dict_set d' k v
  end.

Definition dict_values {V : Type} (d : dict V) : list V := map snd d.
Definition dict_keys {V : Type} (d : dict V) : list Z := map fst d.

(** [d = pos_hist.setdefault(key, {}); d[v] = d.get(v, 0) + 1] *)
Definition record_value (pos_hist : dict (dict Z)) (key v : Z) : dict (dict Z) :=
  let d := match dict_get pos_hist key with Some d => d | None => [] end in
  let n := match dict_get d v with Some n => n | None => 0 end in
  dict_set pos_hist key (dict_set d v (n + 1)).

(** The offsets [range(start, end)] scanned in one frame. *)
Definition scan_window (fr : list Z) (start extra_bits : Z) : list Z :=
  let end_ := Z.min (len fr * 8 - 17) (start + extra_bits) in
  py_range start end_.

(** The body of [for fr in samples] (first loop of [find_chanmap_bitpos]). *)
Definition scan_frame (extra_bits : Z) (pos_hist : dict (dict Z)) (fr : list Z)
  : result (dict (dict Z)) :=
  b5 <- py_getitem fr 5 ;;
  if Z.shiftr b5 3 <? 10 then Ok pos_hist
  else
    info <- eac3_parse_positions fr ;;
    if negb (strmtype info =? 1) then Ok pos_hist
    else
      let start := scan_start info in
      for_each (fun pos_hist p =>
                  b <- getbit fr p ;;
                  if negb (b =? 1) then Ok pos_hist
                  else
                    v <- getbits fr (p + 1) 16 ;;
                    if (v =? 0x0000) || (v =? 0xFFFF) then Ok pos_hist
                    else Ok (record_value pos_hist (p + 1) v))
               (scan_window fr start extra_bits) pos_hist.

Definition build_pos_hist (samples : list (list Z)) (extra_bits : Z)
  : result (dict (dict Z)) :=
  for_each (scan_frame extra_bits) samples [].

Definition py_sum (l : list Z) : Z := fold_left Z.add l 0.

Definition py_max (l : list Z) : result Z :=
  match l with
  | [] => Raise ValueError
  | x :: l' => Ok (fold_left Z.max l' x)
  end.

(** Conversion of a (small, non-negative) [int] to [float]. *)
Definition to_float (z : Z) : float := PrimFloat.of_uint63 (Uint63.of_Z z).

(** [stability = top / total if total else 0.0; score = total * stability ** 2]
    in binary64 arithmetic.  [x ** 2] is taken as the rounded product
    [x * x]; the interpreter's [pow] can differ from it in the last place
    (it does for 33/41), but not for any ratio [top / total] with
    [total <= 8], and every statement below that involves [score] is about
    at most eight samples, which is all [patch_file] passes. *)
Definition score (total top : Z) : float :=
  let stability :=
    if truthy total then PrimFloat.div (to_float top) (to_float total)
    else 0%float in
  PrimFloat.mul (to_float total) (PrimFloat.mul stability stability).

(** The body of the selection loop, on the pair [(best_pos, best_score)]. *)
Definition select_step (best : option Z * float) (item : Z * dict Z)
  : result (option Z * float) :=
  let (best_pos, best_score) := best in
  let (pos, hist) := item in
  let total := py_sum (dict_values hist) in
  top <- py_max (dict_values hist) ;;
  let stability_score := score total top in
  if PrimFloat.ltb best_score stability_score then Ok (Some pos, stability_score)
  else Ok (best_pos, best_score).

(** The selection loop over [pos_hist.items()], from
    [best_pos = None; best_score = -1.0]. *)
Definition select_best (pos_hist : dict (dict Z)) : result (option Z) :=
  r <- for_each select_step pos_hist (None, (-1)%float) ;;
  Ok (fst r).

Definition find_chanmap_bitpos (samples : list (list Z)) (extra_bits : Z)
  : result (option Z) :=
  pos_hist <- build_pos_hist samples extra_bits ;;
  match pos_hist with
  | [] => Ok None
  | _ => select_best pos_hist
  end.

(** The score as the detector's description defines it, in exact arithmetic:
    [total * (top / total)^2 = top^2 / total]; [exact_lt] compares two such
    scores by cross-multiplication (totals are positive). *)
Definition exact_lt (h1 h2 : Z * Z) : Prop :=
  let (total1, top1) := h1 in
  let (total2, top2) := h2 in
  top1 * top1 * total2 < top2 * top2 * total1.

Definition hist_counts (hist : dict Z) : Z * Z :=
  (py_sum (dict_values hist),
   match dict_values hist with [] => 0 | x :: l => fold_left Z.max l x end).

(* ================================================================== *)
(** ** The patch pass *)

Record stats : Type := mkStats {
  total_frames : Z;
  ac3_count : Z;
  eac3_count : Z;
  patched_eac3 : Z
}.

(** The [else] branch of the patch loop for one E-AC-3 frame, up to (not
    including) [fout.write(fr)]: the frame to write and the new counter. *)
Definition patch_eac3 (chanmap_pos : Z) (fr : list Z) (frlen : Z) (patched : Z)
  : result (list Z * Z) :=
  info <- eac3_parse_positions fr ;;
  let changed := false in
  fr <- setbits fr (compre_pos info) 1 1 ;;
  fr <- setbits fr (compr_pos info) 8 0xFF ;;
  let changed := true in
  r <- (if strmtype info =? 1 then
          fr <- setbits fr chanmap_pos 16 DEFAULT_CHANMAP ;;
          Ok (fr, true)
        else Ok (fr, changed)) ;;
  let '(fr, changed) := r in
  if (changed : bool) then
    fr <- eac3_rewrite_crc2_like_c fr frlen ;;
    Ok (fr, patched + 1)
  else Ok (fr, patched).

(** [while True] of the patch phase. [fout] is what has been written so far;
    the loop ends at end of input or at the first exception.  [fuel] bounds
    the number of iterations ([None] when it runs out, which
    [patch_file_total] excludes for the fuel [patch_file] passes). *)
Fixpoint patch_loop (fuel : nat) (chanmap_pos : Z) (fin fout : list Z) (st : stats)
  : option (list Z * result stats) :=
  match fuel with
  | O => None
  | S fuel' =>
    match read_frame fin with
    | Raise e => Some (fout, Raise e)
    | Ok ((fr, frlen, eof, kind), fin') =>
      if (eof : bool) then Some (fout, Ok st)
      else
        match fr with
        | None => Some (fout, Raise AssertionError)
        | Some fr =>
          let total := total_frames st + 1 in
          if (kind =? "ac3")%string then
            patch_loop fuel' chanmap_pos fin' (fout ++ fr)
                       (mkStats total (ac3_count st + 1) (eac3_count st)
                                (patched_eac3 st))
          else
            match patch_eac3 chanmap_pos fr frlen (patched_eac3 st) with
            | Raise e => Some (fout, Raise e)
            | Ok (fr, patched) =>
              patch_loop fuel' chanmap_pos fin' (fout ++ fr)
                         (mkStats total (ac3_count st) (eac3_count st + 1) patched)
            end
        end
    end
  end.

(** [while len(samples) < 8] of the discovery phase. *)
Fixpoint discover_loop (fuel : nat) (fin : list Z) (samples : list (list Z))
  : option (result (list (list Z))) :=
  match fuel with
  | O => None
  | S fuel' =>
    if len samples <? 8 then
      match read_frame fin with
      | Raise e => Some (Raise e)
      | Ok ((fr, _, eof, kind), fin') =>
        if (eof : bool) then Some (Ok samples)
        else
          match fr with
          | None => Some (Raise AssertionError)
          | Some fr =>
            if (kind =? "eac3")%string then
              match eac3_parse_positions fr with
              | Raise e => Some (Raise e)
              | Ok info =>
                if strmtype info =? 1
                then discover_loop fuel' fin' (samples ++ [fr])
                else discover_loop fuel' fin' samples
              end
            else discover_loop fuel' fin' samples
          end
      end
    else Some (Ok samples)
  end.

(** The discovery phase on an input file holding [input]. *)
Definition discover (input : list Z) : option (result (list (list Z))) :=
  discover_loop (S (length input)) input [].

(** State of the output file: never opened, or opened with these bytes. *)
Inductive sink : Type :=
| Unopened
| Opened (written : list Z).

(** [patch_file] on an input file holding [input]: the final state of the
    output file, and either the detected position with the frame counters
    (what the last two [print] calls report) or the exception that ended the
    run.  The progress bar and [os.path.getsize] only feed the terminal and
    are left out.  Every frame read consumes at least six bytes, so
    [length input + 1] iterations are enough for both loops. *)
Definition patch_file (input : list Z) : option (sink * result (Z * stats)) :=
  let fuel := S (length input) in
  match discover input with
  | None => None
  | Some (Raise e) => Some (Unopened, Raise e)
  | Some (Ok samples) =>
    match find_chanmap_bitpos samples 2048 with
    | Raise e => Some (Unopened, Raise e)
    | Ok None =>
      Some (Unopened,
            Raise (PatchError
              "Could not detect the chanmap location in dependent E-AC-3 frames."))
    | Ok (Some chanmap_pos) =>
      match patch_loop fuel chanmap_pos input [] (mkStats 0 0 0 0) with
      | None => None
      | Some (written, Raise e) => Some (Opened written, Raise e)
      | Some (written, Ok st) => Some (Opened written, Ok (chanmap_pos, st))
      end
    end
  end.

(* ================================================================== *)
(** ** Notions used to state the properties *)

(** Lines 98-109 of [read_frame] on their own: the length and kind that a
    header of at least six bytes announces. *)
Definition frame_size (b2 b3 b4 b5 : Z) : result (Z * string) :=
  if Z.shiftr b5 3 <? 10 then
    entry <- py_getitem fsizetable b4 ;;
    if entry * 2 =? 0 then Raise (PatchError "Invalid AC-3 frmsizecod")
    else Ok (entry * 2, "ac3")
  else
    let frame_len := (256 * (Z.land b2 7) + b3) * 2 + 2 in
    if frame_len <? 10 then Raise (PatchError "Invalid E-AC-3 frmsiz")
    else Ok (frame_len, "eac3").

(** A frame the detector does not skip: bsid >= 10 and stream type 1. *)
Definition is_dependent (fr : list Z) : bool :=
  negb (Z.shiftr (nth 5 fr 0) 3 <? 10) && (bits_at fr 16 2 =? 1).

(** Offset [p] of frame [fr] holds a set presence bit followed by a 16-bit
    value other than 0x0000 and 0xFFFF. *)
Definition qualifies (fr : list Z) (p : Z) : bool :=
  (bit_at fr p =? 1)
  && negb ((bits_at fr (p + 1) 16 =? 0x0000) || (bits_at fr (p + 1) 16 =? 0xFFFF)).

(** One iteration of the scan of [fr], at a non-negative offset [p]. *)
Definition scan_step (fr : list Z) (pos_hist : dict (dict Z)) (p : Z)
  : dict (dict Z) :=
  if qualifies fr p then record_value pos_hist (p + 1) (bits_at fr (p + 1) 16)
  else pos_hist.

(** [scan_start] as [eac3_parse_positions] computes it. *)
Definition scan_start_of (fr : list Z) : Z :=
  if bits_at fr 50 1 =? 1 then 59 else 51.

(** What holds of every inner histogram after [n] frames were scanned:
    it is not empty, its counts are positive and add up to at most [n]. *)
Definition counts_ok (n : Z) (hist : dict Z) : Prop :=
  hist <> []
  /\ (forall c, In c (dict_values hist) -> 1 <= c)
  /\ py_sum (dict_values hist) <= n.

(** Scanning offset [p] of the frame number [j + 1]: every key up to [p] has
    received at most one count from this frame, the keys beyond none yet. *)
Definition scan_inv (j p : Z) (ph : dict (dict Z)) : Prop :=
  forall k h, In (k, h) ph -> counts_ok (if k <=? p then j + 1 else j) h.

(** The pairs [(total, top)] a histogram can show when at most eight frames
    were sampled, as [patch_file] does. *)
Definition small_counts : list (Z * Z) :=
  flat_map (fun total => map (fun top => (total, top)) (py_range 1 (total + 1)))
           (py_range 1 9).

(** Invariant of the selection loop after the items [ph]: the best
    position so far is the first item of [ph] whose exact score no other
    item of [ph] exceeds. *)
Definition best_inv (ph : dict (dict Z)) (st : option Z * float) : Prop :=
  (ph = [] /\ st = (None, (-1)%float))
  \/ exists l1 o h l2,
      ph = l1 ++ (o, h) :: l2
      /\ st = (Some o, score (fst (hist_counts h)) (snd (hist_counts h)))
      /\ (forall k' h', In (k', h') l1 -> exact_lt (hist_counts h') (hist_counts h))
      /\ (forall k' h', In (k', h') l2 -> ~ exact_lt (hist_counts h) (hist_counts h')).

(** Value [v] is on record under key [k] of the histogram. *)
Definition recorded (ph : dict (dict Z)) (k v : Z) : Prop :=
  exists h, In (k, h) ph /\ In v (dict_keys h).

(** The keys of the histogram in insertion order: the offsets [p + 1] of the
    qualifying [p], sample after sample and ascending within a sample, each
    kept where it is first seen. *)
Definition note_key (seen : list Z) (k : Z) : list Z :=
  if existsb (Z.eqb k) seen then seen else seen ++ [k].

Definition qualifying_keys (samples : list (list Z)) (extra_bits : Z) : list Z :=
  flat_map (fun fr =>
              if is_dependent fr
              then map (fun p => p + 1)
                       (filter (qualifies fr)
                               (scan_window fr (scan_start_of fr) extra_bits))
              else [])
           samples.

Definition first_seen (ks : list Z) : list Z := fold_left note_key ks [].

(** [fr] is a complete frame of the given kind: sync marker, at least six
    bytes, and exactly as long as its header announces. *)
Definition is_frame (fr : list Z) (kind : string) : Prop :=
  exists b2 b3 b4 b5 tail,
    fr = 0x0B :: 0x77 :: b2 :: b3 :: b4 :: b5 :: tail
    /\ frame_size b2 b3 b4 b5 = Ok (len fr, kind).

(** The frames that successive calls of [read_frame] deliver from a stream,
    up to its clean end. *)
Inductive reads_frames : list Z -> list (list Z * string) -> Prop :=
| reads_eof fin fr frlen kind fin' :
    read_frame fin = Ok ((fr, frlen, true, kind), fin') ->
    reads_frames fin []
| reads_cons fin f frlen kind fin' fs :
    read_frame fin = Ok ((Some f, frlen, false, kind), fin') ->
    reads_frames fin' fs ->
    reads_frames fin ((f, kind) :: fs).

(** The checksum repair on a frame of at least six bytes, as a function. *)
Definition crc_fix (fr : list Z) : list Z :=
  let L := len fr in
  let c := crc16 (py_slice fr 2 (L - 2)) 0 in
  update (update fr (Z.to_nat (L - 2)) (Z.land (Z.shiftr c 8) 0xFF))
         (Z.to_nat (L - 1)) (Z.land c 0xFF).

(** The field writes of [patch_eac3], before the checksum repair. *)
Definition patched_fields (chanmap_pos : Z) (fr : list Z) : list Z :=
  let fr2 := put_bits (put_bits fr 50 1 1) 51 8 0xFF in
  if bits_at fr 16 2 =? 1 then put_bits fr2 chanmap_pos 16 DEFAULT_CHANMAP
  else fr2.

(** The bytes [patch_eac3] hands to [fout.write] (lemma [patch_eac3_eq]). *)
Definition patched_frame (chanmap_pos : Z) (fr : list Z) : list Z :=
  crc_fix (patched_fields chanmap_pos fr).

(** What the patch loop writes for a frame it has read. *)
Definition output_frame (chanmap_pos : Z) (item : list Z * string) : list Z :=
  let (fr, kind) := item in
  if (kind =? "ac3")%string then fr else patched_frame chanmap_pos fr.

Definition is_ac3 (item : list Z * string) : bool := (snd item =? "ac3")%string.

(** The counters after the patch loop has gone through the frames [fs]. *)
Definition add_counts (st : stats) (fs : list (list Z * string)) : stats :=
  mkStats (total_frames st + len fs)
          (ac3_count st + len (filter is_ac3 fs))
          (eac3_count st + len (filter (fun x => negb (is_ac3 x)) fs))
          (patched_eac3 st + len (filter (fun x => negb (is_ac3 x)) fs)).

(** *** Example inputs *)

(** A 10-byte dependent E-AC-3 frame (frmsiz 4, stream type 1, bsid 16) with
    the compression flag clear, bit 51 set and the bits after it 0x0010. *)
Definition frame_one_candidate : list Z :=
  [0x0B; 0x77; 0x40; 4; 0; 0x80; 0x10; 0x01; 0; 0].

(** A 300-byte dependent E-AC-3 frame, all zero after the header except for
    a set bit at offset 2200 followed by the 16-bit value 0x0024. *)
Definition frame_far_candidate : list Z :=
  [0x0B; 0x77; 0x40; 149; 0; 0x80] ++ repeat 0 269 ++ [0x80; 0x12; 0x34]
  ++ repeat 0 22.

(** Two 12-byte dependent E-AC-3 frames: the first qualifies at offset 70
    only, the second at offset 60 only. *)
Definition frame_late_candidate : list Z :=
  [0x0B; 0x77; 0x40; 5; 0; 0x80; 0; 0; 0x02; 0; 0x80; 0].
Definition frame_early_candidate : list Z :=
  [0x0B; 0x77; 0x40; 5; 0; 0x80; 0; 0x08; 0; 0x80; 0; 0].

(** A 128-byte AC-3 frame (frmsizecod 0, bsid 8). *)
Definition frame_ac3_128 : list Z :=
  [0x0B; 0x77; 0; 0; 0; 0x40] ++ repeat 0 122.


(* ================================================================== *)
(** ** Notions used to state further properties *)

(** One iteration of the inner loop of [crc_init]. *)
Definition crc_step (c : Z) : Z :=
  if truthy (Z.land c 0x8000)
  then Z.lxor (Z.land (Z.shiftl c 1) 0xFFFF) CRC16_POLY
  else Z.land (Z.shiftl c 1) 0xFFFF.

(** The shift register of [crc_init]: the eight iterations of its inner
    loop, started from [c]. *)
Definition crc_shift8 (c : Z) : Z :=
  fold_left (fun c _ =>
               if truthy (Z.land c 0x8000)
               then Z.lxor (Z.land (Z.shiftl c 1) 0xFFFF) CRC16_POLY
               else Z.land (Z.shiftl c 1) 0xFFFF)
            (py_range 0 8) c.

(** The checksum computed bit by bit, without a table: each byte is added
    into the high half of the register, which is then shifted eight times
    through the polynomial. *)
Definition crc16_bitwise (data : list Z) (crc : Z) : Z :=
  fold_left (fun crc b => crc_shift8 (Z.lxor crc (Z.shiftl b 8)))
            data (Z.land crc 0xFFFF).

(** The count on record for value [v] under key [k]
    ([pos_hist.get(k, {}).get(v, 0)]). *)
Definition hist_count (ph : dict (dict Z)) (k v : Z) : Z :=
  match dict_get ph k with
  | Some h => match dict_get h v with Some c => c | None => 0 end
  | None => 0
  end.

(** Frame [fr] votes for value [v] at key [k]: it is a dependent frame,
    [k - 1] lies in its scan window and qualifies, and the 16 bits at [k]
    are [v]. *)
Definition votes_for (extra_bits k v : Z) (fr : list Z) : bool :=
  is_dependent fr
  && (scan_start_of fr <=? k - 1)
  && (k - 1 <? Z.min (len fr * 8 - 17) (scan_start_of fr + extra_bits))
  && qualifies fr (k - 1)
  && (bits_at fr k 16 =? v).

(** The frames the discovery phase collects from a stream of frames [fs]:
    the first eight dependent ones. *)
Definition dependent_samples (fs : list (list Z * string)) : list (list Z) :=
  firstn 8 (filter is_dependent (map fst fs)).

(* ================================================================== *)
(** * Properties *)

(** Case analysis on every integer comparison of the goal. *)
Ltac zbool :=
  repeat match goal with
         | |- context [?a <=? ?b] => destruct (Z.leb_spec a b)
         | |- context [?a <? ?b] => destruct (Z.ltb_spec a b)
         | |- context [?a =? ?b] => destruct (Z.eqb_spec a b)
         | |- context [?a >=? ?b] => destruct (Z.geb_spec a b)
         end; cbn [andb orb negb]; try lia; try reflexivity.

(** ** Sequences *)

Lemma len_nonneg {A} (l : list A) : 0 <= len l.
Proof. unfold len; lia. Qed.

Lemma length_update {A} (l : list A) n x : length (update l n x) = length l.
Proof.
  revert n; induction l as [|h t IH]; intros [|n]; simpl; auto.
Qed.

Lemma len_update {A} (l : list A) n x : len (update l n x) = len l.
Proof. unfold len; now rewrite length_update. Qed.

Lemma nth_update_same {A} (l : list A) n x d :
  (n < length l)%nat -> nth n (update l n x) d = x.
Proof.
  revert n; induction l as [|h t IH]; intros [|n] Hn; simpl in *; try lia; auto.
  apply IH; lia.
Qed.

Lemma nth_update_other {A} (l : list A) n m x d :
  n <> m -> nth m (update l n x) d = nth m l d.
Proof.
  revert n m; induction l as [|h t IH]; intros [|n] [|m] Hnm; simpl;
    try reflexivity; try congruence.
  apply IH; congruence.
Qed.

Lemma py_getitem_inrange {A} (l : list A) i d :
  0 <= i < len l -> py_getitem l i = Ok (nth (Z.to_nat i) l d).
Proof.
  intros Hi. unfold py_getitem.
  replace (i <? 0) with false by (symmetry; apply Z.ltb_ge; lia).
  replace ((0 <=? i) && (i <? len l)) with true
    by (symmetry; apply andb_true_iff; split; [apply Z.leb_le | apply Z.ltb_lt]; lia).
  destruct (nth_error l (Z.to_nat i)) eqn:E.
  - now rewrite (nth_error_nth _ _ d E).
  - apply nth_error_None in E. unfold len in Hi. lia.
Qed.

Lemma py_setitem_inrange {A} (l : list A) i x :
  0 <= i < len l -> py_setitem l i x = Ok (update l (Z.to_nat i) x).
Proof.
  intros Hi. unfold py_setitem.
  replace (i <? 0) with false by (symmetry; apply Z.ltb_ge; lia).
  now replace ((0 <=? i) && (i <? len l)) with true
    by (symmetry; apply andb_true_iff; split; [apply Z.leb_le | apply Z.ltb_lt]; lia).
Qed.

Lemma in_py_range lo hi p : In p (py_range lo hi) <-> lo <= p < hi.
Proof.
  unfold py_range. rewrite in_map_iff. split.
  - intros (k & <- & Hk). apply in_seq in Hk. lia.
  - intros H. exists (Z.to_nat (p - lo)). split; [lia|]. apply in_seq. lia.
Qed.

Lemma py_range_empty lo hi : hi <= lo -> py_range lo hi = [].
Proof.
  intros H. unfold py_range. now replace (Z.to_nat (hi - lo)) with O by lia.
Qed.

Lemma py_range_cons lo hi : lo < hi -> py_range lo hi = lo :: py_range (lo + 1) hi.
Proof.
  intros H. unfold py_range.
  replace (Z.to_nat (hi - lo)) with (S (Z.to_nat (hi - (lo + 1)))) by lia.
  simpl. f_equal; [lia|].
  rewrite <- seq_shift, map_map. apply map_ext. intros; lia.
Qed.

Lemma py_range_snoc lo hi :
  lo <= hi -> py_range lo (hi + 1) = py_range lo hi ++ [hi].
Proof.
  intros H. unfold py_range.
  replace (Z.to_nat (hi + 1 - lo)) with (Z.to_nat (hi - lo) + 1)%nat by lia.
  rewrite seq_app, map_app. simpl. do 2 f_equal. lia.
Qed.

Lemma for_each_app {A S} (body : S -> A -> result S) xs ys s :
  for_each body (xs ++ ys) s = (s' <- for_each body xs s ;; for_each body ys s').
Proof.
  revert s; induction xs as [|x xs IH]; intros s; simpl; auto.
  destruct (body s x); simpl; auto.
Qed.

(** ** Bits *)

Lemma mask_pow2 pos : Z.shiftr 128 (pos mod 8) = 2 ^ (7 - pos mod 8).
Proof.
  assert (H : 0 <= pos mod 8 < 8) by (apply Z.mod_pos_bound; lia).
  rewrite Z.shiftr_div_pow2 by lia.
  change 128 with (2 ^ 7).
  replace 7 with ((7 - pos mod 8) + pos mod 8) at 1 by lia.
  rewrite Z.pow_add_r by lia.
  apply Z.div_mul. apply Z.pow_nonzero; lia.
Qed.

Lemma truthy_land_pow2 b k :
  0 <= k -> truthy (Z.land b (2 ^ k)) = Z.testbit b k.
Proof.
  intros Hk. unfold truthy.
  assert (E : Z.land b (2 ^ k) = if Z.testbit b k then 2 ^ k else 0).
  { apply Z.bits_inj'. intros n Hn.
    rewrite Z.land_spec, Z.pow2_bits_eqb by lia.
    destruct (Z.eqb_spec k n) as [->|Hne].
    - destruct (Z.testbit b n); simpl.
      + rewrite Z.pow2_bits_eqb by lia. now rewrite Z.eqb_refl.
      + now rewrite Z.bits_0.
    - rewrite andb_false_r. destruct (Z.testbit b k).
      + rewrite Z.pow2_bits_eqb by lia. symmetry. now apply Z.eqb_neq.
      + now rewrite Z.bits_0. }
  rewrite E. destruct (Z.testbit b k); simpl.
  - apply negb_true_iff, Z.eqb_neq. apply Z.pow_nonzero; lia.
  - reflexivity.
Qed.

Lemma bit_at_testbit buf pos :
  bit_at buf pos
  = Z.b2z (Z.testbit (nth (Z.to_nat (pos / 8)) buf 0) (7 - pos mod 8)).
Proof.
  assert (H : 0 <= pos mod 8 < 8) by (apply Z.mod_pos_bound; lia).
  unfold bit_at. rewrite mask_pow2, truthy_land_pow2 by lia.
  now destruct (Z.testbit _ _).
Qed.

Lemma bit_at_01 buf pos : bit_at buf pos = 0 \/ bit_at buf pos = 1.
Proof. unfold bit_at. destruct (truthy _); auto. Qed.

Lemma bit_at_beyond buf pos : 8 * len buf <= pos -> bit_at buf pos = 0.
Proof.
  intros H. unfold bit_at.
  rewrite nth_overflow; [reflexivity|].
  unfold len in H. assert (Z.of_nat (length buf) <= pos / 8)
    by (apply Z.div_le_lower_bound; lia). lia.
Qed.

Lemma getbit_nonneg buf pos : 0 <= pos -> getbit buf pos = Ok (bit_at buf pos).
Proof.
  intros Hpos. unfold getbit.
  assert (Hd : 0 <= pos / 8) by (apply Z.div_pos; lia).
  destruct (Z.geb_spec (pos / 8) (len buf)) as [Hge|Hlt].
  - rewrite bit_at_beyond; [reflexivity|].
    pose proof (Z.mul_div_le pos 8). lia.
  - rewrite (py_getitem_inrange _ _ 0) by lia. reflexivity.
Qed.

Lemma setbit_nonneg buf bit pos :
  0 <= pos -> setbit buf bit pos = Ok (put_bit buf bit pos).
Proof.
  intros Hpos. unfold setbit, put_bit.
  assert (Hd : 0 <= pos / 8) by (apply Z.div_pos; lia).
  destruct (Z.geb_spec (pos / 8) (len buf)) as [Hge|Hlt]; [reflexivity|].
  rewrite (py_getitem_inrange _ _ 0) by lia.
  destruct (truthy bit); simpl; now rewrite py_setitem_inrange by lia.
Qed.

Lemma len_put_bit buf bit pos : len (put_bit buf bit pos) = len buf.
Proof.
  unfold put_bit. destruct (_ >=? _); [reflexivity|apply len_update].
Qed.

Lemma length_put_bit buf bit pos : length (put_bit buf bit pos) = length buf.
Proof.
  unfold put_bit. destruct (_ >=? _); [reflexivity|apply length_update].
Qed.

Lemma nth_put_bit_other buf bit pos i :
  0 <= pos -> i <> Z.to_nat (pos / 8) ->
  nth i (put_bit buf bit pos) 0 = nth i buf 0.
Proof.
  intros Hpos Hi. unfold put_bit. destruct (_ >=? _); [reflexivity|].
  apply nth_update_other. congruence.
Qed.

Lemma testbit_255 j : 0 <= j < 8 -> Z.testbit 255 j = true.
Proof. intros H. change 255 with (Z.ones 8). apply Z.ones_spec_low; lia. Qed.

(** The bit read back after a single-bit write. *)
Lemma bit_at_put_bit buf bit pos q :
  0 <= pos -> 0 <= q ->
  bit_at (put_bit buf bit pos) q
  = if (q =? pos) && (pos <? 8 * len buf)
    then (if truthy bit then 1 else 0)
    else bit_at buf q.
Proof.
  intros Hpos Hq.
  assert (Hp8 : 0 <= pos mod 8 < 8) by (apply Z.mod_pos_bound; lia).
  assert (Hq8 : 0 <= q mod 8 < 8) by (apply Z.mod_pos_bound; lia).
  assert (Hpd : 0 <= pos / 8) by (apply Z.div_pos; lia).
  assert (Hqd : 0 <= q / 8) by (apply Z.div_pos; lia).
  pose proof (Z.div_mod pos 8 ltac:(lia)) as Ep.
  pose proof (Z.div_mod q 8 ltac:(lia)) as Eq.
  rewrite !bit_at_testbit. unfold put_bit.
  destruct (Z.geb_spec (pos / 8) (len buf)) as [Hge|Hlt].
  - replace (pos <? 8 * len buf) with false by (symmetry; apply Z.ltb_ge; lia).
    now rewrite andb_false_r.
  - replace (pos <? 8 * len buf) with true by (symmetry; apply Z.ltb_lt; lia).
    rewrite andb_true_r.
    destruct (Z.eq_dec (q / 8) (pos / 8)) as [Ed|Nd].
    + rewrite Ed, nth_update_same by (unfold len in Hlt; lia).
      rewrite mask_pow2.
      destruct (truthy bit).
      * rewrite Z.lor_spec, Z.pow2_bits_eqb by lia.
        destruct (Z.eqb_spec q pos) as [->|Hne].
        -- rewrite Z.eqb_refl, orb_true_r. reflexivity.
        -- replace (7 - pos mod 8 =? 7 - q mod 8) with false
             by (symmetry; apply Z.eqb_neq; lia).
           now rewrite orb_false_r.
      * rewrite !Z.land_spec, Z.lnot_spec, Z.pow2_bits_eqb, testbit_255 by lia.
        rewrite andb_true_r.
        destruct (Z.eqb_spec q pos) as [->|Hne].
        -- rewrite Z.eqb_refl. simpl. now rewrite andb_false_r.
        -- replace (7 - pos mod 8 =? 7 - q mod 8) with false
             by (symmetry; apply Z.eqb_neq; lia).
           simpl. now rewrite andb_true_r.
    + replace (q =? pos) with false by (symmetry; apply Z.eqb_neq; congruence).
      rewrite nth_update_other by lia. reflexivity.
Qed.

Lemma for_each_pure {A S} (body : S -> A -> result S) (f : S -> A -> S) xs s :
  (forall s x, In x xs -> body s x = Ok (f s x)) ->
  for_each body xs s = Ok (fold_left f xs s).
Proof.
  revert s; induction xs as [|x xs IH]; intros s H; simpl; [reflexivity|].
  rewrite H by (now left). simpl. apply IH. intros; apply H; now right.
Qed.

Lemma getbits_nonneg buf pos n :
  0 <= pos -> getbits buf pos n = Ok (bits_at buf pos n).
Proof.
  intros Hpos. unfold getbits, bits_at. apply for_each_pure.
  intros v i Hi. apply in_py_range in Hi.
  now rewrite getbit_nonneg by lia.
Qed.

Lemma setbits_nonneg buf pos n v :
  0 <= pos -> setbits buf pos n v = Ok (put_bits buf pos n v).
Proof.
  intros Hpos. unfold setbits, put_bits. apply for_each_pure.
  intros b i Hi. apply in_py_range in Hi.
  now rewrite setbit_nonneg by lia.
Qed.

Lemma fold_put_bit_length (g : Z -> Z) pos ixs buf :
  length (fold_left (fun b i => put_bit b (g i) (pos + i)) ixs buf) = length buf.
Proof.
  revert buf; induction ixs as [|i ixs IH]; intros buf; simpl; [reflexivity|].
  now rewrite IH, length_put_bit.
Qed.

Lemma length_put_bits buf pos n v : length (put_bits buf pos n v) = length buf.
Proof. unfold put_bits. apply fold_put_bit_length. Qed.

Lemma len_put_bits buf pos n v : len (put_bits buf pos n v) = len buf.
Proof. unfold len. now rewrite length_put_bits. Qed.

Lemma value_bit v k :
  0 <= k ->
  (if truthy (Z.land v (Z.shiftl 1 k)) then 1 else 0) = Z.b2z (Z.testbit v k).
Proof.
  intros Hk. rewrite Z.shiftl_1_l, truthy_land_pow2 by lia.
  now destruct (Z.testbit v k).
Qed.

Lemma truthy_b2z c : truthy (Z.b2z c) = c.
Proof. now destruct c. Qed.

(** Bits of a buffer after the first [k] iterations of the [setbits] loop. *)
Lemma bit_at_put_bits_prefix buf pos n v q (k : nat) :
  0 <= pos -> 0 <= q -> Z.of_nat k <= n ->
  bit_at (fold_left (fun b i =>
             put_bit b (if truthy (Z.land v (Z.shiftl 1 (n - 1 - i))) then 1 else 0)
                     (pos + i)) (py_range 0 (Z.of_nat k)) buf) q
  = if (pos <=? q) && (q <? pos + Z.of_nat k) && (q <? 8 * len buf)
    then Z.b2z (Z.testbit v (n - 1 - (q - pos)))
    else bit_at buf q.
Proof.
  intros Hpos Hq. induction k as [|k IH]; intros Hk.
  - simpl. zbool.
  - replace (Z.of_nat (S k)) with (Z.of_nat k + 1) by lia.
    rewrite py_range_snoc, fold_left_app by lia. cbn [fold_left].
    rewrite bit_at_put_bit by lia.
    unfold len at 1. rewrite fold_put_bit_length. fold (len buf).
    rewrite IH by lia. rewrite value_bit, truthy_b2z by lia.
    zbool. replace (n - 1 - (q - pos)) with (n - 1 - Z.of_nat k) by lia. reflexivity.
Qed.

Lemma bit_at_put_bits buf pos n v q :
  0 <= pos -> 0 <= q ->
  bit_at (put_bits buf pos n v) q
  = if (pos <=? q) && (q <? pos + n) && (q <? 8 * len buf)
    then Z.b2z (Z.testbit v (n - 1 - (q - pos)))
    else bit_at buf q.
Proof.
  intros Hpos Hq. unfold put_bits.
  destruct (Z.le_gt_cases n 0) as [Hn|Hn].
  - rewrite py_range_empty by lia. simpl. zbool.
  - pose proof (bit_at_put_bits_prefix buf pos n v q (Z.to_nat n)
                  Hpos Hq ltac:(lia)) as E.
    rewrite Z2Nat.id in E by lia. exact E.
Qed.

Lemma testbit_b2z c j : 0 <= j -> Z.testbit (Z.b2z c) j = c && (j =? 0).
Proof.
  intros Hj. destruct (Z.eqb_spec j 0) as [->|Hne].
  - now rewrite Z.b2z_bit0, andb_true_r.
  - rewrite andb_false_r. destruct c; simpl.
    + change 1 with (2 ^ 0). rewrite Z.pow2_bits_eqb by lia.
      apply Z.eqb_neq; lia.
    + apply Z.bits_0.
Qed.

(** One iteration of the [getbits] loop appends one bit of [v]. *)
Lemma getbits_step v n (k : Z) :
  0 <= k < n ->
  Z.lor (Z.shiftl ((Z.shiftr v (n - k)) mod 2 ^ k) 1)
        (Z.b2z (Z.testbit v (n - 1 - k)))
  = (Z.shiftr v (n - (k + 1))) mod 2 ^ (k + 1).
Proof.
  intros Hk. apply Z.bits_inj'. intros j Hj.
  rewrite Z.lor_spec, Z.shiftl_spec, testbit_b2z by lia.
  destruct (Z.eqb_spec j 0) as [->|Hne].
  - rewrite Z.testbit_neg_r by lia. cbn [orb]. rewrite andb_true_r.
    rewrite Z.mod_pow2_bits_low, Z.shiftr_spec by lia.
    f_equal; lia.
  - rewrite andb_false_r, orb_false_r.
    destruct (Z.ltb_spec (j - 1) k).
    + rewrite !Z.mod_pow2_bits_low, !Z.shiftr_spec by lia. f_equal; lia.
    + rewrite !Z.mod_pow2_bits_high by lia. reflexivity.
Qed.

Lemma bits_at_prefix buf pos n v (k : nat) :
  Z.of_nat k <= n ->
  (forall i, 0 <= i < n -> bit_at buf (pos + i) = Z.b2z (Z.testbit v (n - 1 - i))) ->
  fold_left (fun w i => Z.lor (Z.shiftl w 1) (bit_at buf (pos + i)))
            (py_range 0 (Z.of_nat k)) 0
  = (Z.shiftr v (n - Z.of_nat k)) mod 2 ^ (Z.of_nat k).
Proof.
  intros Hk Hbits. induction k as [|k IH].
  - simpl. now rewrite Z.mod_1_r.
  - replace (Z.of_nat (S k)) with (Z.of_nat k + 1) by lia.
    rewrite py_range_snoc, fold_left_app by lia. cbn [fold_left].
    rewrite IH by lia. rewrite Hbits by lia.
    apply getbits_step; lia.
Qed.

Lemma bits_at_value buf pos n v :
  0 <= n ->
  (forall i, 0 <= i < n -> bit_at buf (pos + i) = Z.b2z (Z.testbit v (n - 1 - i))) ->
  bits_at buf pos n = v mod 2 ^ n.
Proof.
  intros Hn Hbits. unfold bits_at.
  pose proof (bits_at_prefix buf pos n v (Z.to_nat n) ltac:(lia) Hbits) as E.
  rewrite Z2Nat.id in E by lia. rewrite E.
  now rewrite Z.sub_diag, Z.shiftr_0_r.
Qed.

(** C9: writing [v] with the [n]-bit setter and reading [n] bits back at the
    same in-bounds offset returns [v mod 2^n] (1 <= n <= 16, offset + n within
    the buffer); at or beyond the buffer end the single-bit getter returns 0
    and the single-bit setter leaves the buffer unchanged, and neither raises. *)
Theorem setbits_getbits_roundtrip :
  (forall buf offset n v,
      0 <= offset -> 1 <= n <= 16 -> offset + n <= 8 * len buf ->
      exists buf', setbits buf offset n v = Ok buf'
                   /\ getbits buf' offset n = Ok (v mod 2 ^ n))
  /\ (forall buf offset bit,
         8 * len buf <= offset ->
         getbit buf offset = Ok 0 /\ setbit buf bit offset = Ok buf).
Proof.
  split.
  - intros buf offset n v Hoff Hn Hin.
    exists (put_bits buf offset n v). split; [now apply setbits_nonneg|].
    rewrite getbits_nonneg by lia. f_equal.
    apply bits_at_value; [lia|]. intros i Hi.
    rewrite bit_at_put_bits by lia.
    replace (offset + i - offset) with i by lia.
    zbool.
  - intros buf offset bit Hoff.
    pose proof (len_nonneg buf).
    rewrite getbit_nonneg, setbit_nonneg by lia. split.
    + now rewrite bit_at_beyond.
    + unfold put_bit.
      assert (len buf <= offset / 8) by (apply Z.div_le_lower_bound; lia).
      zbool.
Qed.

Lemma setbits_getbits_roundtrip_witness :
  (exists buf', setbits [0; 255; 18] 5 11 1234 = Ok buf'
                /\ getbits buf' 5 11 = Ok (1234 mod 2 ^ 11))
  /\ getbit [0; 255; 18] 24 = Ok 0 /\ setbit [0; 255; 18] 1 24 = Ok [0; 255; 18].
Proof.
  split.
  - apply (proj1 setbits_getbits_roundtrip); unfold len; simpl; lia.
  - apply (proj2 setbits_getbits_roundtrip); unfold len; simpl; lia.
Defined.

(** C10: at a negative offset [pos] with [-8*len(buf) <= pos < 0] the getter
    reads, and the setter rewrites, the bit selected by [pos % 8] of the byte
    at Python index [pos // 8], that is byte [len(buf) + pos // 8] counted
    from the end (so the getter can return 1); for [pos < -8*len(buf)], which
    covers every negative offset on an empty buffer, both raise [IndexError]. *)
Theorem getbit_setbit_negative_offset :
  (forall buf pos,
      - 8 * len buf <= pos < 0 ->
      let i := Z.to_nat (len buf + pos / 8) in
      let mask := Z.shiftr 128 (pos mod 8) in
      getbit buf pos = Ok (if truthy (Z.land (nth i buf 0) mask) then 1 else 0)
      /\ (forall bit,
             setbit buf bit pos
             = Ok (update buf i (if truthy bit then Z.lor (nth i buf 0) mask
                                 else Z.land (nth i buf 0)
                                             (Z.land (Z.lnot mask) 255)))))
  /\ getbit [0; 1] (-1) = Ok 1
  /\ (forall buf pos,
         pos < - 8 * len buf ->
         getbit buf pos = Raise IndexError
         /\ forall bit, setbit buf bit pos = Raise IndexError).
Proof.
  split; [|split; [reflexivity|]].
  - intros buf pos Hpos i mask.
    assert (Hd : - len buf <= pos / 8 < 0).
    { split; [apply Z.div_le_lower_bound; lia | apply Z.div_lt_upper_bound; lia]. }
    assert (Hg : py_getitem buf (pos / 8) = Ok (nth i buf 0)).
    { unfold py_getitem.
      replace (pos / 8 <? 0) with true by (symmetry; apply Z.ltb_lt; lia).
      replace ((0 <=? pos / 8 + len buf) && (pos / 8 + len buf <? len buf))
        with true by (symmetry; zbool).
      subst i. replace (len buf + pos / 8) with (pos / 8 + len buf) by lia.
      destruct (nth_error buf _) eqn:E.
      - now rewrite (nth_error_nth _ _ 0 E).
      - apply nth_error_None in E. unfold len in *. lia. }
    assert (Hs : forall x, py_setitem buf (pos / 8) x = Ok (update buf i x)).
    { intros x. unfold py_setitem.
      replace (pos / 8 <? 0) with true by (symmetry; apply Z.ltb_lt; lia).
      replace ((0 <=? pos / 8 + len buf) && (pos / 8 + len buf <? len buf))
        with true by (symmetry; zbool).
      subst i. now replace (len buf + pos / 8) with (pos / 8 + len buf) by lia. }
    pose proof (len_nonneg buf).
    unfold getbit, setbit.
    replace (pos / 8 >=? len buf) with false by (symmetry; zbool).
    rewrite Hg. split; [reflexivity|].
    intros bit. destruct (truthy bit); simpl; apply Hs.
  - intros buf pos Hpos.
    pose proof (len_nonneg buf).
    assert (Hd : pos / 8 < - len buf) by (apply Z.div_lt_upper_bound; lia).
    assert (Hg : py_getitem buf (pos / 8) = Raise IndexError).
    { unfold py_getitem.
      replace (pos / 8 <? 0) with true by (symmetry; apply Z.ltb_lt; lia).
      now replace (0 <=? pos / 8 + len buf) with false by (symmetry; zbool). }
    unfold getbit, setbit.
    replace (pos / 8 >=? len buf) with false by (symmetry; zbool).
    rewrite Hg. split; [reflexivity|].
    intros bit. now destruct (truthy bit).
Qed.

Lemma getbit_setbit_negative_offset_witness :
  (getbit [7; 130] (-8) = Ok 1
   /\ setbit [7; 130] 0 (-8) = Ok [7; 2])
  /\ getbit [7; 130] (-17) = Raise IndexError
  /\ setbit [7; 130] 1 (-17) = Raise IndexError.
Proof.
  split.
  - destruct (proj1 getbit_setbit_negative_offset [7; 130] (-8)) as [Hg Hs].
    + unfold len; simpl; lia.
    + split; [exact Hg | exact (Hs 0)].
  - destruct (proj2 (proj2 getbit_setbit_negative_offset) [7; 130] (-17)) as [Hg Hs].
    + unfold len; simpl; lia.
    + split; [exact Hg | exact (Hs 1)].
Defined.

(** ** CRC *)

Lemma crc_table_init : _crc_table = crc_init (repeat 0 256).
Proof. vm_compute. reflexivity. Qed.

(** Slot [n] of the table holds [n << 8] shifted out through the polynomial. *)
Lemma crc_table_entries n :
  0 <= n < 256 -> nth (Z.to_nat n) _crc_table 0 = crc_init_entry n.
Proof.
  intros Hn.
  assert (H : forallb (fun k => nth (Z.to_nat k) _crc_table 0 =? crc_init_entry k)
                      (py_range 0 256) = true) by (vm_compute; reflexivity).
  rewrite forallb_forall in H. apply Z.eqb_eq, H, in_py_range. lia.
Qed.

Lemma crc_table_lookup b crc :
  py_getitem _crc_table (Z.land (Z.lxor b (Z.shiftr crc 8)) 0xFF)
  = Ok (nth (Z.to_nat (Z.land (Z.lxor b (Z.shiftr crc 8)) 0xFF)) _crc_table 0).
Proof.
  apply py_getitem_inrange.
  change 0xFF with (Z.ones 8). rewrite Z.land_ones by lia.
  change (len _crc_table) with 256. change (2 ^ 8) with 256.
  apply Z.mod_pos_bound. lia.
Qed.

Lemma crc16_range data crc : 0 <= crc16 data crc < 65536.
Proof.
  unfold crc16.
  assert (H0 : 0 <= Z.land crc 0xFFFF < 65536).
  { change 0xFFFF with (Z.ones 16). rewrite Z.land_ones by lia.
    apply Z.mod_pos_bound. reflexivity. }
  revert H0. generalize (Z.land crc 0xFFFF).
  induction data as [|b data IH]; intros c Hc; simpl; [exact Hc|].
  apply IH.
  change 65535 with (Z.ones 16). rewrite (Z.land_ones _ 16) by lia.
  apply Z.mod_pos_bound. reflexivity.
Qed.

Lemma firstn_update_ge {A} (l : list A) n m x :
  (n <= m)%nat -> firstn n (update l m x) = firstn n l.
Proof.
  revert n m; induction l as [|h t IH]; intros [|n] [|m] H; simpl;
    try reflexivity; try lia.
  f_equal. apply IH. lia.
Qed.

Lemma skipn_update_ge {A} (l : list A) k m x :
  (k <= m)%nat -> skipn k (update l m x) = update (skipn k l) (m - k) x.
Proof.
  revert k m; induction l as [|h t IH]; intros [|k] [|m] H; simpl;
    try reflexivity; try lia.
  apply IH. lia.
Qed.

Lemma py_slice_update_ge {A} (l : list A) lo hi m x :
  0 <= lo -> hi <= Z.of_nat m -> py_slice (update l m x) lo hi = py_slice l lo hi.
Proof.
  intros Hlo Hhi. unfold py_slice.
  destruct (Z.le_gt_cases hi lo) as [Hle|Hgt].
  - now replace (Z.to_nat (hi - lo)) with O by lia.
  - rewrite skipn_update_ge by lia. apply firstn_update_ge. lia.
Qed.

Lemma big_endian_split c :
  0 <= c < 65536 ->
  0 <= Z.land (Z.shiftr c 8) 0xFF < 256
  /\ 0 <= Z.land c 0xFF < 256
  /\ 256 * Z.land (Z.shiftr c 8) 0xFF + Z.land c 0xFF = c.
Proof.
  intros Hc. change 0xFF with (Z.ones 8).
  rewrite !Z.land_ones, Z.shiftr_div_pow2 by lia. change (2 ^ 8) with 256.
  assert (0 <= c / 256 < 256)
    by (split; [apply Z.div_pos | apply Z.div_lt_upper_bound]; lia).
  rewrite (Z.mod_small (c / 256)) by lia.
  pose proof (Z.div_mod c 256 ltac:(lia)).
  pose proof (Z.mod_pos_bound c 256 ltac:(lia)). lia.
Qed.

(** *** The table-driven checksum is the bit-serial one *)

Lemma is_byte_iff b : is_byte b = true <-> 0 <= b < 256.
Proof. unfold is_byte. rewrite andb_true_iff, Z.leb_le, Z.ltb_lt. tauto. Qed.

Lemma is_bytes_iff buf : is_bytes buf = true <-> forall b, In b buf -> 0 <= b < 256.
Proof.
  unfold is_bytes. rewrite forallb_forall.
  split; intros H b Hb; apply is_byte_iff; auto.
Qed.

Lemma is_bytes_py_slice buf lo hi :
  is_bytes buf = true -> is_bytes (py_slice buf lo hi) = true.
Proof.
  rewrite !is_bytes_iff. intros H b Hb. apply H. unfold py_slice in Hb.
  assert (Hs : In b (skipn (Z.to_nat lo) buf)).
  { rewrite <- (firstn_skipn (Z.to_nat (hi - lo)) (skipn (Z.to_nat lo) buf)).
    apply in_or_app. now left. }
  rewrite <- (firstn_skipn (Z.to_nat lo) buf). apply in_or_app. now right.
Qed.

Lemma land_16_small c : 0 <= c < 65536 -> Z.land c 0xFFFF = c.
Proof.
  intros H. change 0xFFFF with (Z.ones 16). rewrite Z.land_ones by lia.
  now apply Z.mod_small.
Qed.

Lemma land_8_small c : 0 <= c < 256 -> Z.land c 0xFF = c.
Proof.
  intros H. change 0xFF with (Z.ones 8). rewrite Z.land_ones by lia.
  now apply Z.mod_small.
Qed.

Lemma lxor_range k a b :
  0 < k -> 0 <= a < 2 ^ k -> 0 <= b < 2 ^ k -> 0 <= Z.lxor a b < 2 ^ k.
Proof.
  intros Hk Ha Hb.
  assert (H0 : 0 <= Z.lxor a b) by (apply Z.lxor_nonneg; lia).
  split; [exact H0|].
  destruct (Z.eq_dec (Z.lxor a b) 0) as [->|Hne]; [apply Z.pow_pos_nonneg; lia|].
  apply Z.log2_lt_pow2; [lia|].
  pose proof (Z.log2_lxor a b ltac:(lia) ltac:(lia)) as Hl.
  assert (La : Z.log2 a < k).
  { destruct (Z.eq_dec a 0) as [->|]; [simpl; lia | apply Z.log2_lt_pow2; lia]. }
  assert (Lb : Z.log2 b < k).
  { destruct (Z.eq_dec b 0) as [->|]; [simpl; lia | apply Z.log2_lt_pow2; lia]. }
  lia.
Qed.

Lemma land_shiftl8_16 c : Z.land (Z.shiftl c 8) 0xFFFF = 256 * (c mod 256).
Proof.
  change 0xFFFF with (Z.ones 16). rewrite Z.land_ones, Z.shiftl_mul_pow2 by lia.
  change (2 ^ 16) with (256 * 256). change (2 ^ 8) with 256.
  rewrite Z.mul_mod_distr_r by lia. lia.
Qed.

Lemma lxor_high_byte_low c b : Z.lxor c (Z.shiftl b 8) mod 256 = c mod 256.
Proof.
  change 256 with (2 ^ 8). rewrite <- !Z.land_ones by lia.
  apply Z.bits_inj'. intros j Hj.
  rewrite !Z.land_spec, Z.lxor_spec.
  destruct (Z.lt_ge_cases j 8).
  - rewrite Z.shiftl_spec_low by lia. now rewrite xorb_false_r.
  - rewrite Z.ones_spec_high by lia. now rewrite !andb_false_r.
Qed.

Lemma lxor_high_byte_high c b :
  Z.lxor c (Z.shiftl b 8) / 256 = Z.lxor b (Z.shiftr c 8).
Proof.
  change 256 with (2 ^ 8). rewrite <- Z.shiftr_div_pow2 by lia.
  rewrite Z.shiftr_lxor, Z.shiftr_shiftl_l by lia.
  change (8 - 8) with 0. rewrite Z.shiftl_0_r. apply Z.lxor_comm.
Qed.

Lemma land_top_bit c : Z.land c 0x8000 = if Z.testbit c 15 then 0x8000 else 0.
Proof.
  apply Z.bits_inj'. intros j Hj. rewrite Z.land_spec.
  change 0x8000 with (2 ^ 15). rewrite Z.pow2_bits_eqb by lia.
  destruct (Z.testbit c 15) eqn:E.
  - rewrite Z.pow2_bits_eqb by lia.
    destruct (Z.eqb_spec 15 j) as [<-|Hne]; [now rewrite E | apply andb_false_r].
  - rewrite Z.bits_0.
    destruct (Z.eqb_spec 15 j) as [<-|Hne]; [now rewrite E | apply andb_false_r].
Qed.

Lemma crc_step_eq c :
  crc_step c
  = Z.lxor (Z.land (Z.shiftl c 1) 0xFFFF) (if Z.testbit c 15 then CRC16_POLY else 0).
Proof.
  unfold crc_step, truthy. rewrite land_top_bit.
  destruct (Z.testbit c 15); cbn [Z.eqb negb]; [reflexivity|].
  now rewrite Z.lxor_0_r.
Qed.

(** The shift step is linear over exclusive or. *)
Lemma crc_step_lxor a b : crc_step (Z.lxor a b) = Z.lxor (crc_step a) (crc_step b).
Proof.
  rewrite !crc_step_eq, Z.lxor_spec.
  apply Z.bits_inj'. intros j Hj.
  rewrite !Z.lxor_spec, !Z.land_spec, !Z.shiftl_spec, Z.lxor_spec by lia.
  destruct (Z.testbit a 15), (Z.testbit b 15); cbn [xorb]; rewrite ?Z.bits_0;
    destruct (Z.testbit a (j - 1)), (Z.testbit b (j - 1)), (Z.testbit 0xFFFF j),
      (Z.testbit CRC16_POLY j); reflexivity.
Qed.

Lemma crc_step_range c : 0 <= crc_step c < 65536.
Proof.
  rewrite crc_step_eq. apply (lxor_range 16); [lia | |].
  - change 0xFFFF with (Z.ones 16). rewrite Z.land_ones by lia.
    apply Z.mod_pos_bound. reflexivity.
  - destruct (Z.testbit c 15); unfold CRC16_POLY; simpl; lia.
Qed.

Lemma crc_shift8_steps c :
  crc_shift8 c = fold_left (fun c _ => crc_step c) (py_range 0 8) c.
Proof. reflexivity. Qed.

Lemma fold_crc_step_lxor (l : list Z) a b :
  fold_left (fun c _ => crc_step c) l (Z.lxor a b)
  = Z.lxor (fold_left (fun c _ => crc_step c) l a)
           (fold_left (fun c _ => crc_step c) l b).
Proof.
  revert a b. induction l as [|i l IH]; intros a b; [reflexivity|].
  cbn [fold_left]. rewrite crc_step_lxor. apply IH.
Qed.

Lemma crc_shift8_lxor a b :
  crc_shift8 (Z.lxor a b) = Z.lxor (crc_shift8 a) (crc_shift8 b).
Proof. exact (fold_crc_step_lxor (py_range 0 8) a b). Qed.

Lemma crc_shift8_range c : 0 <= crc_shift8 c < 65536.
Proof.
  rewrite crc_shift8_steps. change (py_range 0 8) with (py_range 0 7 ++ [7]).
  rewrite fold_left_app. cbn [fold_left]. apply crc_step_range.
Qed.

(** A register whose high byte is clear is moved up by eight bits. *)
Lemma crc_shift8_low l : 0 <= l < 256 -> crc_shift8 l = 256 * l.
Proof.
  intros Hl.
  assert (H : forallb (fun k => crc_shift8 k =? 256 * k) (py_range 0 256) = true)
    by (vm_compute; reflexivity).
  rewrite forallb_forall in H. apply Z.eqb_eq, H, in_py_range. lia.
Qed.

Lemma crc_shift8_high h :
  0 <= h < 256 -> crc_shift8 (256 * h) = nth (Z.to_nat h) _crc_table 0.
Proof.
  intros Hh. rewrite crc_table_entries by exact Hh.
  unfold crc_init_entry, crc_shift8. f_equal.
  rewrite land_shiftl8_16, Z.mod_small by lia. reflexivity.
Qed.

Lemma split_high_low x : x = Z.lxor (256 * (x / 256)) (x mod 256).
Proof.
  rewrite <- Z.add_nocarry_lxor; [apply Z.div_mod; lia|].
  apply Z.bits_inj'. intros j Hj. rewrite Z.land_spec, Z.bits_0.
  change 256 with (2 ^ 8). rewrite Z.mul_comm, <- Z.shiftl_mul_pow2 by lia.
  destruct (Z.lt_ge_cases j 8).
  - now rewrite Z.shiftl_spec_low by lia.
  - rewrite Z.mod_pow2_bits_high by lia. apply andb_false_r.
Qed.

(** Shifting a 16-bit register eight times is a table lookup on its high
    byte combined with its low byte moved up. *)
Lemma crc_shift8_spec x :
  0 <= x < 65536 ->
  crc_shift8 x = Z.lxor (nth (Z.to_nat (x / 256)) _crc_table 0) (256 * (x mod 256))
  /\ 0 <= crc_shift8 x < 65536.
Proof.
  intros Hx. split; [|apply crc_shift8_range].
  assert (Hh : 0 <= x / 256 < 256)
    by (split; [apply Z.div_pos | apply Z.div_lt_upper_bound]; lia).
  assert (Hl : 0 <= x mod 256 < 256) by (apply Z.mod_pos_bound; lia).
  rewrite (split_high_low x) at 1.
  now rewrite crc_shift8_lxor, crc_shift8_high, crc_shift8_low.
Qed.

(** One step of the table-driven loop is one byte through the register. *)
Lemma crc16_step_shift c b :
  0 <= c < 65536 -> 0 <= b < 256 ->
  Z.land (Z.lxor (nth (Z.to_nat (Z.land (Z.lxor b (Z.shiftr c 8)) 0xFF)) _crc_table 0)
                 (Z.land (Z.shiftl c 8) 0xFFFF))
         0xFFFF
  = crc_shift8 (Z.lxor c (Z.shiftl b 8)).
Proof.
  intros Hc Hb.
  assert (Hs : 0 <= Z.shiftl b 8 < 2 ^ 16).
  { rewrite Z.shiftl_mul_pow2 by lia. change (2 ^ 8) with 256. simpl. lia. }
  assert (Hx : 0 <= Z.lxor c (Z.shiftl b 8) < 65536).
  { apply (lxor_range 16); [lia | simpl; lia | exact Hs]. }
  destruct (crc_shift8_spec _ Hx) as [E Hr].
  assert (Hhi : 0 <= Z.lxor b (Z.shiftr c 8) < 256).
  { apply (lxor_range 8); [lia | simpl; lia |].
    rewrite Z.shiftr_div_pow2 by lia. change (2 ^ 8) with 256.
    split; [apply Z.div_pos | apply Z.div_lt_upper_bound]; lia. }
  rewrite land_8_small by exact Hhi.
  rewrite land_shiftl8_16.
  rewrite lxor_high_byte_high, lxor_high_byte_low in E.
  rewrite <- E. now apply land_16_small.
Qed.

(** The table-driven loop and the shift register agree on byte strings. *)
Lemma crc16_bitwise_eq data crc :
  is_bytes data = true -> crc16 data crc = crc16_bitwise data crc.
Proof.
  intros Hb. unfold crc16, crc16_bitwise.
  assert (H0 : 0 <= Z.land crc 0xFFFF < 65536).
  { change 0xFFFF with (Z.ones 16). rewrite Z.land_ones by lia.
    apply Z.mod_pos_bound. reflexivity. }
  revert H0. generalize (Z.land crc 0xFFFF).
  induction data as [|b data IH]; intros c Hc; [reflexivity|].
  cbn [fold_left]. simpl in Hb. apply andb_true_iff in Hb. destruct Hb as [Hb Hd].
  apply is_byte_iff in Hb.
  rewrite crc16_step_shift by assumption.
  apply IH; [exact Hd|].
  apply crc_shift8_spec.
  apply (lxor_range 16); [lia | simpl; lia |].
  rewrite Z.shiftl_mul_pow2 by lia. change (2 ^ 8) with 256. simpl. lia.
Qed.

(** C1: on a frame of length L >= 6 the checksum repair stores, high byte
    first, the CRC-16 (table for polynomial 0x8005, seed 0) of bytes [2, L-2)
    in the last two bytes and changes no other byte, so the stored big-endian
    value is the CRC of the repaired frame's own body; on a buffer of bytes
    that value is the checksum computed bit by bit, most significant bit
    first, with the generator polynomial 0x8005 and the register started at
    0; on a frame with L < 6 the repair changes nothing. *)
Theorem eac3_rewrite_crc2_spec (frame : list Z) :
  let L := len frame in
  (L < 6 -> eac3_rewrite_crc2_like_c frame L = Ok frame)
  /\ (6 <= L ->
      exists frame',
        eac3_rewrite_crc2_like_c frame L = Ok frame'
        /\ len frame' = L
        /\ (forall i, 0 <= i < L - 2 ->
                      nth (Z.to_nat i) frame' 0 = nth (Z.to_nat i) frame 0)
        /\ let c := crc16 (py_slice frame 2 (L - 2)) 0 in
           let hi := nth (Z.to_nat (L - 2)) frame' 0 in
           let lo := nth (Z.to_nat (L - 1)) frame' 0 in
           hi = Z.land (Z.shiftr c 8) 0xFF
           /\ lo = Z.land c 0xFF
           /\ 0 <= hi < 256 /\ 0 <= lo < 256
           /\ 256 * hi + lo = c
           /\ crc16 (py_slice frame' 2 (L - 2)) 0 = 256 * hi + lo
           /\ (is_bytes frame = true ->
               256 * hi + lo = crc16_bitwise (py_slice frame 2 (L - 2)) 0)).
Proof.
  intros L. unfold eac3_rewrite_crc2_like_c. split.
  - intros HL. now replace (L <? 6) with true by (symmetry; zbool).
  - intros HL. replace (L <? 6) with false by (symmetry; zbool).
    set (c := crc16 (py_slice frame 2 (L - 2)) 0).
    assert (Hc : 0 <= c < 65536) by apply crc16_range.
    destruct (big_endian_split c Hc) as (Hhi & Hlo & Hsum).
    rewrite py_setitem_inrange by (fold L; lia). cbn [bind].
    rewrite py_setitem_inrange by (rewrite len_update; fold L; lia).
    eexists. split; [reflexivity|].
    assert (Hlen : length frame = Z.to_nat L) by (unfold L, len; lia).
    assert (E1 : nth (Z.to_nat (L - 2))
                     (update (update frame (Z.to_nat (L - 2))
                                     (Z.land (Z.shiftr c 8) 0xFF))
                             (Z.to_nat (L - 1)) (Z.land c 0xFF)) 0
                 = Z.land (Z.shiftr c 8) 0xFF).
    { rewrite nth_update_other by lia. apply nth_update_same. lia. }
    assert (E2 : nth (Z.to_nat (L - 1))
                     (update (update frame (Z.to_nat (L - 2))
                                     (Z.land (Z.shiftr c 8) 0xFF))
                             (Z.to_nat (L - 1)) (Z.land c 0xFF)) 0
                 = Z.land c 0xFF).
    { apply nth_update_same. rewrite length_update. lia. }
    split; [now rewrite !len_update|].
    split.
    { intros i Hi. rewrite !nth_update_other by lia. reflexivity. }
    cbv zeta. rewrite E1, E2.
    split; [reflexivity|]. split; [reflexivity|].
    split; [lia|]. split; [lia|]. split; [lia|]. split.
    + rewrite !py_slice_update_ge by lia. fold c. lia.
    + intros Hbytes. rewrite Hsum. unfold c.
      apply crc16_bitwise_eq. now apply is_bytes_py_slice.
Qed.

Lemma eac3_rewrite_crc2_spec_witness :
  eac3_rewrite_crc2_like_c [11; 119; 1; 2; 3] 5 = Ok [11; 119; 1; 2; 3]
  /\ exists frame',
      eac3_rewrite_crc2_like_c [11; 119; 49; 50; 51; 52; 0; 0] 8 = Ok frame'
      /\ nth 6 frame' 0 = 253
      /\ nth 7 frame' 0 = 89
      /\ 256 * nth 6 frame' 0 + nth 7 frame' 0 = crc16_bitwise [49; 50; 51; 52] 0
      /\ crc16_bitwise [49; 50; 51; 52] 0 = 0xFD59.
Proof.
  split.
  - apply (proj1 (eac3_rewrite_crc2_spec [11; 119; 1; 2; 3])). reflexivity.
  - destruct (proj2 (eac3_rewrite_crc2_spec [11; 119; 49; 50; 51; 52; 0; 0]))
      as (frame' & Hrun & _ & _ & Hhi & Hlo & _ & _ & _ & _ & Hbit).
    + unfold len; simpl; lia.
    + exists frame'. split; [exact Hrun|]. split; [exact Hhi|]. split; [exact Hlo|].
      split; [apply Hbit; reflexivity | reflexivity].
Defined.

(** ** The frame reader *)

Lemma read_frame_nil : read_frame [] = Ok ((None, 0, true, ""), []).
Proof. reflexivity. Qed.

(** [read_frame] on a stream holding at least six bytes. *)
Lemma read_frame_header b0 b1 b2 b3 b4 b5 rest :
  read_frame (b0 :: b1 :: b2 :: b3 :: b4 :: b5 :: rest)
  = if negb (b0 =? 0x0B) || negb (b1 =? 0x77)
    then Raise (PatchError "Bad syncword (expected 0x0B 0x77)")
    else
      sized <- frame_size b2 b3 b4 b5 ;;
      let '(frame_len, kind) := sized in
      let (tail, fin) := read_exact rest (frame_len - 6) in
      if negb (len tail =? frame_len - 6)
      then Raise (PatchError "Unexpected EOF (truncated frame)")
      else Ok ((Some ([b0; b1; b2; b3; b4; b5] ++ tail), frame_len, false, kind), fin).
Proof.
  unfold read_frame, frame_size.
  change (read_exact (b0 :: b1 :: b2 :: b3 :: b4 :: b5 :: rest) 6)
    with ([b0; b1; b2; b3; b4; b5], rest).
  cbv beta iota.
  change (len [b0; b1; b2; b3; b4; b5]) with 6.
  change (py_getitem [b0; b1; b2; b3; b4; b5] 0) with (Ok b0).
  change (py_getitem [b0; b1; b2; b3; b4; b5] 1) with (Ok b1).
  change (py_getitem [b0; b1; b2; b3; b4; b5] 2) with (Ok b2).
  change (py_getitem [b0; b1; b2; b3; b4; b5] 3) with (Ok b3).
  change (py_getitem [b0; b1; b2; b3; b4; b5] 4) with (Ok b4).
  change (py_getitem [b0; b1; b2; b3; b4; b5] 5) with (Ok b5).
  cbn [Z.eqb Z.ltb Z.compare Pos.compare Pos.compare_cont bind].
  destruct (b0 =? 11); cbn [negb orb bind]; [|reflexivity].
  destruct (b1 =? 119); cbn [negb orb bind]; [|reflexivity].
  destruct (Z.shiftr b5 3 <? 10).
  - destruct (py_getitem fsizetable b4) as [entry|e]; cbn [bind]; [|reflexivity].
    destruct (entry * 2 =? 0); reflexivity.
  - destruct ((256 * Z.land b2 7 + b3) * 2 + 2 <? 10); reflexivity.
Qed.

Lemma fsizetable_len : len fsizetable = 250.
Proof. reflexivity. Qed.

Lemma fsizetable_entries : forall e, In e fsizetable -> e = 0 \/ 64 <= e.
Proof.
  assert (H : forallb (fun e => (e =? 0) || (64 <=? e)) fsizetable = true)
    by reflexivity.
  intros e He. rewrite forallb_forall in H. specialize (H e He).
  apply orb_true_iff in H. destruct H as [H|H]; [left | right].
  - now apply Z.eqb_eq.
  - now apply Z.leb_le.
Qed.

(** Where the table has an entry (header byte 4 below 250) the AC-3 branch
    behaves as described: a zero entry is reported as an invalid frmsizecod,
    any other entry gives the positive frame length [2 * entry]. *)
Lemma frame_size_ac3_in_table b2 b3 b4 b5 :
  0 <= b4 < 250 -> Z.shiftr b5 3 < 10 ->
  let entry := nth (Z.to_nat b4) fsizetable 0 in
  (entry = 0
   /\ frame_size b2 b3 b4 b5 = Raise (PatchError "Invalid AC-3 frmsizecod"))
  \/ (128 <= 2 * entry
      /\ frame_size b2 b3 b4 b5 = Ok (2 * entry, "ac3")).
Proof.
  intros Hb4 Hbsid entry. unfold frame_size.
  replace (Z.shiftr b5 3 <? 10) with true by (symmetry; zbool).
  rewrite (py_getitem_inrange _ _ 0) by (rewrite fsizetable_len; lia).
  fold entry. cbn [bind].
  assert (He : In entry fsizetable).
  { apply nth_In. change (length fsizetable) with 250%nat. lia. }
  destruct (fsizetable_entries _ He) as [E|E].
  - left. split; [exact E|]. rewrite E. reflexivity.
  - right. split; [lia|].
    replace (entry * 2 =? 0) with false by (symmetry; zbool).
    now rewrite Z.mul_comm.
Qed.

(** C4 (code evaluated where it departs from the claim): with a valid sync
    marker and bsid < 10, a header byte 4 in [250, 256) indexes past the 250
    entries of [fsizetable], and [read_frame] ends with [IndexError] instead
    of computing a length or reporting an invalid frmsizecod. *)
Theorem read_frame_frmsizecod_beyond_table b2 b3 b4 b5 rest :
  250 <= b4 -> Z.shiftr b5 3 < 10 ->
  read_frame (0x0B :: 0x77 :: b2 :: b3 :: b4 :: b5 :: rest) = Raise IndexError.
Proof.
  intros Hb4 Hbsid. rewrite read_frame_header.
  cbn [Z.eqb Pos.eqb negb orb]. unfold frame_size.
  replace (Z.shiftr b5 3 <? 10) with true by (symmetry; zbool).
  unfold py_getitem. rewrite fsizetable_len.
  replace (b4 <? 0) with false by (symmetry; zbool).
  replace (b4 <? 250) with false by (symmetry; zbool).
  now rewrite andb_false_r.
Qed.

Lemma read_frame_frmsizecod_beyond_table_witness :
  read_frame [0x0B; 0x77; 0; 0; 250; 64] = Raise IndexError.
Proof.
  apply (read_frame_frmsizecod_beyond_table 0 0 250 64 []).
  - lia.
  - reflexivity.
Defined.

(** ** Header positions *)

Lemma eac3_parse_positions_eq fr :
  eac3_parse_positions fr
  = Ok (mkPositions (bits_at fr 16 2) 45 50 51 (scan_start_of fr)).
Proof.
  unfold eac3_parse_positions, scan_start_of.
  rewrite getbits_nonneg by lia. cbn [bind].
  change (16 + 2 + 3 + 11 + 2 + 2 + 3 + 1 + 5) with 45.
  change (45 + 5) with 50. rewrite getbits_nonneg by lia. cbn [bind].
  change (50 + 1) with 51. change (51 + 8) with 59.
  reflexivity.
Qed.

Lemma scan_start_of_cases fr : scan_start_of fr = 51 \/ scan_start_of fr = 59.
Proof. unfold scan_start_of. destruct (_ =? 1); auto. Qed.

(** ** The detector: scanning *)

Lemma scan_frame_eq extra ph fr :
  6 <= len fr ->
  scan_frame extra ph fr
  = Ok (if is_dependent fr
        then fold_left (scan_step fr) (scan_window fr (scan_start_of fr) extra) ph
        else ph).
Proof.
  intros Hlen. unfold scan_frame, is_dependent.
  rewrite (py_getitem_inrange _ _ 0) by lia. cbn [bind].
  change (Z.to_nat 5) with 5%nat.
  destruct (Z.shiftr (nth 5 fr 0) 3 <? 10); cbn [negb andb]; [reflexivity|].
  rewrite eac3_parse_positions_eq. cbn [bind strmtype scan_start].
  destruct (bits_at fr 16 2 =? 1); cbn [negb]; [|reflexivity].
  apply for_each_pure. intros h p Hp.
  unfold scan_window in Hp. apply in_py_range in Hp.
  pose proof (scan_start_of_cases fr).
  rewrite getbit_nonneg by lia. cbn [bind].
  unfold scan_step, qualifies.
  destruct (bit_at fr p =? 1); cbn [negb andb]; [|reflexivity].
  rewrite getbits_nonneg by lia. cbn [bind].
  now destruct (_ || _).
Qed.

Lemma dict_get_in {V} (d : dict V) k v : dict_get d k = Some v -> In (k, v) d.
Proof.
  induction d as [|[k' v'] d IH]; simpl; [discriminate|].
  destruct (Z.eqb_spec k' k) as [->|Hne].
  - intros [= ->]. now left.
  - intros H. right. auto.
Qed.

Lemma dict_set_in {V} (d : dict V) key x k v :
  In (k, v) (dict_set d key x) -> (k = key /\ v = x) \/ In (k, v) d.
Proof.
  induction d as [|[k' v'] d IH]; simpl.
  - intros [[= <- <-]|[]]. now left.
  - destruct (Z.eqb_spec k' key) as [->|Hne]; simpl.
    + intros [[= <- <-]|H]; [now left | right; now right].
    + intros [H|H]; [right; now left|].
      destruct (IH H) as [?|?]; [now left | right; now right].
Qed.

Lemma dict_set_keys {V} (d : dict V) key x k :
  In k (dict_keys (dict_set d key x)) <-> k = key \/ In k (dict_keys d).
Proof.
  unfold dict_keys. induction d as [|[k' v'] d IH]; simpl.
  - intuition.
  - destruct (Z.eqb_spec k' key) as [->|Hne]; simpl.
    + intuition.
    + rewrite IH. intuition.
Qed.

Lemma dict_set_nonempty {V} (d : dict V) key x : dict_set d key x <> [].
Proof. destruct d as [|[k' v'] d]; simpl; [|destruct (k' =? key)]; discriminate. Qed.

Lemma record_value_keys ph key v k :
  In k (dict_keys (record_value ph key v)) <-> k = key \/ In k (dict_keys ph).
Proof. unfold record_value. apply dict_set_keys. Qed.

Lemma scan_step_keys fr ph p k :
  In k (dict_keys (scan_step fr ph p))
  <-> In k (dict_keys ph) \/ (qualifies fr p = true /\ k = p + 1).
Proof.
  unfold scan_step. destruct (qualifies fr p).
  - rewrite record_value_keys. intuition.
  - intuition discriminate.
Qed.

Lemma scan_fold_keys fr ps ph k :
  In k (dict_keys (fold_left (scan_step fr) ps ph))
  <-> In k (dict_keys ph) \/ exists p, In p ps /\ qualifies fr p = true /\ k = p + 1.
Proof.
  revert ph; induction ps as [|p ps IH]; intros ph; simpl.
  - split; [auto | intros [H|(p & [] & _)]; exact H].
  - rewrite IH, scan_step_keys. split.
    + intros [[H|(Hq & ->)]|(p' & Hin & Hq & ->)]; eauto 6.
    + intros [H|(p' & [<-|Hin] & Hq & ->)]; eauto 6.
Qed.

(** The keys of the histogram built from [samples]: exactly the offsets
    [p + 1] for [p] a qualifying offset in the scan window of a sampled
    dependent frame. *)
Lemma build_pos_hist_keys samples extra :
  (forall fr, In fr samples -> 6 <= len fr) ->
  exists ph,
    build_pos_hist samples extra = Ok ph
    /\ forall k,
        In k (dict_keys ph)
        <-> exists fr p,
            In fr samples /\ is_dependent fr = true
            /\ In p (scan_window fr (scan_start_of fr) extra)
            /\ qualifies fr p = true /\ k = p + 1.
Proof.
  unfold build_pos_hist.
  enough (G : forall ph0,
             (forall fr, In fr samples -> 6 <= len fr) ->
             exists ph,
               for_each (scan_frame extra) samples ph0 = Ok ph
               /\ forall k,
                   In k (dict_keys ph)
                   <-> In k (dict_keys ph0)
                       \/ exists fr p,
                         In fr samples /\ is_dependent fr = true
                         /\ In p (scan_window fr (scan_start_of fr) extra)
                         /\ qualifies fr p = true /\ k = p + 1).
  { intros H. destruct (G [] H) as (ph & E & Hk). exists ph. split; [exact E|].
    intros k. rewrite Hk. simpl. intuition. }
  induction samples as [|fr samples IH]; intros ph0 Hlen.
  - exists ph0. split; [reflexivity|]. intros k. split; [auto|].
    intros [H|(fr & p & [] & _)]. exact H.
  - cbn [for_each]. rewrite scan_frame_eq by (apply Hlen; now left). cbn [bind].
    destruct (IH (if is_dependent fr
                  then fold_left (scan_step fr)
                                 (scan_window fr (scan_start_of fr) extra) ph0
                  else ph0)) as (ph & E & Hk).
    { intros; apply Hlen; now right. }
    exists ph. split; [exact E|]. intros k. rewrite Hk. clear Hk E.
    destruct (is_dependent fr) eqn:Hdep.
    + rewrite scan_fold_keys. split.
      * intros [[H|(p & Hin & Hq & ->)]|(fr' & p & Hin & Hrest)].
        -- now left.
        -- right. exists fr, p. simpl. auto.
        -- right. exists fr', p. simpl. tauto.
      * intros [H|(fr' & p & [<-|Hin] & Hd & Hw & Hq & ->)].
        -- left. now left.
        -- left. right. eauto.
        -- right. exists fr', p. auto.
    + split.
      * intros [H|(fr' & p & Hin & Hrest)]; [now left|].
        right. exists fr', p. simpl. tauto.
      * intros [H|(fr' & p & [<-|Hin] & Hd & Hrest)]; [now left | congruence |].
        right. exists fr', p. auto.
Qed.

(** ** The detector: counts *)

Lemma fold_add_shift l a : fold_left Z.add l a = a + fold_left Z.add l 0.
Proof.
  revert a; induction l as [|x l IH]; intros a; simpl; [lia|].
  rewrite (IH (a + x)), (IH x). lia.
Qed.

Lemma py_sum_cons x l : py_sum (x :: l) = x + py_sum l.
Proof. unfold py_sum. simpl. apply fold_add_shift. Qed.

Lemma py_sum_ge_elem l :
  (forall c, In c l -> 1 <= c) -> forall c, In c l -> c <= py_sum l.
Proof.
  induction l as [|x l IH]; intros Hpos c Hc; [destruct Hc|].
  rewrite py_sum_cons.
  assert (0 <= py_sum l).
  { clear -Hpos. induction l as [|y l IH]; [unfold py_sum; simpl; lia|].
    rewrite py_sum_cons.
    assert (1 <= y) by (apply Hpos; right; now left).
    assert (0 <= py_sum l) by (apply IH; intros c [->|H']; apply Hpos;
                                [now left | right; now right]).
    lia. }
  assert (1 <= x) by (apply Hpos; now left).
  destruct Hc as [->|Hc]; [lia|].
  assert (c <= py_sum l) by (apply IH; auto; intros; apply Hpos; now right).
  lia.
Qed.

Lemma fold_max_spec l x :
  let m := fold_left Z.max l x in
  In m (x :: l) /\ forall c, In c (x :: l) -> c <= m.
Proof.
  revert x; induction l as [|y l IH]; intros x; simpl.
  - split; [now left | intros c [->|[]]; lia].
  - destruct (IH (Z.max x y)) as [Hin Hmax]. split.
    + destruct Hin as [E|Hin]; [|right; now right].
      rewrite <- E. destruct (Z.max_spec x y) as [[_ ->]|[_ ->]]; auto.
    + intros c [->|[->|Hc]].
      * specialize (Hmax (Z.max c y) (or_introl eq_refl)). lia.
      * specialize (Hmax (Z.max x c) (or_introl eq_refl)). lia.
      * apply Hmax. now right.
Qed.

Lemma counts_ok_bounds n hist :
  counts_ok n hist ->
  exists total top,
    hist_counts hist = (total, top)
    /\ py_max (dict_values hist) = Ok top
    /\ 1 <= top <= total /\ total <= n.
Proof.
  intros (Hne & Hpos & Hsum). unfold hist_counts, py_max.
  destruct (dict_values hist) as [|x l] eqn:E.
  - destruct hist; [congruence | discriminate].
  - destruct (fold_max_spec l x) as [Hin Hmax].
    eexists _, _. split; [reflexivity|]. split; [reflexivity|].
    split; [split|exact Hsum].
    + now apply Hpos.
    + now apply py_sum_ge_elem.
Qed.

Lemma dict_set_increment_sum (d : dict Z) v :
  py_sum (dict_values (dict_set d v
            (match dict_get d v with Some n => n | None => 0 end + 1)))
  = py_sum (dict_values d) + 1.
Proof.
  unfold dict_values. induction d as [|[k c] d IH]; simpl.
  - reflexivity.
  - destruct (Z.eqb_spec k v) as [->|Hne]; simpl.
    + rewrite !py_sum_cons. lia.
    + rewrite !py_sum_cons, IH. lia.
Qed.

Lemma dict_set_increment_counts (d : dict Z) v :
  (forall c, In c (dict_values d) -> 1 <= c) ->
  forall c, In c (dict_values (dict_set d v
               (match dict_get d v with Some n => n | None => 0 end + 1))) ->
            1 <= c.
Proof.
  intros Hpos c Hc. unfold dict_values in Hc.
  apply in_map_iff in Hc. destruct Hc as ([k c'] & <- & Hin). simpl.
  apply dict_set_in in Hin. destruct Hin as [[-> ->]|Hin].
  - destruct (dict_get d v) as [n|] eqn:E; [|lia].
    apply dict_get_in in E.
    assert (1 <= n) by (apply Hpos; unfold dict_values;
                        apply in_map_iff; now exists (v, n)).
    lia.
  - apply Hpos. unfold dict_values. apply in_map_iff. now exists (k, c').
Qed.

Lemma counts_ok_mono n m h : n <= m -> counts_ok n h -> counts_ok m h.
Proof. intros Hnm (H1 & H2 & H3). repeat split; auto. lia. Qed.

Lemma scan_step_inv fr j p ph :
  0 <= j -> scan_inv j p ph -> scan_inv j (p + 1) (scan_step fr ph p).
Proof.
  intros Hj Hinv k h Hin.
  assert (Hold : forall k h, In (k, h) ph ->
                             counts_ok (if k <=? p + 1 then j + 1 else j) h).
  { intros k' h' H'. apply (counts_ok_mono (if k' <=? p then j + 1 else j)).
    - zbool.
    - now apply Hinv. }
  unfold scan_step in Hin. destruct (qualifies fr p); [|now apply Hold].
  unfold record_value in Hin. apply dict_set_in in Hin.
  destruct Hin as [[-> ->]|Hin]; [|now apply Hold].
  replace (p + 1 <=? p + 1) with true by (symmetry; zbool).
  destruct (dict_get ph (p + 1)) as [d|] eqn:E.
  - apply dict_get_in, Hinv in E.
    replace (p + 1 <=? p) with false in E by (symmetry; zbool).
    destruct E as (_ & Hpos & Hsum). repeat split.
    + apply dict_set_nonempty.
    + now apply dict_set_increment_counts.
    + rewrite dict_set_increment_sum. lia.
  - repeat split.
    + apply dict_set_nonempty.
    + apply dict_set_increment_counts. intros c [].
    + rewrite dict_set_increment_sum. unfold py_sum. simpl. lia.
Qed.

Lemma scan_fold_inv fr j (m : nat) start ph :
  0 <= j -> scan_inv j start ph ->
  scan_inv j (start + Z.of_nat m)
           (fold_left (scan_step fr) (py_range start (start + Z.of_nat m)) ph).
Proof.
  intros Hj. revert start ph. induction m as [|m IH]; intros start ph Hinv.
  - rewrite py_range_empty by lia. simpl. now rewrite Z.add_0_r.
  - rewrite py_range_cons by lia. cbn [fold_left].
    replace (start + Z.of_nat (S m)) with (start + 1 + Z.of_nat m) by lia.
    apply IH. now apply scan_step_inv.
Qed.

Lemma scan_window_counts fr extra j ph :
  0 <= j ->
  (forall k h, In (k, h) ph -> counts_ok j h) ->
  forall k h,
    In (k, h) (fold_left (scan_step fr)
                         (scan_window fr (scan_start_of fr) extra) ph) ->
    counts_ok (j + 1) h.
Proof.
  intros Hj Hph k h Hin. unfold scan_window in Hin.
  set (start := scan_start_of fr) in *.
  set (end_ := Z.min (len fr * 8 - 17) (start + extra)) in *.
  destruct (Z.le_gt_cases end_ start) as [Hle|Hgt].
  - rewrite py_range_empty in Hin by lia. simpl in Hin.
    apply (counts_ok_mono j); [lia | eauto].
  - replace end_ with (start + Z.of_nat (Z.to_nat (end_ - start))) in Hin by lia.
    apply (scan_fold_inv fr j _ start ph Hj) in Hin.
    + eapply counts_ok_mono; [|exact Hin]. zbool.
    + intros k' h' H'. eapply counts_ok_mono; [|apply (Hph _ _ H')]. zbool.
Qed.

(** After scanning the samples every inner histogram holds between one
    and [len(samples)] counts. *)
Lemma build_pos_hist_counts samples extra :
  (forall fr, In fr samples -> 6 <= len fr) ->
  forall ph, build_pos_hist samples extra = Ok ph ->
  forall k h, In (k, h) ph -> counts_ok (len samples) h.
Proof.
  unfold build_pos_hist. intros Hlen.
  enough (G : forall ph0 j,
             0 <= j ->
             (forall k h, In (k, h) ph0 -> counts_ok j h) ->
             forall ph, for_each (scan_frame extra) samples ph0 = Ok ph ->
             forall k h, In (k, h) ph -> counts_ok (j + len samples) h).
  { intros ph E k h Hin. apply (G [] 0 ltac:(lia)) with (ph := ph) (k := k); auto.
    intros ? ? []. }
  induction samples as [|fr samples IH]; intros ph0 j Hj Hph0 ph E k h Hin.
  - simpl in E. injection E as <-. unfold len; simpl.
    rewrite Z.add_0_r. eauto.
  - cbn [for_each] in E. rewrite scan_frame_eq in E by (apply Hlen; now left).
    cbn [bind] in E.
    replace (j + len (fr :: samples)) with (j + 1 + len samples)
      by (unfold len; simpl length; lia).
    eapply IH; [intros; apply Hlen; now right | | | exact E | exact Hin]; [lia|].
    intros k' h' H'. destruct (is_dependent fr).
    + eapply scan_window_counts; eauto.
    + apply (counts_ok_mono j); [lia | eauto].
Qed.

(** ** The detector: scores *)

Lemma small_counts_in total top :
  1 <= top <= total -> total <= 8 -> In (total, top) small_counts.
Proof.
  intros H1 H2. unfold small_counts. apply in_flat_map.
  exists total. split; [apply in_py_range; lia|].
  apply in_map_iff. exists top. split; [reflexivity | apply in_py_range; lia].
Qed.

(** On the counts that eight samples allow, the binary64 score orders the
    histograms exactly as the exact score [top^2 / total] does, and every
    score exceeds the initial [best_score = -1.0]. *)
Lemma score_order_small :
  forallb (fun a =>
             PrimFloat.ltb (-1)%float (score (fst a) (snd a))
             && forallb (fun b =>
                           Bool.eqb (PrimFloat.ltb (score (fst a) (snd a))
                                                   (score (fst b) (snd b)))
                                    (snd a * snd a * fst b <? snd b * snd b * fst a))
                        small_counts)
          small_counts
  = true.
Proof. vm_compute. reflexivity. Qed.

Lemma score_above_initial total top :
  1 <= top <= total -> total <= 8 ->
  PrimFloat.ltb (-1)%float (score total top) = true.
Proof.
  intros H1 H2. pose proof score_order_small as H.
  rewrite forallb_forall in H.
  specialize (H _ (small_counts_in total top H1 H2)).
  apply andb_true_iff in H. exact (proj1 H).
Qed.

Lemma score_ltb_exact total1 top1 total2 top2 :
  1 <= top1 <= total1 -> total1 <= 8 ->
  1 <= top2 <= total2 -> total2 <= 8 ->
  PrimFloat.ltb (score total1 top1) (score total2 top2) = true
  <-> exact_lt (total1, top1) (total2, top2).
Proof.
  intros H1 H1' H2 H2'. pose proof score_order_small as H.
  rewrite forallb_forall in H.
  specialize (H _ (small_counts_in total1 top1 H1 H1')).
  apply andb_true_iff in H. destruct H as [_ H].
  rewrite forallb_forall in H.
  specialize (H _ (small_counts_in total2 top2 H2 H2')).
  apply Bool.eqb_prop in H. cbn [fst snd] in H. rewrite H.
  unfold exact_lt. apply Z.ltb_lt.
Qed.

Lemma exact_lt_trans a b c :
  0 < fst a -> 0 < fst b -> 0 < fst c ->
  exact_lt a b -> exact_lt b c -> exact_lt a c.
Proof.
  destruct a as [n1 t1], b as [n2 t2], c as [n3 t3]. unfold exact_lt. simpl.
  intros H1 H2 H3 Hab Hbc.
  assert (E1 : t1 * t1 * n2 * n3 < t2 * t2 * n1 * n3) by nia.
  assert (E2 : t2 * t2 * n3 * n1 < t3 * t3 * n2 * n1) by nia.
  assert (E : (t1 * t1 * n3) * n2 < (t3 * t3 * n1) * n2) by lia.
  apply Z.mul_lt_mono_pos_r in E; lia.
Qed.

Lemma exact_le_lt_trans a b c :
  0 < fst a -> 0 < fst b -> 0 < fst c ->
  ~ exact_lt b a -> exact_lt b c -> exact_lt a c.
Proof.
  destruct a as [n1 t1], b as [n2 t2], c as [n3 t3]. unfold exact_lt. simpl.
  intros H1 H2 H3 Hab Hbc.
  assert (Hab' : t1 * t1 * n2 <= t2 * t2 * n1) by lia.
  assert (E1 : t1 * t1 * n2 * n3 <= t2 * t2 * n1 * n3) by nia.
  assert (E2 : t2 * t2 * n3 * n1 < t3 * t3 * n2 * n1) by nia.
  assert (E : (t1 * t1 * n3) * n2 < (t3 * t3 * n1) * n2) by lia.
  apply Z.mul_lt_mono_pos_r in E; lia.
Qed.

(** ** The detector: selection *)

Section Selection.

(** At most eight frames are sampled, so no histogram holds more counts. *)
Variable n : Z.
Hypothesis Hn : n <= 8.

Lemma select_step_eq best_pos best_score k h :
  counts_ok n h ->
  select_step (best_pos, best_score) (k, h)
  = Ok (if PrimFloat.ltb best_score
                         (score (fst (hist_counts h)) (snd (hist_counts h)))
        then (Some k, score (fst (hist_counts h)) (snd (hist_counts h)))
        else (best_pos, best_score)).
Proof.
  intros Hok. destruct (counts_ok_bounds n h Hok) as (total & top & E & Emax & _).
  unfold select_step. rewrite Emax. cbn [bind].
  rewrite E. cbn [fst snd].
  assert (py_sum (dict_values h) = total) by (unfold hist_counts in E; congruence).
  subst total. now destruct (PrimFloat.ltb _ _).
Qed.

Lemma select_loop_inv ph :
  (forall k h, In (k, h) ph -> counts_ok n h) ->
  exists st, for_each select_step ph (None, (-1)%float) = Ok st /\ best_inv ph st.
Proof.
  induction ph as [|[k hk] ph IH] using rev_ind; intros Hok.
  - exists (None, (-1)%float). split; [reflexivity|]. now left.
  - destruct IH as (st & E & Hinv).
    { intros k' h' H'. apply (Hok k' h'). apply in_or_app. now left. }
    assert (Hk : counts_ok n hk).
    { apply (Hok k hk). apply in_or_app. right. now left. }
    destruct (counts_ok_bounds n hk Hk) as (tk & pk & Ek & _ & Hbk & Hbk').
    rewrite for_each_app, E. cbn [bind for_each]. destruct st as [bp bs].
    rewrite select_step_eq by exact Hk. cbn [bind].
    eexists. split; [reflexivity|].
    destruct Hinv as [[-> [= -> ->]]|(l1 & o & h & l2 & -> & Est & Hbefore & Hafter)].
    + rewrite Ek. cbn [fst snd].
      rewrite score_above_initial by lia. right.
      exists [], k, hk, []. rewrite Ek. cbn [fst snd].
      split; [reflexivity|]. split; [reflexivity|].
      split; intros ? ? [].
    + assert (Ho : counts_ok n h).
      { apply (Hok o h). apply in_or_app. left. apply in_or_app. right. now left. }
      destruct (counts_ok_bounds n h Ho) as (th & ph' & Eh & _ & Hbh & Hbh').
      assert (Hall : forall k' h', In (k', h') (l1 ++ (o, h) :: l2) ->
                                   0 < fst (hist_counts h')).
      { intros k' h' H'.
        assert (Hc : counts_ok n h') by (apply (Hok k' h'); apply in_or_app; now left).
        destruct (counts_ok_bounds n h' Hc) as (t' & p' & E' & _ & Hb' & _).
        rewrite E'. simpl. lia. }
      rewrite Eh in *. rewrite Ek. cbn [fst snd] in *.
      injection Est as -> ->.
      destruct (PrimFloat.ltb (score th ph') (score tk pk)) eqn:Hcmp.
      * apply score_ltb_exact in Hcmp; try lia.
        right. exists (l1 ++ (o, h) :: l2), k, hk, [].
        rewrite Ek. cbn [fst snd].
        split; [reflexivity|]. split; [reflexivity|]. split.
        -- intros k' h' H'. apply in_app_or in H'.
           destruct H' as [H'|[[= <- <-]|H']].
           ++ apply (exact_lt_trans _ (th, ph'));
                [apply (Hall k' h'); apply in_or_app; now left
                | cbn [fst]; lia | cbn [fst]; lia | eauto | exact Hcmp].
           ++ now rewrite Eh.
           ++ apply (exact_le_lt_trans _ (th, ph'));
                [apply (Hall k' h'); apply in_or_app; right; now right
                | cbn [fst]; lia | cbn [fst]; lia | eauto | exact Hcmp].
        -- intros ? ? [].
      * right. exists l1, o, h, (l2 ++ [(k, hk)]).
        rewrite Eh. cbn [fst snd].
        split; [now rewrite <- app_assoc|]. split; [reflexivity|]. split.
        -- exact Hbefore.
        -- intros k' h' H'. apply in_app_or in H'.
           destruct H' as [H'|[[= <- <-]|[]]]; [eauto|].
           rewrite Ek. intros Hlt.
           apply score_ltb_exact in Hlt; try lia. congruence.
Qed.

(** On a non-empty histogram built from at most eight samples the selection
    returns the first key, in insertion order, whose exact score
    [top^2 / total] no other key exceeds. *)
Lemma select_best_first_max ph :
  (forall k h, In (k, h) ph -> counts_ok n h) ->
  ph <> [] ->
  exists l1 o h l2,
    ph = l1 ++ (o, h) :: l2
    /\ select_best ph = Ok (Some o)
    /\ (forall k' h', In (k', h') l1 -> exact_lt (hist_counts h') (hist_counts h))
    /\ (forall k' h', In (k', h') l2 -> ~ exact_lt (hist_counts h) (hist_counts h')).
Proof.
  intros Hok Hne.
  destruct (select_loop_inv ph Hok) as (st & E & [[-> _]|Hinv]); [congruence|].
  destruct Hinv as (l1 & o & h & l2 & -> & -> & Hb & Ha).
  exists l1, o, h, l2. unfold select_best. rewrite E. cbn [bind fst]. auto.
Qed.

End Selection.

(** ** The detector: what is on record *)

Lemma dict_set_keeps {V} (d : dict V) key x k v :
  In (k, v) d -> In (k, v) (dict_set d key x) \/ (k = key /\ dict_get d key = Some v).
Proof.
  induction d as [|[k' v'] d IH]; simpl; [intros []|].
  destruct (Z.eqb_spec k' key) as [->|Hne].
  - intros [[= -> ->]|H]; [now right | left; now right].
  - intros [[= -> ->]|H]; [left; now left|].
    destruct (IH H) as [?|?]; [left; now right | now right].
Qed.

Lemma dict_set_has_key {V} (d : dict V) key x : In (key, x) (dict_set d key x).
Proof.
  induction d as [|[k' v'] d IH]; simpl; [now left|].
  destruct (Z.eqb_spec k' key) as [->|Hne]; [now left | now right].
Qed.

Lemma record_value_records ph key v : recorded (record_value ph key v) key v.
Proof.
  unfold record_value. eexists. split; [apply dict_set_has_key|].
  apply dict_set_keys. now left.
Qed.

Lemma record_value_keeps ph key v k w :
  recorded ph k w -> recorded (record_value ph key v) k w.
Proof.
  intros (h & Hin & Hw). unfold record_value.
  destruct (dict_set_keeps ph key
              (dict_set match dict_get ph key with Some d => d | None => [] end v
                 (match dict_get match dict_get ph key with
                                 | Some d => d | None => [] end v with
                  | Some n => n | None => 0 end + 1)) k h Hin) as [H|[-> E]].
  - exists h. split; assumption.
  - rewrite E. eexists. split; [apply dict_set_has_key|].
    apply dict_set_keys. now right.
Qed.

Lemma scan_fold_keeps fr ps ph k w :
  recorded ph k w -> recorded (fold_left (scan_step fr) ps ph) k w.
Proof.
  revert ph; induction ps as [|p ps IH]; intros ph H; simpl; [exact H|].
  apply IH. unfold scan_step. destruct (qualifies fr p); [|exact H].
  now apply record_value_keeps.
Qed.

Lemma scan_fold_records fr ps ph p :
  In p ps -> qualifies fr p = true ->
  recorded (fold_left (scan_step fr) ps ph) (p + 1) (bits_at fr (p + 1) 16).
Proof.
  revert ph; induction ps as [|q ps IH]; intros ph Hin Hq; [destruct Hin|].
  destruct Hin as [->|Hin]; simpl.
  - apply scan_fold_keeps. unfold scan_step. rewrite Hq.
    apply record_value_records.
  - now apply IH.
Qed.

Lemma build_pos_hist_records samples extra ph :
  (forall fr, In fr samples -> 6 <= len fr) ->
  build_pos_hist samples extra = Ok ph ->
  forall fr p,
    In fr samples -> is_dependent fr = true ->
    In p (scan_window fr (scan_start_of fr) extra) -> qualifies fr p = true ->
    recorded ph (p + 1) (bits_at fr (p + 1) 16).
Proof.
  unfold build_pos_hist. generalize (@nil (Z * dict Z)) as ph0.
  induction samples as [|fr0 samples IH]; intros ph0 Hlen E fr p Hin Hdep Hw Hq;
    [destruct Hin|].
  cbn [for_each] in E. rewrite scan_frame_eq in E by (apply Hlen; now left).
  cbn [bind] in E.
  destruct Hin as [->|Hin].
  - rewrite Hdep in E.
    assert (G : forall ph1 ph2,
               recorded ph1 (p + 1) (bits_at fr (p + 1) 16) ->
               for_each (scan_frame extra) samples ph1 = Ok ph2 ->
               recorded ph2 (p + 1) (bits_at fr (p + 1) 16)).
    { clear - Hlen. induction samples as [|f l IHl]; intros ph1 ph2 Hr E.
      - injection E as <-. exact Hr.
      - cbn [for_each] in E.
        rewrite scan_frame_eq in E by (apply Hlen; right; now left).
        cbn [bind] in E. eapply IHl; [| |exact E].
        + intros f' [->|H']; apply Hlen; [now left | right; now right].
        + destruct (is_dependent f); [now apply scan_fold_keeps | exact Hr]. }
    eapply G; [|exact E]. now apply scan_fold_records.
  - eapply IH; eauto. intros; apply Hlen; now right.
Qed.

Lemma qualifies_spec fr p :
  0 <= p ->
  qualifies fr p = true ->
  getbit fr p = Ok 1
  /\ exists v, getbits fr (p + 1) 16 = Ok v /\ v <> 0x0000 /\ v <> 0xFFFF.
Proof.
  intros Hp Hq. unfold qualifies in Hq.
  apply andb_true_iff in Hq. destruct Hq as [Hb Hv].
  apply Z.eqb_eq in Hb. apply negb_true_iff, orb_false_iff in Hv.
  destruct Hv as [H0 H1]. apply Z.eqb_neq in H0, H1.
  rewrite getbit_nonneg, getbits_nonneg, Hb by lia. eauto.
Qed.

Lemma scan_window_spec fr start extra p :
  In p (scan_window fr start extra)
  <-> start <= p < Z.min (len fr * 8 - 17) (start + extra).
Proof. unfold scan_window. apply in_py_range. Qed.

(** ** The detector: the claims *)

(** C3 (as stated, refuted): in the 300-byte dependent frame
    [frame_far_candidate], offset 2200 lies in [scan_start, 8*300 - 17) and
    holds a set presence bit followed by the value 0x0024, yet it is not
    among the scanned offsets and the detector finds nothing: the scan stops
    at [scan_start + 2048]. *)
Lemma scan_window_capped_counterexample :
  is_dependent frame_far_candidate = true
  /\ eac3_parse_positions frame_far_candidate = Ok (mkPositions 1 45 50 51 51)
  /\ 51 <= 2200 < len frame_far_candidate * 8 - 17
  /\ getbit frame_far_candidate 2200 = Ok 1
  /\ getbits frame_far_candidate 2201 16 = Ok 0x0024
  /\ ~ In 2200 (scan_window frame_far_candidate 51 2048)
  /\ find_chanmap_bitpos [frame_far_candidate] 2048 = Ok None.
Proof.
  split; [reflexivity|]. split; [reflexivity|].
  split; [change (len frame_far_candidate) with 300; lia|].
  split; [reflexivity|]. split; [reflexivity|].
  split; [|vm_compute; reflexivity].
  rewrite scan_window_spec. change (len frame_far_candidate) with 300. lia.
Qed.

(** C3 (amended): the offsets examined in a sampled dependent frame are
    exactly the [p] with
    [scan_start <= p < min(8*len(frame) - 17, scan_start + extra_bits)]
    ([extra_bits] is 2048 in [patch_file]): an offset leaves the key [p + 1]
    in the histogram if and only if it lies in that interval of a sampled
    dependent frame and passes the presence-bit and sentinel rules. *)
Theorem scan_window_examined samples extra_bits :
  (forall fr, In fr samples -> 6 <= len fr) ->
  exists ph,
    build_pos_hist samples extra_bits = Ok ph
    /\ forall k,
        In k (dict_keys ph)
        <-> exists fr info p,
            In fr samples /\ is_dependent fr = true
            /\ eac3_parse_positions fr = Ok info
            /\ scan_start info <= p
               < Z.min (len fr * 8 - 17) (scan_start info + extra_bits)
            /\ qualifies fr p = true /\ k = p + 1.
Proof.
  intros Hlen.
  destruct (build_pos_hist_keys samples extra_bits Hlen) as (ph & E & Hk).
  exists ph. split; [exact E|]. intros k. rewrite Hk. split.
  - intros (fr & p & Hin & Hdep & Hw & Hq & ->).
    exists fr, (mkPositions (bits_at fr 16 2) 45 50 51 (scan_start_of fr)), p.
    rewrite scan_window_spec in Hw.
    repeat (split; [assumption || apply eac3_parse_positions_eq || reflexivity|]).
    cbn [scan_start]. auto.
  - intros (fr & info & p & Hin & Hdep & Hinfo & Hw & Hq & ->).
    rewrite eac3_parse_positions_eq in Hinfo. injection Hinfo as <-.
    cbn [scan_start] in Hw.
    exists fr, p. rewrite scan_window_spec. auto.
Qed.

Lemma scan_window_examined_witness :
  exists ph,
    build_pos_hist [frame_late_candidate; frame_early_candidate] 2048 = Ok ph
    /\ forall k,
        In k (dict_keys ph)
        <-> exists fr info p,
            In fr [frame_late_candidate; frame_early_candidate]
            /\ is_dependent fr = true
            /\ eac3_parse_positions fr = Ok info
            /\ scan_start info <= p
               < Z.min (len fr * 8 - 17) (scan_start info + 2048)
            /\ qualifies fr p = true /\ k = p + 1.
Proof.
  apply (scan_window_examined [frame_late_candidate; frame_early_candidate] 2048).
  intros fr [<-|[<-|[]]]; vm_compute; discriminate.
Defined.

(** C6 (as stated, refuted): on the single sample [frame_one_candidate] the
    presence bit is found at offset 51 and the value 0x0010 after it, but the
    histogram key and the returned offset are 52, where the frame has a 0
    bit: the returned offset is where the value starts, not the flag. *)
Lemma chanmap_key_is_value_offset_counterexample :
  build_pos_hist [frame_one_candidate] 2048 = Ok [(52, [(0x0010, 1)])]
  /\ find_chanmap_bitpos [frame_one_candidate] 2048 = Ok (Some 52)
  /\ getbit frame_one_candidate 51 = Ok 1
  /\ getbits frame_one_candidate 52 16 = Ok 0x0010
  /\ ~ (exists fr, In fr [frame_one_candidate] /\ getbit fr 52 = Ok 1).
Proof.
  split; [vm_compute; reflexivity|]. split; [vm_compute; reflexivity|].
  split; [reflexivity|]. split; [reflexivity|].
  intros (fr & [<-|[]] & H). vm_compute in H. discriminate.
Qed.

(** C6 (amended): a qualifying value [v] found after a set presence bit at
    offset [p] is recorded under the key [p + 1], the offset of its first
    bit; on at most eight samples the returned offset [o] is a key whose
    exact score [top^2 / total] no other key exceeds; consequently some
    sampled dependent frame has a set bit at [o - 1], inside its scan
    window, and a 16-bit value other than 0x0000 and 0xFFFF starting at
    [o]. *)
Theorem chanmap_offset_is_value_start samples extra_bits o :
  (forall fr, In fr samples -> 6 <= len fr) ->
  len samples <= 8 ->
  find_chanmap_bitpos samples extra_bits = Ok (Some o) ->
  exists ph h,
    build_pos_hist samples extra_bits = Ok ph
    /\ (forall fr p,
           In fr samples -> is_dependent fr = true ->
           In p (scan_window fr (scan_start_of fr) extra_bits) ->
           qualifies fr p = true ->
           recorded ph (p + 1) (bits_at fr (p + 1) 16))
    /\ In (o, h) ph
    /\ (forall k' h', In (k', h') ph -> ~ exact_lt (hist_counts h) (hist_counts h'))
    /\ exists fr v,
        In fr samples /\ is_dependent fr = true
        /\ In (o - 1) (scan_window fr (scan_start_of fr) extra_bits)
        /\ getbit fr (o - 1) = Ok 1
        /\ getbits fr o 16 = Ok v /\ v <> 0x0000 /\ v <> 0xFFFF.
Proof.
  intros Hlen Hn Hfind.
  destruct (build_pos_hist_keys samples extra_bits Hlen) as (ph & E & Hk).
  pose proof (build_pos_hist_counts samples extra_bits Hlen ph E) as Hok.
  unfold find_chanmap_bitpos in Hfind. rewrite E in Hfind. cbn [bind] in Hfind.
  assert (Hne : ph <> []) by (intros ->; discriminate).
  assert (Hsel : select_best ph = Ok (Some o)) by (destruct ph; [congruence | exact Hfind]).
  destruct (select_best_first_max (len samples) Hn ph Hok Hne)
    as (l1 & o' & h & l2 & Eph & Hsel' & Hbefore & Hafter).
  rewrite Hsel in Hsel'. injection Hsel' as <-.
  exists ph, h. split; [exact E|].
  split; [now apply build_pos_hist_records|].
  assert (Hin : In (o, h) ph) by (rewrite Eph; apply in_or_app; right; now left).
  split; [exact Hin|]. split.
  - intros k' h' H'. rewrite Eph in H'. apply in_app_or in H'.
    destruct H' as [H'|[[= <- <-]|H']]; [|unfold exact_lt; destruct (hist_counts h); lia|eauto].
    specialize (Hbefore k' h' H'). unfold exact_lt in *.
    destruct (hist_counts h), (hist_counts h'). lia.
  - assert (Hkey : In o (dict_keys ph)).
    { unfold dict_keys. apply in_map_iff. now exists (o, h). }
    apply Hk in Hkey. destruct Hkey as (fr & p & Hfr & Hdep & Hw & Hq & ->).
    assert (Hp : 0 <= p).
    { apply scan_window_spec in Hw. pose proof (scan_start_of_cases fr). lia. }
    destruct (qualifies_spec fr p Hp Hq) as (Hbit & v & Hv & Hv0 & Hv1).
    exists fr, v. replace (p + 1 - 1) with p by lia. auto 10.
Qed.

Lemma chanmap_offset_is_value_start_witness :
  exists ph h,
    build_pos_hist [frame_one_candidate] 2048 = Ok ph
    /\ (forall fr p,
           In fr [frame_one_candidate] -> is_dependent fr = true ->
           In p (scan_window fr (scan_start_of fr) 2048) ->
           qualifies fr p = true ->
           recorded ph (p + 1) (bits_at fr (p + 1) 16))
    /\ In (52, h) ph
    /\ (forall k' h', In (k', h') ph -> ~ exact_lt (hist_counts h) (hist_counts h'))
    /\ exists fr v,
        In fr [frame_one_candidate] /\ is_dependent fr = true
        /\ In (52 - 1) (scan_window fr (scan_start_of fr) 2048)
        /\ getbit fr (52 - 1) = Ok 1
        /\ getbits fr 52 16 = Ok v /\ v <> 0x0000 /\ v <> 0xFFFF.
Proof.
  apply (chanmap_offset_is_value_start [frame_one_candidate] 2048 52).
  - intros fr [<-|[]]; vm_compute; discriminate.
  - vm_compute; discriminate.
  - vm_compute; reflexivity.
Defined.

Lemma dict_set_keys_order {V} (d : dict V) k x :
  dict_keys (dict_set d k x) = note_key (dict_keys d) k.
Proof.
  unfold note_key, dict_keys. induction d as [|[k' v'] d IH]; simpl; [reflexivity|].
  rewrite (Z.eqb_sym k k').
  destruct (Z.eqb_spec k' k) as [->|Hne]; simpl; [reflexivity|].
  rewrite IH. now destruct (existsb _ _).
Qed.

Lemma scan_fold_keys_order fr ps ph :
  dict_keys (fold_left (scan_step fr) ps ph)
  = fold_left note_key (map (fun p => p + 1) (filter (qualifies fr) ps))
              (dict_keys ph).
Proof.
  revert ph; induction ps as [|p ps IH]; intros ph; simpl; [reflexivity|].
  rewrite IH. unfold scan_step. destruct (qualifies fr p); simpl; [|reflexivity].
  unfold record_value. now rewrite dict_set_keys_order.
Qed.

(** The insertion order of the histogram built from [samples]. *)
Lemma build_pos_hist_order samples extra ph :
  (forall fr, In fr samples -> 6 <= len fr) ->
  build_pos_hist samples extra = Ok ph ->
  dict_keys ph = first_seen (qualifying_keys samples extra).
Proof.
  unfold build_pos_hist, first_seen.
  change (@nil Z) with (dict_keys (@nil (Z * dict Z))).
  generalize (@nil (Z * dict Z)) as ph0.
  induction samples as [|fr samples IH]; intros ph0 Hlen E.
  - injection E as <-. reflexivity.
  - cbn [for_each] in E. rewrite scan_frame_eq in E by (apply Hlen; now left).
    cbn [bind] in E. apply IH in E; [|intros; apply Hlen; now right].
    rewrite E. cbn [qualifying_keys flat_map]. rewrite fold_left_app.
    fold (qualifying_keys samples extra). f_equal.
    destruct (is_dependent fr); [apply scan_fold_keys_order | reflexivity].
Qed.

(** C7 (as stated, refuted): sampling [frame_late_candidate] before
    [frame_early_candidate] gives the keys 71 and 61 one count each, hence
    equal scores, and the detector (and [patch_file]) returns 71, the key
    inserted first, not the smaller 61. *)
Lemma tie_not_smallest_counterexample :
  build_pos_hist [frame_late_candidate; frame_early_candidate] 2048
  = Ok [(71, [(0x0040, 1)]); (61, [(0x0010, 1)])]
  /\ hist_counts [(0x0040, 1)] = hist_counts [(0x0010, 1)]
  /\ find_chanmap_bitpos [frame_late_candidate; frame_early_candidate] 2048
     = Ok (Some 71)
  /\ 61 < 71
  /\ exists out st,
      patch_file (frame_late_candidate ++ frame_early_candidate)
      = Some (Opened out, Ok (71, st)).
Proof.
  split; [vm_compute; reflexivity|]. split; [reflexivity|].
  split; [vm_compute; reflexivity|]. split; [lia|].
  eexists _, _. vm_compute. reflexivity.
Qed.

(** C7 (amended): on at most eight samples, whenever several offsets attain
    the maximal score the one returned is the first of them in the
    histogram's insertion order, which is the order in which the offsets
    [p + 1] first qualify as the samples are scanned one after the other,
    each by ascending offset; every key inserted before it scores strictly
    less, no key inserted after it scores more. *)
Theorem tie_resolves_to_first_inserted samples extra_bits ph :
  (forall fr, In fr samples -> 6 <= len fr) ->
  len samples <= 8 ->
  build_pos_hist samples extra_bits = Ok ph ->
  ph <> [] ->
  dict_keys ph = first_seen (qualifying_keys samples extra_bits)
  /\ exists l1 o h l2,
      ph = l1 ++ (o, h) :: l2
      /\ find_chanmap_bitpos samples extra_bits = Ok (Some o)
      /\ (forall k' h', In (k', h') l1 -> exact_lt (hist_counts h') (hist_counts h))
      /\ (forall k' h', In (k', h') l2 -> ~ exact_lt (hist_counts h) (hist_counts h')).
Proof.
  intros Hlen Hn E Hne. split; [now apply build_pos_hist_order|].
  pose proof (build_pos_hist_counts samples extra_bits Hlen ph E) as Hok.
  destruct (select_best_first_max (len samples) Hn ph Hok Hne)
    as (l1 & o & h & l2 & Eph & Hsel & Hbefore & Hafter).
  exists l1, o, h, l2. split; [exact Eph|]. split; [|auto].
  unfold find_chanmap_bitpos. rewrite E. cbn [bind].
  destruct ph; [congruence | exact Hsel].
Qed.

Lemma tie_resolves_to_first_inserted_witness :
  dict_keys [(71, [(0x0040, 1)]); (61, [(0x0010, 1)])]
  = first_seen (qualifying_keys [frame_late_candidate; frame_early_candidate] 2048)
  /\ exists l1 o h l2,
      [(71, [(0x0040, 1)]); (61, [(0x0010, 1)])] = l1 ++ (o, h) :: l2
      /\ find_chanmap_bitpos [frame_late_candidate; frame_early_candidate] 2048
         = Ok (Some o)
      /\ (forall k' h', In (k', h') l1 -> exact_lt (hist_counts h') (hist_counts h))
      /\ (forall k' h', In (k', h') l2 -> ~ exact_lt (hist_counts h) (hist_counts h')).
Proof.
  apply (tie_resolves_to_first_inserted
           [frame_late_candidate; frame_early_candidate] 2048).
  - intros fr [<-|[<-|[]]]; vm_compute; discriminate.
  - vm_compute; discriminate.
  - vm_compute; reflexivity.
  - discriminate.
Defined.

(** ** The frame reader: what a successful read delivers *)

Lemma py_getitem_In {A} (l : list A) i x : py_getitem l i = Ok x -> In x l.
Proof.
  unfold py_getitem. destruct (_ && _); [|discriminate].
  destruct (nth_error l _) eqn:E; [|discriminate].
  intros [= <-]. eapply nth_error_In; eauto.
Qed.

Lemma frame_size_ok b2 b3 b4 b5 n kind :
  frame_size b2 b3 b4 b5 = Ok (n, kind) ->
  10 <= n
  /\ ((kind = "ac3" /\ Z.shiftr b5 3 < 10) \/ (kind = "eac3" /\ 10 <= Z.shiftr b5 3)).
Proof.
  unfold frame_size. destruct (Z.ltb_spec (Z.shiftr b5 3) 10) as [Hb|Hb].
  - destruct (py_getitem fsizetable b4) as [entry|e] eqn:E; cbn [bind]; [|discriminate].
    apply py_getitem_In, fsizetable_entries in E.
    destruct (Z.eqb_spec (entry * 2) 0); [discriminate|].
    intros [= <- <-]. split; [lia | left; auto].
  - destruct (Z.ltb_spec ((256 * Z.land b2 7 + b3) * 2 + 2) 10); [discriminate|].
    intros E. assert (En : (256 * Z.land b2 7 + b3) * 2 + 2 = n) by congruence.
    assert (Ek : "eac3" = kind) by congruence.
    split; [lia | right; auto].
Qed.

Lemma read_frame_short s :
  s <> [] -> (length s < 6)%nat ->
  read_frame s = Raise (PatchError "Unexpected EOF (short header)").
Proof.
  intros Hne Hlen.
  destruct s as [|b0 [|b1 [|b2 [|b3 [|b4 [|b5 s]]]]]]; try congruence;
    try reflexivity.
  simpl in Hlen. lia.
Qed.

Lemma read_exact_complete rest n tail fin :
  0 <= n -> read_exact rest n = (tail, fin) -> len tail = n -> rest = tail ++ fin.
Proof.
  intros Hn E Hl. unfold read_exact in E.
  replace (n <? 0) with false in E by (symmetry; zbool).
  injection E as <- <-. symmetry. apply firstn_skipn.
Qed.

Lemma read_exact_app tail fin :
  read_exact (tail ++ fin) (len tail) = (tail, fin).
Proof.
  unfold read_exact, len.
  replace (Z.of_nat (length tail) <? 0) with false by (symmetry; zbool).
  rewrite Nat2Z.id, firstn_app, skipn_app, Nat.sub_diag, firstn_all, skipn_all.
  simpl. now rewrite app_nil_r.
Qed.

(** A read that does not raise either reports the clean end of an exhausted
    stream or splits a complete frame off the front of the stream. *)
Lemma read_frame_ok s fr frlen eof kind s' :
  read_frame s = Ok ((fr, frlen, eof, kind), s') ->
  (eof = true /\ fr = None /\ s = [] /\ s' = [])
  \/ (eof = false
      /\ exists f, fr = Some f /\ s = f ++ s' /\ frlen = len f /\ is_frame f kind).
Proof.
  intros E.
  destruct s as [|b0 [|b1 [|b2 [|b3 [|b4 [|b5 rest]]]]]]; try discriminate E.
  - left. rewrite read_frame_nil in E. injection E as <- <- <- <- <-. auto.
  - right. rewrite read_frame_header in E.
    destruct (Z.eqb_spec b0 11) as [->|]; [|discriminate].
    destruct (Z.eqb_spec b1 119) as [->|]; [|discriminate].
    cbn [negb orb] in E.
    destruct (frame_size b2 b3 b4 b5) as [[n k]|e] eqn:Es; [|discriminate].
    cbn [bind] in E.
    destruct (read_exact rest (n - 6)) as [tail fin] eqn:Er.
    destruct (Z.eqb_spec (len tail) (n - 6)) as [Hl|]; [|discriminate].
    cbn [negb] in E. injection E as <- <- <- <- <-.
    destruct (frame_size_ok _ _ _ _ _ _ Es) as [Hn _].
    apply read_exact_complete in Er; [|lia|exact Hl]. subst rest.
    split; [reflexivity|]. eexists. split; [reflexivity|].
    assert (Hlen : len ([11; 119; b2; b3; b4; b5] ++ tail) = n).
    { unfold len in *. rewrite length_app. simpl length. lia. }
    split; [reflexivity|]. split; [now symmetry|].
    exists b2, b3, b4, b5, tail. split; [reflexivity|].
    simpl app in Hlen. cbn [app]. now rewrite Hlen.
Qed.

(** Conversely a complete frame at the front of a stream is what the next
    read delivers. *)
Lemma read_frame_is_frame f kind s' :
  is_frame f kind -> read_frame (f ++ s') = Ok ((Some f, len f, false, kind), s').
Proof.
  intros (b2 & b3 & b4 & b5 & tail & -> & Es).
  cbn [app]. rewrite read_frame_header. cbn [Z.eqb Pos.eqb negb orb].
  rewrite Es. cbn [bind].
  replace (len (11 :: 119 :: b2 :: b3 :: b4 :: b5 :: tail) - 6) with (len tail)
    by (unfold len; simpl length; lia).
  rewrite read_exact_app, Z.eqb_refl. reflexivity.
Qed.

Lemma is_frame_facts f kind :
  is_frame f kind ->
  10 <= len f
  /\ ((kind = "ac3" /\ Z.shiftr (nth 5 f 0) 3 < 10)
      \/ (kind = "eac3" /\ 10 <= Z.shiftr (nth 5 f 0) 3)).
Proof.
  intros (b2 & b3 & b4 & b5 & tail & -> & Es).
  apply frame_size_ok in Es. exact Es.
Qed.

(** ** The discovery phase *)

Lemma discover_loop_samples fuel fin samples r :
  discover_loop fuel fin samples = Some (Ok r) ->
  (forall fr, In fr samples -> 10 <= len fr /\ is_dependent fr = true) ->
  len samples <= 8 ->
  (forall fr, In fr r -> 10 <= len fr /\ is_dependent fr = true) /\ len r <= 8.
Proof.
  revert fin samples. induction fuel as [|fuel IH]; intros fin samples E Hs Hn;
    [discriminate|].
  cbn [discover_loop] in E.
  destruct (Z.ltb_spec (len samples) 8) as [Hlt|Hge];
    [|injection E as <-; auto].
  destruct (read_frame fin) as [[[[[fr frlen] eof] kind] fin']|e] eqn:Er;
    [|discriminate].
  destruct (read_frame_ok _ _ _ _ _ _ Er)
    as [(-> & _)|(-> & f & -> & _ & _ & Hf)]; [injection E as <-; auto|].
  destruct (is_frame_facts f kind Hf) as [Hlen [[-> Hb]|[-> Hb]]].
  - change ("ac3" =? "eac3")%string with false in E. exact (IH _ _ E Hs Hn).
  - change ("eac3" =? "eac3")%string with true in E.
    rewrite eac3_parse_positions_eq in E. cbn [strmtype] in E.
    destruct (Z.eqb_spec (bits_at f 16 2) 1) as [Hd|Hd];
      [|exact (IH _ _ E Hs Hn)].
    apply IH in E; [exact E| |].
    + intros fr Hin. apply in_app_or in Hin. destruct Hin as [Hin|[<-|[]]]; [auto|].
      split; [exact Hlen|]. unfold is_dependent. rewrite Hd.
      replace (Z.shiftr (nth 5 f 0) 3 <? 10) with false by (symmetry; zbool).
      reflexivity.
    + unfold len in *. rewrite length_app. simpl length. lia.
Qed.

Lemma discover_loop_total fuel fin samples :
  (length fin < fuel)%nat -> discover_loop fuel fin samples <> None.
Proof.
  revert fin samples. induction fuel as [|fuel IH]; intros fin samples Hfuel; [lia|].
  cbn [discover_loop]. destruct (len samples <? 8); [|discriminate].
  destruct (read_frame fin) as [[[[[fr frlen] eof] kind] fin']|e] eqn:Er;
    [|discriminate].
  destruct (read_frame_ok _ _ _ _ _ _ Er)
    as [(-> & _)|(-> & f & -> & -> & _ & Hf)]; [discriminate|].
  destruct (is_frame_facts f kind Hf) as [Hlen _].
  assert (Hsmaller : (length fin' < fuel)%nat).
  { rewrite length_app in Hfuel. unfold len in Hlen. lia. }
  destruct (kind =? "eac3")%string; [|now apply IH].
  rewrite eac3_parse_positions_eq. cbn [strmtype].
  destruct (_ =? 1); now apply IH.
Qed.

Lemma discover_samples input samples :
  discover input = Some (Ok samples) ->
  (forall fr, In fr samples -> 10 <= len fr /\ is_dependent fr = true)
  /\ len samples <= 8.
Proof.
  intros E. apply (discover_loop_samples _ _ _ _ E).
  - intros fr [].
  - unfold len; simpl; lia.
Qed.

(** ** Detection failure *)

Lemma find_chanmap_bitpos_result samples extra ph :
  (forall fr, In fr samples -> 6 <= len fr) ->
  len samples <= 8 ->
  build_pos_hist samples extra = Ok ph ->
  (ph = [] /\ find_chanmap_bitpos samples extra = Ok None)
  \/ (ph <> [] /\ exists o, find_chanmap_bitpos samples extra = Ok (Some o)).
Proof.
  intros Hlen Hn E. destruct ph as [|item ph].
  - left. split; [reflexivity|]. unfold find_chanmap_bitpos. now rewrite E.
  - right. split; [discriminate|].
    pose proof (build_pos_hist_counts samples extra Hlen _ E) as Hok.
    destruct (select_best_first_max (len samples) Hn (item :: ph) Hok)
      as (l1 & o & h & l2 & _ & Hsel & _); [discriminate|].
    exists o. unfold find_chanmap_bitpos. rewrite E. exact Hsel.
Qed.

(** C8: on the samples the discovery phase collects, detection fails (returns
    [None]) if and only if the histogram is empty, that is if and only if no
    offset in the scan window of any sampled frame (all are dependent; there
    may be none) holds a qualifying presence-bit-plus-value pattern;
    otherwise it returns an offset.  On that failure [patch_file] raises
    before the output file is opened, so nothing is written. *)
Theorem detection_fails_iff_histogram_empty input samples :
  discover input = Some (Ok samples) ->
  exists ph,
    build_pos_hist samples 2048 = Ok ph
    /\ (find_chanmap_bitpos samples 2048 = Ok None <-> ph = [])
    /\ (ph = []
        <-> forall fr p,
            In fr samples -> In p (scan_window fr (scan_start_of fr) 2048) ->
            qualifies fr p = false)
    /\ (find_chanmap_bitpos samples 2048 = Ok None
        \/ exists o, find_chanmap_bitpos samples 2048 = Ok (Some o))
    /\ (find_chanmap_bitpos samples 2048 = Ok None ->
        patch_file input
        = Some (Unopened,
                Raise (PatchError
                  "Could not detect the chanmap location in dependent E-AC-3 frames."))).
Proof.
  intros Hdisc. destruct (discover_samples input samples Hdisc) as [Hs Hn].
  assert (Hlen : forall fr, In fr samples -> 6 <= len fr).
  { intros fr Hin. destruct (Hs fr Hin). lia. }
  destruct (build_pos_hist_keys samples 2048 Hlen) as (ph & E & Hk).
  exists ph. split; [exact E|].
  destruct (find_chanmap_bitpos_result samples 2048 ph Hlen Hn E)
    as [[Hph Hfind]|[Hph [o Hfind]]].
  - split; [rewrite Hfind; tauto|]. split; [|split].
    + split; [|auto]. intros _ fr p Hin Hw.
      destruct (qualifies fr p) eqn:Hq; [|reflexivity].
      assert (Hkey : In (p + 1) (dict_keys ph)).
      { apply Hk. exists fr, p. destruct (Hs fr Hin). auto. }
      rewrite Hph in Hkey. destruct Hkey.
    + now left.
    + intros _. unfold patch_file. now rewrite Hdisc, Hfind.
  - split; [rewrite Hfind; split; [discriminate | congruence]|].
    split; [|split].
    + split; [congruence|]. intros Hnone. exfalso.
      destruct ph as [|[k h] ph]; [congruence|].
      assert (Hkey : In k (dict_keys ((k, h) :: ph))) by now left.
      apply Hk in Hkey. destruct Hkey as (fr & p & Hin & _ & Hw & Hq & _).
      rewrite (Hnone fr p Hin Hw) in Hq. discriminate.
    + right. eauto.
    + rewrite Hfind. discriminate.
Qed.

Lemma detection_fails_iff_histogram_empty_witness :
  exists ph,
    build_pos_hist [frame_far_candidate] 2048 = Ok ph
    /\ (find_chanmap_bitpos [frame_far_candidate] 2048 = Ok None <-> ph = [])
    /\ (ph = []
        <-> forall fr p,
            In fr [frame_far_candidate] ->
            In p (scan_window fr (scan_start_of fr) 2048) ->
            qualifies fr p = false)
    /\ (find_chanmap_bitpos [frame_far_candidate] 2048 = Ok None
        \/ exists o, find_chanmap_bitpos [frame_far_candidate] 2048 = Ok (Some o))
    /\ (find_chanmap_bitpos [frame_far_candidate] 2048 = Ok None ->
        patch_file frame_far_candidate
        = Some (Unopened,
                Raise (PatchError
                  "Could not detect the chanmap location in dependent E-AC-3 frames."))).
Proof.
  apply (detection_fails_iff_histogram_empty frame_far_candidate
           [frame_far_candidate]).
  vm_compute. reflexivity.
Defined.

(** ** The patch pass: one frame *)

Lemma crc_fix_eq fr :
  6 <= len fr -> eac3_rewrite_crc2_like_c fr (len fr) = Ok (crc_fix fr).
Proof.
  intros HL. unfold eac3_rewrite_crc2_like_c, crc_fix.
  replace (len fr <? 6) with false by (symmetry; zbool).
  rewrite py_setitem_inrange by lia. cbn [bind].
  now rewrite py_setitem_inrange by (rewrite len_update; lia).
Qed.

(** Writes never change the length of a buffer. *)
Create Rewrite HintDb lens.
#[local] Hint Rewrite @len_update len_put_bit len_put_bits : lens.

Lemma len_crc_fix fr : len (crc_fix fr) = len fr.
Proof. unfold crc_fix. now autorewrite with lens. Qed.

Lemma len_patched_fields cp fr : len (patched_fields cp fr) = len fr.
Proof.
  unfold patched_fields. destruct (_ =? 1); now autorewrite with lens.
Qed.

#[local] Hint Rewrite len_crc_fix len_patched_fields : lens.

Lemma len_patched_frame cp fr : len (patched_frame cp fr) = len fr.
Proof. unfold patched_frame. now autorewrite with lens. Qed.

Lemma patch_eac3_eq cp fr n :
  0 <= cp -> 6 <= len fr ->
  patch_eac3 cp fr (len fr) n = Ok (patched_frame cp fr, n + 1).
Proof.
  intros Hcp HL. unfold patch_eac3.
  rewrite eac3_parse_positions_eq.
  cbn [bind compre_pos compr_pos strmtype].
  rewrite setbits_nonneg by lia. cbn [bind].
  rewrite setbits_nonneg by lia. cbn [bind].
  unfold patched_frame, patched_fields.
  destruct (bits_at fr 16 2 =? 1).
  - rewrite setbits_nonneg by lia. cbn [bind].
    rewrite <- (len_put_bits _ 50 1 1), <- (len_put_bits _ 51 8 255),
      <- (len_put_bits _ cp 16 DEFAULT_CHANMAP) in HL |- * at 1.
    now rewrite crc_fix_eq.
  - cbn [bind].
    rewrite <- (len_put_bits _ 50 1 1), <- (len_put_bits _ 51 8 255) in HL |- * at 1.
    now rewrite crc_fix_eq.
Qed.

(** ** The patch pass: the loop *)

Lemma add_counts_nil st : add_counts st [] = st.
Proof.
  destruct st. unfold add_counts, len. simpl. f_equal; lia.
Qed.

Lemma add_counts_cons st f kind fs :
  add_counts st ((f, kind) :: fs)
  = add_counts
      (if (kind =? "ac3")%string
       then mkStats (total_frames st + 1) (ac3_count st + 1) (eac3_count st)
                    (patched_eac3 st)
       else mkStats (total_frames st + 1) (ac3_count st) (eac3_count st + 1)
                    (patched_eac3 st + 1))
      fs.
Proof.
  unfold add_counts, is_ac3, len. cbn [filter snd].
  destruct (kind =? "ac3")%string; cbn [negb total_frames ac3_count eac3_count
                                       patched_eac3 length];
    f_equal; lia.
Qed.

Lemma reads_frames_functional fin fs1 fs2 :
  reads_frames fin fs1 -> reads_frames fin fs2 -> fs1 = fs2.
Proof.
  intros H1. revert fs2. induction H1 as [fin fr frlen kind fin' E|
                                          fin f frlen kind fin' fs E H1 IH];
    intros fs2 H2; inversion H2; subst; try congruence.
  assert (Some f = Some f0 /\ kind = kind0 /\ fin' = fin'0) as (Ef & -> & ->)
    by (split; [|split]; congruence).
  injection Ef as ->. f_equal. now apply IH.
Qed.

Lemma reads_frames_concat fin fs : reads_frames fin fs -> fin = concat (map fst fs).
Proof.
  induction 1 as [fin fr frlen kind fin' E|fin f frlen kind fin' fs E H1 IH].
  - destruct (read_frame_ok _ _ _ _ _ _ E) as [(_ & _ & -> & _)|(? & _)];
      [reflexivity | discriminate].
  - destruct (read_frame_ok _ _ _ _ _ _ E) as [(? & _)|(_ & f' & Ef & -> & _)];
      [discriminate|].
    injection Ef as <-. cbn [map fst concat]. now rewrite <- IH.
Qed.

Lemma reads_frames_is_frame fin fs :
  reads_frames fin fs -> forall f kind, In (f, kind) fs -> is_frame f kind.
Proof.
  induction 1 as [fin fr frlen kind fin' E|fin f frlen kind fin' fs E H1 IH];
    intros g k Hin; [destruct Hin|].
  destruct Hin as [[= <- <-]|Hin]; [|eauto].
  destruct (read_frame_ok _ _ _ _ _ _ E) as [(? & _)|(_ & f' & Ef & _ & _ & Hf)];
    [discriminate|].
  now injection Ef as <-.
Qed.

(** A run of the patch loop that ends normally has read the stream as a
    sequence of frames and written the output frame of each, in order. *)
Lemma patch_loop_forward fuel cp fin fout st out st' :
  0 <= cp ->
  patch_loop fuel cp fin fout st = Some (out, Ok st') ->
  exists fs,
    reads_frames fin fs
    /\ out = fout ++ concat (map (output_frame cp) fs)
    /\ st' = add_counts st fs.
Proof.
  intros Hcp. revert fin fout st.
  induction fuel as [|fuel IH]; intros fin fout st E; [discriminate|].
  cbn [patch_loop] in E.
  destruct (read_frame fin) as [[[[[fr frlen] eof] kind] fin']|e] eqn:Er;
    [|discriminate].
  destruct (read_frame_ok _ _ _ _ _ _ Er)
    as [(-> & _)|(-> & f & -> & -> & -> & Hf)].
  - injection E as <- <-. exists []. split; [eapply reads_eof; eauto|].
    simpl. now rewrite app_nil_r, add_counts_nil.
  - destruct (is_frame_facts f kind Hf) as [Hlen _].
    assert (Hcons : forall fs,
               reads_frames fin' fs -> reads_frames (f ++ fin') ((f, kind) :: fs))
      by (intros fs Hfs; eapply reads_cons; eauto).
    destruct (kind =? "ac3")%string eqn:Ek.
    + apply IH in E. destruct E as (fs & Hfs & -> & ->).
      exists ((f, kind) :: fs). split; [auto|].
      rewrite add_counts_cons. cbn [map concat output_frame].
      now rewrite Ek, app_assoc.
    + rewrite patch_eac3_eq in E by lia.
      apply IH in E. destruct E as (fs & Hfs & -> & ->).
      exists ((f, kind) :: fs). split; [auto|].
      rewrite add_counts_cons. cbn [map concat output_frame].
      now rewrite Ek, app_assoc.
Qed.

Lemma patch_loop_backward fuel cp fin fs fout st :
  0 <= cp ->
  reads_frames fin fs ->
  (length fs < fuel)%nat ->
  patch_loop fuel cp fin fout st
  = Some (fout ++ concat (map (output_frame cp) fs), Ok (add_counts st fs)).
Proof.
  intros Hcp Hfs. revert fuel fout st.
  induction Hfs as [fin fr frlen kind fin' E|fin f frlen kind fin' fs E H1 IH];
    intros fuel fout st Hfuel; (destruct fuel as [|fuel]; [simpl in Hfuel; lia|]);
    cbn [patch_loop]; rewrite E.
  - simpl. now rewrite app_nil_r, add_counts_nil.
  - destruct (read_frame_ok _ _ _ _ _ _ E) as [(? & _)|(_ & f' & Ef & _ & -> & Hf)];
      [discriminate|]. injection Ef as <-.
    destruct (is_frame_facts f kind Hf) as [Hlen _].
    rewrite add_counts_cons. cbn [map concat output_frame]. rewrite app_assoc.
    simpl in Hfuel.
    destruct (kind =? "ac3")%string; [apply IH; lia|].
    rewrite patch_eac3_eq by lia. apply IH. lia.
Qed.

Lemma patch_loop_total fuel cp fin fout st :
  0 <= cp -> (length fin < fuel)%nat -> patch_loop fuel cp fin fout st <> None.
Proof.
  intros Hcp. revert fin fout st.
  induction fuel as [|fuel IH]; intros fin fout st Hfuel; [lia|].
  cbn [patch_loop].
  destruct (read_frame fin) as [[[[[fr frlen] eof] kind] fin']|e] eqn:Er;
    [|discriminate].
  destruct (read_frame_ok _ _ _ _ _ _ Er)
    as [(-> & _)|(-> & f & -> & -> & -> & Hf)]; [discriminate|].
  destruct (is_frame_facts f kind Hf) as [Hlen _].
  assert (Hsmaller : (length fin' < fuel)%nat).
  { rewrite length_app in Hfuel. unfold len in Hlen. lia. }
  destruct (kind =? "ac3")%string; [now apply IH|].
  rewrite patch_eac3_eq by lia. now apply IH.
Qed.

(** ** The patch pass: what a patched frame keeps *)

Lemma fold_put_bit_nth (g : Z -> Z) pos ixs buf i :
  0 <= pos ->
  (forall j, In j ixs -> 0 <= j /\ i <> Z.to_nat ((pos + j) / 8)) ->
  nth i (fold_left (fun b j => put_bit b (g j) (pos + j)) ixs buf) 0 = nth i buf 0.
Proof.
  intros Hpos. revert buf. induction ixs as [|j ixs IH]; intros buf H; simpl;
    [reflexivity|].
  rewrite IH by (intros; apply H; now right).
  destruct (H j (or_introl eq_refl)).
  apply nth_put_bit_other; [lia | assumption].
Qed.

Lemma nth_put_bits_outside buf pos n v i :
  0 <= pos ->
  Z.of_nat i < pos / 8 \/ (pos + n - 1) / 8 < Z.of_nat i ->
  nth i (put_bits buf pos n v) 0 = nth i buf 0.
Proof.
  intros Hpos Hi. unfold put_bits.
  apply (fold_put_bit_nth
           (fun j => if truthy (Z.land v (Z.shiftl 1 (n - 1 - j))) then 1 else 0));
    [exact Hpos|].
  intros j Hj. apply in_py_range in Hj. split; [lia|].
  assert (pos / 8 <= (pos + j) / 8) by (apply Z.div_le_mono; lia).
  assert ((pos + j) / 8 <= (pos + n - 1) / 8) by (apply Z.div_le_mono; lia).
  assert (0 <= pos / 8) by (apply Z.div_pos; lia).
  lia.
Qed.

Lemma nth_crc_fix fr i :
  Z.of_nat i < len fr - 2 -> nth i (crc_fix fr) 0 = nth i fr 0.
Proof.
  intros Hi. unfold crc_fix. rewrite !nth_update_other by lia. reflexivity.
Qed.

Lemma bit_at_crc_fix fr q :
  0 <= q < 8 * (len fr - 2) -> bit_at (crc_fix fr) q = bit_at fr q.
Proof.
  intros Hq. unfold bit_at. rewrite nth_crc_fix; [reflexivity|].
  assert (q / 8 < len fr - 2) by (apply Z.div_lt_upper_bound; lia).
  assert (0 <= q / 8) by (apply Z.div_pos; lia). lia.
Qed.

(** Every bit of a frame after the field writes. *)
Lemma bit_at_patched_fields cp fr q :
  0 <= cp -> 0 <= q ->
  bit_at (patched_fields cp fr) q
  = if (bits_at fr 16 2 =? 1) && (cp <=? q) && (q <? cp + 16) && (q <? 8 * len fr)
    then Z.b2z (Z.testbit DEFAULT_CHANMAP (15 - (q - cp)))
    else if (50 <=? q) && (q <? 59) && (q <? 8 * len fr) then 1
         else bit_at fr q.
Proof.
  intros Hcp Hq. unfold patched_fields.
  assert (Hfield :
            bit_at (put_bits (put_bits fr 50 1 1) 51 8 255) q
            = if (50 <=? q) && (q <? 59) && (q <? 8 * len fr) then 1
              else bit_at fr q).
  { rewrite !bit_at_put_bits, !len_put_bits by lia.
    destruct (Z.leb_spec 51 q); cbn [andb].
    - destruct (Z.ltb_spec q (51 + 8)); cbn [andb]; [|zbool].
      destruct (Z.ltb_spec q (8 * len fr)); [|zbool].
      rewrite testbit_255 by lia. zbool.
    - destruct (Z.leb_spec 50 q); cbn [andb]; [|zbool].
      replace q with 50 by lia.
      destruct (Z.ltb_spec 50 (8 * len fr)); reflexivity. }
  destruct (bits_at fr 16 2 =? 1); cbn [andb]; [|exact Hfield].
  rewrite bit_at_put_bits, !len_put_bits, Hfield by lia.
  change (16 - 1 - (q - cp)) with (15 - (q - cp)). reflexivity.
Qed.

Lemma nth_patched_frame_low cp fr i :
  0 <= cp -> Z.of_nat i < len fr - 2 -> Z.of_nat i < 6 -> Z.of_nat i < cp / 8 ->
  nth i (patched_frame cp fr) 0 = nth i fr 0.
Proof.
  intros Hcp HL Hi Hcpi. unfold patched_frame.
  rewrite nth_crc_fix by (rewrite len_patched_fields; lia).
  unfold patched_fields.
  assert (E : nth i (put_bits (put_bits fr 50 1 1) 51 8 255) 0 = nth i fr 0).
  { rewrite !nth_put_bits_outside; try lia; try reflexivity.
    - left. change (50 / 8) with 6. lia.
    - left. change (51 / 8) with 6. lia. }
  destruct (_ =? 1); [|exact E].
  rewrite nth_put_bits_outside by (try lia; left; lia). exact E.
Qed.

Lemma same_header b0 b1 b2 b3 b4 b5 (tail g : list Z) :
  length g = length (b0 :: b1 :: b2 :: b3 :: b4 :: b5 :: tail) ->
  (forall i, (i < 6)%nat ->
             nth i g 0 = nth i (b0 :: b1 :: b2 :: b3 :: b4 :: b5 :: tail) 0) ->
  exists tail', g = b0 :: b1 :: b2 :: b3 :: b4 :: b5 :: tail'.
Proof.
  intros Hlen Hnth.
  destruct g as [|c0 [|c1 [|c2 [|c3 [|c4 [|c5 tail']]]]]]; try discriminate Hlen.
  exists tail'.
  pose proof (Hnth 0%nat ltac:(lia)) as E0. pose proof (Hnth 1%nat ltac:(lia)) as E1.
  pose proof (Hnth 2%nat ltac:(lia)) as E2. pose proof (Hnth 3%nat ltac:(lia)) as E3.
  pose proof (Hnth 4%nat ltac:(lia)) as E4. pose proof (Hnth 5%nat ltac:(lia)) as E5.
  simpl in *. congruence.
Qed.

(** Patching keeps a frame a frame of the same kind: the header bytes and
    the length are untouched. *)
Lemma output_frame_is_frame cp f kind :
  48 <= cp -> is_frame f kind -> is_frame (output_frame cp (f, kind)) kind.
Proof.
  intros Hcp Hf. cbn [output_frame].
  destruct (kind =? "ac3")%string; [exact Hf|].
  destruct (is_frame_facts f kind Hf) as [HL _].
  destruct Hf as (b2 & b3 & b4 & b5 & tail & Ef & Es).
  assert (Hlen : len (patched_frame cp f) = len f) by apply len_patched_frame.
  destruct (same_header 11 119 b2 b3 b4 b5 tail (patched_frame cp f)) as [tail' E].
  - rewrite <- Ef. unfold len in Hlen. lia.
  - intros i Hi. rewrite <- Ef. apply nth_patched_frame_low; try lia.
    assert (6 <= cp / 8) by (apply Z.div_le_lower_bound; lia). lia.
  - exists b2, b3, b4, b5, tail'. split; [exact E|]. now rewrite Hlen.
Qed.

Lemma reads_frames_of_frames fs :
  (forall f kind, In (f, kind) fs -> is_frame f kind) ->
  reads_frames (concat (map fst fs)) fs.
Proof.
  induction fs as [|[f kind] fs IH]; intros H.
  - eapply reads_eof. apply read_frame_nil.
  - cbn [map fst concat]. eapply reads_cons.
    + apply read_frame_is_frame. apply H. now left.
    + apply IH. intros; apply H; now right.
Qed.

Lemma patch_file_ok input out cp st :
  patch_file input = Some (Opened out, Ok (cp, st)) ->
  exists samples,
    discover input = Some (Ok samples)
    /\ find_chanmap_bitpos samples 2048 = Ok (Some cp)
    /\ patch_loop (S (length input)) cp input [] (mkStats 0 0 0 0)
       = Some (out, Ok st).
Proof.
  unfold patch_file. intros E.
  destruct (discover input) as [[samples|e]|]; try discriminate.
  exists samples. split; [reflexivity|].
  destruct (find_chanmap_bitpos samples 2048) as [[o|]|e]; try discriminate.
  destruct (patch_loop _ o _ _ _) as [[written [st0|e]]|] eqn:El; try discriminate.
  injection E as <- <- <-. auto.
Qed.

(** A detected offset is at least 52: it is one past an offset of a scan
    window, and scan windows start at 51 or 59. *)
Lemma detected_offset_bound input samples cp :
  discover input = Some (Ok samples) ->
  find_chanmap_bitpos samples 2048 = Ok (Some cp) ->
  52 <= cp.
Proof.
  intros Hdisc Hfind. destruct (discover_samples input samples Hdisc) as [Hs Hn].
  assert (Hlen : forall fr, In fr samples -> 6 <= len fr).
  { intros fr Hin. destruct (Hs fr Hin). lia. }
  destruct (build_pos_hist_keys samples 2048 Hlen) as (ph & E & Hk).
  pose proof (build_pos_hist_counts samples 2048 Hlen ph E) as Hok.
  unfold find_chanmap_bitpos in Hfind. rewrite E in Hfind. cbn [bind] in Hfind.
  destruct ph as [|item ph]; [discriminate|].
  destruct (select_best_first_max (len samples) Hn (item :: ph) Hok)
    as (l1 & o & h & l2 & Eph & Hsel & _); [discriminate|].
  rewrite Hsel in Hfind. injection Hfind as ->.
  assert (Hkey : In cp (dict_keys (item :: ph))).
  { rewrite Eph. unfold dict_keys. rewrite map_app. apply in_or_app.
    right. now left. }
  apply Hk in Hkey. destruct Hkey as (fr & p & _ & _ & Hw & _ & ->).
  apply scan_window_spec in Hw. pose proof (scan_start_of_cases fr). lia.
Qed.

(** ** Buffers stay byte buffers *)

Lemma is_bytes_nth buf i : is_bytes buf = true -> 0 <= nth i buf 0 < 256.
Proof.
  intros H. destruct (Nat.lt_ge_cases i (length buf)).
  - apply (proj1 (is_bytes_iff buf) H). now apply nth_In.
  - rewrite nth_overflow by lia. lia.
Qed.

Lemma in_update {A} (l : list A) n x y : In y (update l n x) -> y = x \/ In y l.
Proof.
  revert n; induction l as [|h t IH]; intros [|n]; simpl; try tauto.
  - intros [<-|H]; auto.
  - intros [<-|H]; auto. destruct (IH _ H); auto.
Qed.

Lemma is_bytes_update buf n x :
  is_bytes buf = true -> 0 <= x < 256 -> is_bytes (update buf n x) = true.
Proof.
  rewrite !is_bytes_iff. intros H Hx b Hb.
  apply in_update in Hb. destruct Hb as [->|Hb]; auto.
Qed.

Lemma byte_range_land x : 0 <= Z.land x 255 < 256.
Proof.
  change 255 with (Z.ones 8). rewrite Z.land_ones by lia.
  apply Z.mod_pos_bound. reflexivity.
Qed.

Lemma is_bytes_put_bit buf bit pos :
  0 <= pos -> is_bytes buf = true -> is_bytes (put_bit buf bit pos) = true.
Proof.
  intros Hpos H. unfold put_bit. destruct (_ >=? _); [exact H|].
  apply is_bytes_update; [exact H|].
  pose proof (is_bytes_nth buf (Z.to_nat (pos / 8)) H) as Hb.
  assert (H8 : 0 <= pos mod 8 < 8) by (apply Z.mod_pos_bound; lia).
  destruct (truthy bit).
  - assert (E : Z.land (Z.lor (nth (Z.to_nat (pos / 8)) buf 0)
                              (Z.shiftr 128 (pos mod 8))) 255
                = Z.lor (nth (Z.to_nat (pos / 8)) buf 0) (Z.shiftr 128 (pos mod 8))).
    { rewrite Z.land_lor_distr_l. f_equal.
      - change 255 with (Z.ones 8). rewrite Z.land_ones by lia.
        apply Z.mod_small. exact Hb.
      - rewrite mask_pow2. change 255 with (Z.ones 8). rewrite Z.land_ones by lia.
        apply Z.mod_small. split; [apply Z.pow_nonneg; lia|].
        apply Z.pow_lt_mono_r; lia. }
    rewrite <- E. apply byte_range_land.
  - rewrite Z.land_assoc. apply byte_range_land.
Qed.

Lemma is_bytes_put_bits buf pos n v :
  0 <= pos -> is_bytes buf = true -> is_bytes (put_bits buf pos n v) = true.
Proof.
  intros Hpos. unfold put_bits.
  assert (G : forall ixs b,
             (forall j, In j ixs -> 0 <= j) -> is_bytes b = true ->
             is_bytes (fold_left
                         (fun b j => put_bit b
                            (if truthy (Z.land v (Z.shiftl 1 (n - 1 - j)))
                             then 1 else 0) (pos + j)) ixs b) = true).
  { induction ixs as [|j ixs IH]; intros b Hj Hb; simpl; [exact Hb|].
    apply IH; [intros; apply Hj; now right|].
    apply is_bytes_put_bit; [|exact Hb].
    specialize (Hj j (or_introl eq_refl)). lia. }
  apply G. intros j Hj. apply in_py_range in Hj. lia.
Qed.

Lemma is_bytes_crc_fix fr : is_bytes fr = true -> is_bytes (crc_fix fr) = true.
Proof.
  intros H. unfold crc_fix.
  repeat apply is_bytes_update; try exact H; apply byte_range_land.
Qed.

Lemma is_bytes_patched_frame cp fr :
  0 <= cp -> is_bytes fr = true -> is_bytes (patched_frame cp fr) = true.
Proof.
  intros Hcp H. unfold patched_frame, patched_fields. apply is_bytes_crc_fix.
  destruct (_ =? 1); repeat apply is_bytes_put_bits; auto; lia.
Qed.

Lemma is_bytes_app a b :
  is_bytes (a ++ b) = is_bytes a && is_bytes b.
Proof. apply forallb_app. Qed.

Lemma is_bytes_outputs cp fs :
  0 <= cp ->
  is_bytes (concat (map fst fs)) = true ->
  is_bytes (concat (map (output_frame cp) fs)) = true.
Proof.
  intros Hcp. induction fs as [|[f kind] fs IH]; [auto|].
  cbn [map fst concat output_frame]. rewrite !is_bytes_app, !andb_true_iff.
  intros [Hf Hrest]. split; [|auto].
  destruct (kind =? "ac3")%string; [exact Hf|now apply is_bytes_patched_frame].
Qed.

(** ** The patch pass: the claims *)

Lemma reads_frames_outputs cp fin fs :
  48 <= cp -> reads_frames fin fs ->
  reads_frames (concat (map (output_frame cp) fs))
               (map (fun x => (output_frame cp x, snd x)) fs).
Proof.
  intros Hcp Hfs.
  pose proof (reads_frames_is_frame fin fs Hfs) as Hall.
  replace (map (output_frame cp) fs)
    with (map fst (map (fun x => (output_frame cp x, snd x)) fs))
    by (rewrite map_map; apply map_ext; intros [f k]; reflexivity).
  apply reads_frames_of_frames. intros g k Hin.
  apply in_map_iff in Hin. destruct Hin as ([f kind] & [= <- <-] & Hin).
  apply output_frame_is_frame; auto.
Qed.

(** C2: when the patch pass completes, input and output are the same
    sequence of frames, in the same order, with the same kinds and byte
    lengths; an AC-3 frame is written unchanged; in an E-AC-3 frame every bit
    before the two trailing checksum bytes is unchanged except bit 50 (the
    compression-exists flag), bits 51..58 (the compression value) and, in
    a dependent frame only, the 16 bits from the detected chanmap offset;
    every byte that holds none of those bits is unchanged, and the output
    consists of bytes whenever the input does. *)
Theorem patch_output_identical_except_fields input out cp st :
  patch_file input = Some (Opened out, Ok (cp, st)) ->
  exists fs,
    reads_frames input fs
    /\ input = concat (map fst fs)
    /\ reads_frames out (map (fun x => (output_frame cp x, snd x)) fs)
    /\ out = concat (map (output_frame cp) fs)
    /\ total_frames st = len fs
    /\ (is_bytes input = true -> is_bytes out = true)
    /\ forall f kind,
        In (f, kind) fs ->
        let f' := output_frame cp (f, kind) in
        len f' = len f
        /\ (kind = "ac3" \/ kind = "eac3")
        /\ (kind = "ac3" -> f' = f)
        /\ (kind = "eac3" ->
            (forall q,
                0 <= q < 8 * (len f - 2) ->
                q <> 50 -> ~ 51 <= q < 59 ->
                ~ (bits_at f 16 2 = 1 /\ cp <= q < cp + 16) ->
                getbit f' q = getbit f q)
            /\ (forall i,
                   0 <= i < len f - 2 ->
                   i <> 6 -> i <> 7 ->
                   ~ (bits_at f 16 2 = 1 /\ cp / 8 <= i <= (cp + 15) / 8) ->
                   nth (Z.to_nat i) f' 0 = nth (Z.to_nat i) f 0)).
Proof.
  intros Hrun.
  destruct (patch_file_ok _ _ _ _ Hrun) as (samples & Hdisc & Hfind & Hloop).
  pose proof (detected_offset_bound _ _ _ Hdisc Hfind) as Hcp.
  assert (Hcp0 : 0 <= cp) by lia.
  destruct (patch_loop_forward _ _ _ _ _ _ _ Hcp0 Hloop)
    as (fs & Hfs & Hout & Hst).
  cbn [app] in Hout. exists fs.
  pose proof (reads_frames_concat _ _ Hfs) as Hin.
  split; [exact Hfs|]. split; [exact Hin|].
  split; [rewrite Hout; apply (reads_frames_outputs cp input); [lia | exact Hfs]|].
  split; [exact Hout|].
  split; [rewrite Hst; cbn [add_counts total_frames]; lia|].
  split; [rewrite Hout, Hin; apply is_bytes_outputs; lia|].
  intros f kind Hmem f'. subst f'.
  pose proof (reads_frames_is_frame _ _ Hfs f kind Hmem) as Hf.
  destruct (is_frame_facts f kind Hf) as [HL Hkind].
  cbn [output_frame]. split; [|split; [|split]].
  - destruct (kind =? "ac3")%string; [reflexivity | apply len_patched_frame].
  - destruct Hkind as [[-> _]|[-> _]]; auto.
  - intros ->. reflexivity.
  - intros ->. change ("eac3" =? "ac3")%string with false. cbv iota. split.
    + intros q Hq H50 H51 Hcm. rewrite !getbit_nonneg by lia. f_equal.
      unfold patched_frame.
      rewrite bit_at_crc_fix by (rewrite len_patched_fields; lia).
      rewrite bit_at_patched_fields by lia.
      destruct (Z.eqb_spec (bits_at f 16 2) 1) as [Hd|Hd]; cbn [andb].
      * destruct (Z.leb_spec cp q); cbn [andb]; [|zbool].
        destruct (Z.ltb_spec q (cp + 16)); cbn [andb]; [|zbool].
        exfalso. apply Hcm. split; [exact Hd | lia].
      * zbool.
    + intros i Hi H6 H7 Hcm. unfold patched_frame.
      rewrite nth_crc_fix by (rewrite len_patched_fields; lia).
      unfold patched_fields.
      assert (E : nth (Z.to_nat i) (put_bits (put_bits f 50 1 1) 51 8 255) 0
                  = nth (Z.to_nat i) f 0).
      { rewrite !nth_put_bits_outside; try lia; try reflexivity.
        - change ((50 + 1 - 1) / 8) with 6. change (50 / 8) with 6. lia.
        - change ((51 + 8 - 1) / 8) with 7. change (51 / 8) with 6. lia. }
      destruct (Z.eqb_spec (bits_at f 16 2) 1) as [Hd|Hd]; [|exact E].
      rewrite nth_put_bits_outside; [exact E | lia |].
      replace (cp + 16 - 1) with (cp + 15) by lia.
      destruct (Z.lt_ge_cases i (cp / 8)); [left; lia|].
      destruct (Z.lt_ge_cases ((cp + 15) / 8) i); [right; lia|].
      exfalso. apply Hcm. split; [exact Hd | lia].
Qed.

(** ** Patching a patched frame *)

Lemma byte_ext x y :
  0 <= x < 256 -> 0 <= y < 256 ->
  (forall j, 0 <= j < 8 -> Z.testbit x j = Z.testbit y j) -> x = y.
Proof.
  intros Hx Hy H. apply Z.bits_inj'. intros j Hj.
  destruct (Z.lt_ge_cases j 8); [apply H; lia|].
  rewrite <- (Z.mod_small x (2 ^ 8)), <- (Z.mod_small y (2 ^ 8)) by (simpl; lia).
  now rewrite !Z.mod_pow2_bits_high by lia.
Qed.

Lemma nth_ext_bits x y i :
  is_bytes x = true -> is_bytes y = true ->
  (forall q, 8 * Z.of_nat i <= q < 8 * Z.of_nat i + 8 -> bit_at x q = bit_at y q) ->
  nth i x 0 = nth i y 0.
Proof.
  intros Hx Hy H. apply byte_ext; try now apply is_bytes_nth.
  intros j Hj. specialize (H (8 * Z.of_nat i + (7 - j)) ltac:(lia)).
  rewrite !bit_at_testbit in H.
  replace ((8 * Z.of_nat i + (7 - j)) / 8) with (Z.of_nat i) in H
    by (apply (Z.div_unique _ 8 _ (7 - j)); lia).
  replace ((8 * Z.of_nat i + (7 - j)) mod 8) with (7 - j) in H
    by (apply (Z.mod_unique _ 8 (Z.of_nat i)); lia).
  rewrite Nat2Z.id in H. replace (7 - (7 - j)) with j in H by lia.
  destruct (Z.testbit (nth i x 0) j), (Z.testbit (nth i y 0) j);
    simpl in H; congruence.
Qed.


Lemma update_last_two (x : list Z) n a b :
  length x = S (S n) -> update (update x n a) (S n) b = firstn n x ++ [a; b].
Proof.
  revert x. induction n as [|n IH]; intros x Hlen.
  - destruct x as [|c [|d [|e x]]]; try discriminate. reflexivity.
  - destruct x as [|c x]; [discriminate|]. simpl. f_equal. apply IH.
    simpl in Hlen. lia.
Qed.

(** The repaired frame is determined by the bytes before the checksum. *)
Lemma crc_fix_prefix x y :
  4 <= len x -> len x = len y ->
  firstn (Z.to_nat (len x - 2)) x = firstn (Z.to_nat (len x - 2)) y ->
  crc_fix x = crc_fix y.
Proof.
  intros HL Hlen Hpre. unfold crc_fix. rewrite <- Hlen.
  replace (Z.to_nat (len x - 1)) with (S (Z.to_nat (len x - 2))) by lia.
  rewrite !update_last_two by (unfold len in *; lia).
  assert (Hs : py_slice x 2 (len x - 2) = py_slice y 2 (len x - 2)).
  { unfold py_slice. rewrite !firstn_skipn_comm.
    replace (Z.to_nat 2 + Z.to_nat (len x - 2 - 2))%nat
      with (Z.to_nat (len x - 2)) by lia.
    now rewrite Hpre. }
  now rewrite Hs, Hpre.
Qed.

Lemma bits_at_ext x y pos n :
  (forall i, 0 <= i < n -> bit_at x (pos + i) = bit_at y (pos + i)) ->
  bits_at x pos n = bits_at y pos n.
Proof.
  intros H. unfold bits_at.
  assert (G : forall ixs w,
             (forall i, In i ixs -> 0 <= i < n) ->
             fold_left (fun v i => Z.lor (Z.shiftl v 1) (bit_at x (pos + i))) ixs w
             = fold_left (fun v i => Z.lor (Z.shiftl v 1) (bit_at y (pos + i))) ixs w).
  { induction ixs as [|i ixs IH]; intros w Hi; simpl; [reflexivity|].
    rewrite H by (apply Hi; now left). apply IH. intros; apply Hi; now right. }
  apply G. intros i Hi. apply in_py_range in Hi. lia.
Qed.



Lemma len_output_frame cp f kind : len (output_frame cp (f, kind)) = len f.
Proof.
  cbn [output_frame]. destruct (kind =? "ac3")%string;
    [reflexivity | apply len_patched_frame].
Qed.

Lemma patch_output_identical_except_fields_witness :
  exists fs,
    reads_frames (frame_ac3_128 ++ frame_one_candidate) fs
    /\ frame_ac3_128 ++ frame_one_candidate = concat (map fst fs)
    /\ frame_ac3_128 ++ [0x0B; 0x77; 0x40; 4; 0; 0x80; 0x31; 0xA0; 174; 100]
       = concat (map (output_frame 52) fs)
    /\ 2 = len fs.
Proof.
  destruct (patch_output_identical_except_fields
              (frame_ac3_128 ++ frame_one_candidate)
              (frame_ac3_128 ++ [0x0B; 0x77; 0x40; 4; 0; 0x80; 0x31; 0xA0; 174; 100])
              52 (mkStats 2 1 1 1))
    as (fs & Hfs & Hin & _ & Hout & Htotal & _).
  - vm_compute. reflexivity.
  - exists fs. auto.
Defined.

Lemma patch_file_completes input s cp st :
  patch_file input = Some (s, Ok (cp, st)) -> exists out, s = Opened out.
Proof.
  unfold patch_file. intros E.
  destruct (discover input) as [[samples|e]|]; try discriminate.
  destruct (find_chanmap_bitpos samples 2048) as [[o|]|e]; try discriminate.
  destruct (patch_loop _ o _ _ _) as [[written [st0|e]]|]; try discriminate.
  injection E as <- _ _. eauto.
Qed.


Lemma len_concat_map_ext {A} (g h : A -> list Z) (l : list A) :
  (forall x, len (g x) = len (h x)) ->
  len (concat (map g l)) = len (concat (map h l)).
Proof.
  intros H. induction l as [|x l IH]; [reflexivity|].
  cbn [map concat]. unfold len in *. rewrite !length_app, !Nat2Z.inj_add.
  now rewrite H, IH.
Qed.





(** ** The run never exhausts its iteration budget *)

Lemma patch_file_total input : patch_file input <> None.
Proof.
  unfold patch_file.
  destruct (discover input) as [[samples|e]|] eqn:Hdisc; [|discriminate|].
  - destruct (find_chanmap_bitpos samples 2048) as [[cp|]|e] eqn:Hfind;
      try discriminate.
    pose proof (detected_offset_bound _ _ _ Hdisc Hfind) as Hcp.
    destruct (patch_loop (S (length input)) cp input [] (mkStats 0 0 0 0))
      as [[written [st|e]]|] eqn:Hloop; try discriminate.
    exfalso. revert Hloop. apply patch_loop_total; lia.
  - exfalso. revert Hdisc. unfold discover. apply discover_loop_total. lia.
Qed.

(* ================================================================== *)
(** * Further properties of the code *)

(** ** Bits: reading *)

Lemma lor_shift_bit v b : b = 0 \/ b = 1 -> Z.lor (Z.shiftl v 1) b = 2 * v + b.
Proof.
  intros [->| ->].
  - rewrite Z.lor_0_r, Z.shiftl_mul_pow2 by lia. change (2 ^ 1) with 2. lia.
  - rewrite Z.shiftl_mul_pow2 by lia. change (2 ^ 1) with 2.
    replace (v * 2) with (2 * v) by lia.
    apply Z.bits_inj'. intros j Hj. rewrite Z.lor_spec.
    destruct (Z.eq_dec j 0) as [->|Hne].
    + now rewrite Z.testbit_even_0, Z.testbit_odd_0.
    + assert (H1 : Z.testbit 1 j = false)
        by (apply Z.bits_above_log2; simpl; lia).
      rewrite H1, orb_false_r.
      replace j with (Z.succ (j - 1)) by lia.
      now rewrite Z.testbit_even_succ, Z.testbit_odd_succ by lia.
Qed.

Lemma bits_at_nonpos buf pos n : n <= 0 -> bits_at buf pos n = 0.
Proof. intros H. unfold bits_at. now rewrite py_range_empty by lia. Qed.

Lemma bits_at_succ buf pos n :
  0 <= n -> bits_at buf pos (n + 1) = 2 * bits_at buf pos n + bit_at buf (pos + n).
Proof.
  intros Hn. unfold bits_at. rewrite py_range_snoc, fold_left_app by lia.
  cbn [fold_left]. apply lor_shift_bit, bit_at_01.
Qed.

Lemma bits_at_bounds buf pos n : 0 <= n -> 0 <= bits_at buf pos n < 2 ^ n.
Proof.
  intros Hn. rewrite <- (Z2Nat.id n Hn). generalize (Z.to_nat n). clear n Hn.
  induction n as [|n IH].
  - rewrite bits_at_nonpos by reflexivity. simpl. lia.
  - rewrite Nat2Z.inj_succ, <- Z.add_1_r, bits_at_succ, Z.pow_add_r by lia.
    destruct (bit_at_01 buf (pos + Z.of_nat n)) as [-> | ->]; lia.
Qed.

Lemma bits_at_app buf pos m n :
  0 <= m -> 0 <= n ->
  bits_at buf pos (m + n) = bits_at buf pos m * 2 ^ n + bits_at buf (pos + m) n.
Proof.
  intros Hm Hn. rewrite <- (Z2Nat.id n Hn). generalize (Z.to_nat n). clear n Hn.
  induction n as [|n IH].
  - rewrite Z.add_0_r, (bits_at_nonpos buf (pos + m) (Z.of_nat 0)) by reflexivity.
    simpl. lia.
  - rewrite Nat2Z.inj_succ, <- Z.add_1_r, Z.add_assoc, !bits_at_succ by lia.
    rewrite IH, Z.pow_add_r by lia. rewrite Z.add_assoc. lia.
Qed.

Lemma bits_at_past_end buf pos n :
  0 <= pos -> 8 * len buf <= pos -> bits_at buf pos n = 0.
Proof.
  intros Hpos Hend. destruct (Z.le_gt_cases n 0); [now apply bits_at_nonpos|].
  rewrite (bits_at_value buf pos n 0); [apply Z.mod_0_l; apply Z.pow_nonzero; lia | lia |].
  intros i Hi. rewrite Z.bits_0. apply bit_at_beyond. lia.
Qed.

(** Reading [m + n] bits is reading [m] bits, then [n] bits, and joining
    them most significant first; every read gives a value below [2^n]. *)
Theorem getbits_concat buf pos m n :
  0 <= pos -> 0 <= m -> 0 <= n ->
  exists hi lo,
    getbits buf pos m = Ok hi
    /\ getbits buf (pos + m) n = Ok lo
    /\ 0 <= hi < 2 ^ m /\ 0 <= lo < 2 ^ n
    /\ getbits buf pos (m + n) = Ok (hi * 2 ^ n + lo).
Proof.
  intros Hpos Hm Hn. rewrite !getbits_nonneg by lia.
  exists (bits_at buf pos m), (bits_at buf (pos + m) n).
  split; [reflexivity|]. split; [reflexivity|].
  split; [now apply bits_at_bounds|]. split; [now apply bits_at_bounds|].
  now rewrite bits_at_app.
Qed.

Lemma getbits_concat_witness :
  exists hi lo,
    getbits [0xA5; 0x3C] 2 4 = Ok hi
    /\ getbits [0xA5; 0x3C] (2 + 4) 6 = Ok lo
    /\ 0 <= hi < 2 ^ 4 /\ 0 <= lo < 2 ^ 6
    /\ getbits [0xA5; 0x3C] 2 (4 + 6) = Ok (hi * 2 ^ 6 + lo).
Proof. apply (getbits_concat [0xA5; 0x3C] 2 4 6); lia. Defined.

(** A read that runs past the end of the buffer sees zeros there: it returns
    the bits that are in the buffer shifted left by the number of missing
    bits; a read that starts at or past the end, or of no bits, returns 0. *)
Theorem getbits_clipped buf pos n :
  0 <= pos -> 0 <= n ->
  (8 * len buf <= pos -> getbits buf pos n = Ok 0)
  /\ (pos <= 8 * len buf <= pos + n ->
      exists v,
        getbits buf pos (8 * len buf - pos) = Ok v
        /\ getbits buf pos n = Ok (v * 2 ^ (pos + n - 8 * len buf))).
Proof.
  intros Hpos Hn. rewrite !getbits_nonneg by lia. split.
  - intros Hend. now rewrite bits_at_past_end.
  - intros Hclip. eexists. split; [reflexivity|].
    replace n with ((8 * len buf - pos) + (pos + n - 8 * len buf)) at 1 by lia.
    rewrite bits_at_app by lia.
    rewrite (bits_at_past_end buf (pos + (8 * len buf - pos))) by lia.
    now rewrite Z.add_0_r.
Qed.

Lemma getbits_clipped_witness :
  getbits [0xA5; 0x3C] 16 5 = Ok 0
  /\ exists v,
      getbits [0xA5; 0x3C] 12 (8 * len [0xA5; 0x3C] - 12) = Ok v
      /\ getbits [0xA5; 0x3C] 12 10 = Ok (v * 2 ^ (12 + 10 - 8 * len [0xA5; 0x3C])).
Proof.
  split.
  - apply (proj1 (getbits_clipped [0xA5; 0x3C] 16 5 ltac:(lia) ltac:(lia))).
    unfold len; simpl; lia.
  - apply (proj2 (getbits_clipped [0xA5; 0x3C] 12 10 ltac:(lia) ltac:(lia))).
    unfold len; simpl; lia.
Defined.

(** ** Bits: writing *)

(** [setbits] at a non-negative offset never raises and never resizes the
    buffer; it changes no bit outside [pos, pos + n) and no byte that holds
    none of those bits; of the addressed bits it writes those that lie in the
    buffer and silently drops the rest; a byte buffer stays a byte buffer. *)
Theorem setbits_frame buf pos n v :
  0 <= pos ->
  exists buf',
    setbits buf pos n v = Ok buf'
    /\ len buf' = len buf
    /\ (is_bytes buf = true -> is_bytes buf' = true)
    /\ (forall q, 0 <= q -> ~ pos <= q < pos + n -> getbit buf' q = getbit buf q)
    /\ (forall q, pos <= q < pos + n -> q < 8 * len buf ->
                  getbit buf' q = Ok (Z.b2z (Z.testbit v (n - 1 - (q - pos)))))
    /\ (forall i, Z.of_nat i < pos / 8 \/ (pos + n - 1) / 8 < Z.of_nat i ->
                  nth i buf' 0 = nth i buf 0).
Proof.
  intros Hpos. exists (put_bits buf pos n v).
  split; [now apply setbits_nonneg|]. split; [apply len_put_bits|].
  split; [now apply is_bytes_put_bits|]. split; [|split].
  - intros q Hq Hout. rewrite !getbit_nonneg, bit_at_put_bits by lia.
    f_equal. zbool.
  - intros q Hq Hin. rewrite getbit_nonneg, bit_at_put_bits by lia.
    f_equal. zbool.
  - intros i Hi. now apply nth_put_bits_outside.
Qed.

Lemma setbits_frame_witness :
  exists buf',
    setbits [0xFF; 0x00] 12 8 0xA5 = Ok buf'
    /\ len buf' = len [0xFF; 0x00]
    /\ getbit buf' 3 = getbit [0xFF; 0x00] 3
    /\ getbit buf' 12 = Ok (Z.b2z (Z.testbit 0xA5 7)).
Proof.
  destruct (setbits_frame [0xFF; 0x00] 12 8 0xA5 ltac:(lia))
    as (buf' & Hrun & Hlen & _ & Hout & Hin & _).
  exists buf'. split; [exact Hrun|]. split; [exact Hlen|]. split.
  - apply Hout; lia.
  - apply (Hin 12); [lia | unfold len; simpl; lia].
Defined.

(** Only the low [n] bits of the value matter, and on a byte buffer a second
    [setbits] on the same field replaces what the first one wrote. *)
Theorem setbits_overwrite buf pos n v w :
  0 <= pos -> 0 <= n -> is_bytes buf = true ->
  setbits buf pos n (v mod 2 ^ n) = setbits buf pos n v
  /\ (buf1 <- setbits buf pos n v ;; setbits buf1 pos n w) = setbits buf pos n w.
Proof.
  intros Hpos Hn Hb. rewrite !setbits_nonneg by lia. cbn [bind].
  rewrite setbits_nonneg by lia.
  assert (Hext : forall x y,
             is_bytes x = true -> is_bytes y = true -> length x = length y ->
             (forall q, 0 <= q -> bit_at x q = bit_at y q) -> x = y).
  { intros x y Hx Hy Hlen Hbits. apply (nth_ext _ _ 0 0 Hlen).
    intros i _. apply nth_ext_bits; auto. intros q Hq. apply Hbits. lia. }
  split; f_equal; apply Hext;
    try (repeat apply is_bytes_put_bits; auto; lia);
    try (now rewrite !length_put_bits);
    intros q Hq; rewrite !bit_at_put_bits, ?len_put_bits by lia.
  - destruct ((pos <=? q) && (q <? pos + n) && (q <? 8 * len buf)) eqn:E;
      [|reflexivity].
    apply andb_true_iff in E. destruct E as [E _].
    apply andb_true_iff in E. destruct E as [E1 E2].
    apply Z.leb_le in E1. apply Z.ltb_lt in E2.
    now rewrite Z.mod_pow2_bits_low by lia.
  - now destruct ((pos <=? q) && (q <? pos + n) && (q <? 8 * len buf)).
Qed.

Lemma setbits_overwrite_witness :
  setbits [0x12; 0x34; 0x56] 5 9 (0x7ABC mod 2 ^ 9) = setbits [0x12; 0x34; 0x56] 5 9 0x7ABC
  /\ (buf1 <- setbits [0x12; 0x34; 0x56] 5 9 0x7ABC ;; setbits buf1 5 9 0x155)
     = setbits [0x12; 0x34; 0x56] 5 9 0x155.
Proof.
  apply (setbits_overwrite [0x12; 0x34; 0x56] 5 9 0x7ABC 0x155); try lia.
  reflexivity.
Defined.

(** ** CRC: streaming, the shift register, the residue *)

Lemma crc16_concat a b crc : crc16 (a ++ b) crc = crc16 b (crc16 a crc).
Proof.
  pose proof (crc16_range a crc) as Hr.
  unfold crc16 at 1 2. rewrite fold_left_app. f_equal.
  symmetry. apply land_16_small. exact Hr.
Qed.

(** The checksum of a concatenation is the checksum of the second part
    seeded with the checksum of the first: data can be fed in pieces. *)
Theorem crc16_app a b crc : crc16 (a ++ b) crc = crc16 b (crc16 a crc).
Proof. apply crc16_concat. Qed.

(** The table-driven checksum of a byte string is the bit-by-bit checksum
    for the polynomial 0x8005, most significant bit first. *)
Theorem crc16_is_bitwise data crc :
  is_bytes data = true -> crc16 data crc = crc16_bitwise data crc.
Proof. apply crc16_bitwise_eq. Qed.

Lemma crc16_is_bitwise_witness :
  crc16 [49; 50; 51; 52; 53; 54; 55; 56; 57] 0
  = crc16_bitwise [49; 50; 51; 52; 53; 54; 55; 56; 57] 0.
Proof. apply crc16_is_bitwise. reflexivity. Defined.

Lemma crc16_appended_checksum data crc :
  let c := crc16 data crc in
  crc16 (data ++ [Z.land (Z.shiftr c 8) 0xFF; Z.land c 0xFF]) crc = 0.
Proof.
  intros c. rewrite crc16_concat. fold c.
  pose proof (crc16_range data crc) as Hc. fold c in Hc.
  destruct (big_endian_split c Hc) as (Hhi & Hlo & Hsum).
  unfold crc16. rewrite land_16_small by exact Hc. cbn [fold_left].
  assert (Ehi : Z.land (Z.shiftr c 8) 0xFF = Z.shiftr c 8).
  { apply land_8_small. rewrite Z.shiftr_div_pow2 by lia. change (2 ^ 8) with 256.
    split; [apply Z.div_pos | apply Z.div_lt_upper_bound]; lia. }
  rewrite Ehi, Z.lxor_nilpotent. change (Z.land 0 255) with 0.
  change (nth (Z.to_nat 0) _crc_table 0) with 0. rewrite Z.lxor_0_l.
  rewrite land_shiftl8_16.
  assert (Hm : 0 <= c mod 256 < 256) by (apply Z.mod_pos_bound; lia).
  rewrite (land_16_small (256 * (c mod 256))) by lia.
  assert (Elo : Z.land c 255 = c mod 256).
  { change 255 with (Z.ones 8). now rewrite Z.land_ones by lia. }
  rewrite Elo.
  assert (Esh : Z.shiftr (256 * (c mod 256)) 8 = c mod 256).
  { rewrite Z.shiftr_div_pow2 by lia. change (2 ^ 8) with 256.
    rewrite Z.mul_comm. apply Z.div_mul. lia. }
  rewrite Esh, Z.lxor_nilpotent. change (Z.land 0 255) with 0.
  change (nth (Z.to_nat 0) _crc_table 0) with 0. rewrite Z.lxor_0_l.
  rewrite land_shiftl8_16.
  replace ((256 * (c mod 256)) mod 256) with 0
    by (symmetry; rewrite Z.mul_comm; apply Z.mod_mul; lia).
  reflexivity.
Qed.

(** Appending a checksum to the data it was computed from, high byte first,
    brings the checksum of the whole to zero. *)
Theorem crc16_residue data crc :
  let c := crc16 data crc in
  crc16 (data ++ [Z.land (Z.shiftr c 8) 0xFF; Z.land c 0xFF]) crc = 0.
Proof. apply crc16_appended_checksum. Qed.

(** ** CRC: the repaired frame *)

Lemma crc_fix_shape fr :
  2 <= len fr ->
  crc_fix fr
  = firstn (Z.to_nat (len fr - 2)) fr
    ++ [Z.land (Z.shiftr (crc16 (py_slice fr 2 (len fr - 2)) 0) 8) 0xFF;
        Z.land (crc16 (py_slice fr 2 (len fr - 2)) 0) 0xFF].
Proof.
  intros HL. unfold crc_fix.
  replace (Z.to_nat (len fr - 1)) with (S (Z.to_nat (len fr - 2))) by lia.
  apply update_last_two. unfold len in *. lia.
Qed.

Lemma crc_fix_checks fr :
  4 <= len fr -> crc16 (py_slice (crc_fix fr) 2 (len fr)) 0 = 0.
Proof.
  intros HL. rewrite crc_fix_shape by lia.
  set (c := crc16 (py_slice fr 2 (len fr - 2)) 0).
  assert (Hlen : length (firstn (Z.to_nat (len fr - 2)) fr) = Z.to_nat (len fr - 2)).
  { rewrite firstn_length_le; [reflexivity | unfold len; lia]. }
  unfold py_slice at 1.
  rewrite skipn_app, Hlen.
  replace (Z.to_nat 2 - Z.to_nat (len fr - 2))%nat with O by lia.
  cbn [skipn]. rewrite firstn_all2.
  - replace (skipn (Z.to_nat 2) (firstn (Z.to_nat (len fr - 2)) fr))
      with (py_slice fr 2 (len fr - 2)).
    + apply crc16_appended_checksum.
    + unfold py_slice. rewrite firstn_skipn_comm. do 2 f_equal. lia.
  - rewrite length_app, length_skipn, Hlen. simpl. lia.
Qed.

(** After the repair, the checksum taken over everything behind the sync
    marker, the two checksum bytes included, is zero: the test a decoder
    applies to the frame succeeds. *)
Theorem repaired_frame_checks (frame : list Z) :
  6 <= len frame ->
  exists frame',
    eac3_rewrite_crc2_like_c frame (len frame) = Ok frame'
    /\ crc16 (py_slice frame' 2 (len frame)) 0 = 0.
Proof.
  intros HL. exists (crc_fix frame). split; [now apply crc_fix_eq|].
  apply crc_fix_checks. lia.
Qed.

Lemma repaired_frame_checks_witness :
  exists frame',
    eac3_rewrite_crc2_like_c frame_one_candidate (len frame_one_candidate)
    = Ok frame'
    /\ crc16 (py_slice frame' 2 (len frame_one_candidate)) 0 = 0.
Proof. apply repaired_frame_checks. unfold len; simpl; lia. Defined.

(** Repairing a repaired frame changes nothing. *)
Theorem eac3_rewrite_crc2_idempotent (frame frame' : list Z) :
  eac3_rewrite_crc2_like_c frame (len frame) = Ok frame' ->
  eac3_rewrite_crc2_like_c frame' (len frame) = Ok frame'.
Proof.
  intros E. destruct (Z.lt_ge_cases (len frame) 6) as [Hs|HL].
  - unfold eac3_rewrite_crc2_like_c in *.
    replace (len frame <? 6) with true in * by (symmetry; zbool).
    now injection E as <-.
  - rewrite crc_fix_eq in E by lia. injection E as <-.
    rewrite <- (len_crc_fix frame) at 1.
    rewrite crc_fix_eq by (rewrite len_crc_fix; lia). f_equal.
    apply crc_fix_prefix.
    + rewrite len_crc_fix. lia.
    + apply len_crc_fix.
    + rewrite len_crc_fix, crc_fix_shape by lia.
      rewrite firstn_app, firstn_firstn, Nat.min_id.
      rewrite firstn_length_le by (unfold len; lia).
      rewrite Nat.sub_diag. cbn [firstn]. apply app_nil_r.
Qed.

Lemma eac3_rewrite_crc2_idempotent_witness :
  eac3_rewrite_crc2_like_c [11; 119; 49; 50; 51; 52; 253; 89]
                           (len [11; 119; 49; 50; 51; 52; 0; 0])
  = Ok [11; 119; 49; 50; 51; 52; 253; 89].
Proof.
  apply (eac3_rewrite_crc2_idempotent [11; 119; 49; 50; 51; 52; 0; 0]).
  vm_compute. reflexivity.
Defined.

(** When [frlen] is not the length of the buffer: a [frlen] of at least 6
    beyond the buffer length raises [IndexError]; a [frlen] within the
    buffer treats the first [frlen] bytes as the frame and leaves every
    other byte, in particular all bytes from [frlen] on, as they were. *)
Theorem eac3_rewrite_crc2_frlen (frame : list Z) (frlen : Z) :
  6 <= frlen ->
  (len frame < frlen -> eac3_rewrite_crc2_like_c frame frlen = Raise IndexError)
  /\ (frlen <= len frame ->
      exists frame',
        eac3_rewrite_crc2_like_c frame frlen = Ok frame'
        /\ len frame' = len frame
        /\ (forall i, i <> Z.to_nat (frlen - 2) -> i <> Z.to_nat (frlen - 1) ->
                      nth i frame' 0 = nth i frame 0)
        /\ 256 * nth (Z.to_nat (frlen - 2)) frame' 0
           + nth (Z.to_nat (frlen - 1)) frame' 0
           = crc16 (py_slice frame 2 (frlen - 2)) 0).
Proof.
  intros Hf. unfold eac3_rewrite_crc2_like_c.
  replace (frlen <? 6) with false by (symmetry; zbool).
  set (c := crc16 (py_slice frame 2 (frlen - 2)) 0).
  pose proof (len_nonneg frame) as Hlen0. split.
  - intros Hbig. destruct (Z.eq_dec frlen (len frame + 1)) as [->|Hne].
    + rewrite py_setitem_inrange by lia. cbn [bind]. unfold py_setitem.
      rewrite len_update.
      replace (len frame + 1 - 1 <? 0) with false by (symmetry; zbool).
      replace (len frame + 1 - 1 <? len frame) with false by (symmetry; zbool).
      now rewrite andb_false_r.
    + unfold py_setitem at 1.
      replace (frlen - 2 <? 0) with false by (symmetry; zbool).
      replace (frlen - 2 <? len frame) with false by (symmetry; zbool).
      now rewrite andb_false_r.
  - intros Hin.
    rewrite py_setitem_inrange by lia. cbn [bind].
    rewrite py_setitem_inrange by (rewrite len_update; lia).
    eexists. split; [reflexivity|]. split; [now rewrite !len_update|].
    split.
    + intros i H2 H1. now rewrite !nth_update_other by congruence.
    + rewrite nth_update_other by lia.
      rewrite !nth_update_same by (rewrite ?length_update; unfold len in *; lia).
      destruct (big_endian_split c (crc16_range _ _)) as (_ & _ & Hsum).
      exact Hsum.
Qed.

Lemma eac3_rewrite_crc2_frlen_witness :
  eac3_rewrite_crc2_like_c [11; 119; 1; 2; 3; 4; 5] 8 = Raise IndexError
  /\ exists frame',
      eac3_rewrite_crc2_like_c [11; 119; 49; 50; 51; 52; 0; 0; 7; 7] 8 = Ok frame'
      /\ nth 8 frame' 0 = 7 /\ nth 9 frame' 0 = 7.
Proof.
  split.
  - apply (proj1 (eac3_rewrite_crc2_frlen [11; 119; 1; 2; 3; 4; 5] 8 ltac:(lia))).
    unfold len; simpl; lia.
  - destruct (proj2 (eac3_rewrite_crc2_frlen [11; 119; 49; 50; 51; 52; 0; 0; 7; 7] 8
                       ltac:(lia))) as (frame' & Hrun & _ & Hkeep & _).
    + unfold len; simpl; lia.
    + exists frame'. split; [exact Hrun|].
      split; [apply (Hkeep 8%nat) | apply (Hkeep 9%nat)]; simpl; lia.
Defined.

(** ** CRC: the table *)

Lemma update_beyond {A} (l : list A) n x : (length l <= n)%nat -> update l n x = l.
Proof.
  revert n; induction l as [|h t IH]; intros [|n] H; simpl in *;
    try reflexivity; try lia.
  f_equal. apply IH. lia.
Qed.

Lemma fold_update_length (g : Z -> Z) ks t :
  length (fold_left (fun t n => update t (Z.to_nat n) (g n)) ks t) = length t.
Proof.
  revert t; induction ks as [|k ks IH]; intros t; simpl; [reflexivity|].
  now rewrite IH, length_update.
Qed.

Lemma fold_update_nth (g : Z -> Z) t (k : nat) i :
  (k <= length t)%nat ->
  nth i (fold_left (fun t n => update t (Z.to_nat n) (g n))
                   (py_range 0 (Z.of_nat k)) t) 0
  = if (i <? k)%nat then g (Z.of_nat i) else nth i t 0.
Proof.
  induction k as [|k IH]; intros Hk.
  - reflexivity.
  - replace (Z.of_nat (S k)) with (Z.of_nat k + 1) by lia.
    rewrite py_range_snoc, fold_left_app by lia. cbn [fold_left].
    rewrite Nat2Z.id.
    destruct (Nat.eq_dec i k) as [->|Hne].
    + rewrite nth_update_same by (rewrite fold_update_length; lia).
      now replace (k <? S k)%nat with true by (symmetry; apply Nat.ltb_lt; lia).
    + rewrite nth_update_other by congruence. rewrite IH by lia.
      destruct (Nat.ltb_spec i k), (Nat.ltb_spec i (S k)); try reflexivity; lia.
Qed.

(** [crc_init] fills all 256 slots whatever they held before: on any table
    of 256 entries it yields the same table, whose slot [n] is [n << 8]
    shifted eight times through the polynomial and fits in 16 bits; calling
    it again changes nothing. *)
Theorem crc_init_overwrites (table : list Z) :
  length table = 256%nat ->
  crc_init table = _crc_table
  /\ crc_init (crc_init table) = crc_init table
  /\ forall n, 0 <= n < 256 ->
               nth (Z.to_nat n) (crc_init table) 0
               = crc_shift8 (Z.land (Z.shiftl n 8) 0xFFFF)
               /\ 0 <= nth (Z.to_nat n) (crc_init table) 0 < 65536.
Proof.
  intros Hlen.
  assert (E : forall t, length t = 256%nat -> crc_init t = _crc_table).
  { intros t Ht. apply (nth_ext _ _ 0 0).
    - unfold crc_init. rewrite fold_update_length. now rewrite Ht.
    - intros i Hi. unfold crc_init in *. rewrite fold_update_length, Ht in Hi.
      change 256 with (Z.of_nat 256).
      rewrite fold_update_nth by lia.
      replace (i <? 256)%nat with true by (symmetry; apply Nat.ltb_lt; lia).
      rewrite <- (crc_table_entries (Z.of_nat i)) by lia.
      now rewrite Nat2Z.id. }
  rewrite (E table Hlen). split; [reflexivity|].
  split; [now apply E|].
  intros n Hn. rewrite crc_table_entries by exact Hn. split; [reflexivity|].
  change (crc_init_entry n) with (crc_shift8 (Z.land (Z.shiftl n 8) 0xFFFF)).
  apply crc_shift8_spec. change 0xFFFF with (Z.ones 16).
  rewrite Z.land_ones by lia. apply Z.mod_pos_bound. reflexivity.
Qed.

Lemma crc_init_overwrites_witness :
  crc_init (repeat 7 256) = _crc_table
  /\ crc_init (crc_init (repeat 7 256)) = crc_init (repeat 7 256)
  /\ forall n, 0 <= n < 256 ->
               nth (Z.to_nat n) (crc_init (repeat 7 256)) 0
               = crc_shift8 (Z.land (Z.shiftl n 8) 0xFFFF)
               /\ 0 <= nth (Z.to_nat n) (crc_init (repeat 7 256)) 0 < 65536.
Proof. apply crc_init_overwrites. reflexivity. Defined.

(** ** The frame reader: rejections *)

Lemma fsizetable_zero_entries :
  forallb (fun b4 =>
             Bool.eqb (nth (Z.to_nat b4) fsizetable 0 =? 0)
                      ((38 <=? b4 mod 64) || (192 <=? b4))
             && (nth (Z.to_nat b4) fsizetable 0 <=? 1920))
          (py_range 0 250)
  = true.
Proof. vm_compute. reflexivity. Qed.

(** What [read_frame] rejects before reading past the header: one to five
    bytes left; a wrong sync marker; an E-AC-3 header whose frmsiz field is
    below 4; an AC-3 header whose byte 4 is below 250 and carries a frame
    size code of 38 or more or the reserved sample-rate code 3. *)
Theorem read_frame_rejects :
  (forall s, s <> [] -> (length s < 6)%nat ->
             read_frame s = Raise (PatchError "Unexpected EOF (short header)"))
  /\ (forall b0 b1 b2 b3 b4 b5 rest,
         b0 <> 0x0B \/ b1 <> 0x77 ->
         read_frame (b0 :: b1 :: b2 :: b3 :: b4 :: b5 :: rest)
         = Raise (PatchError "Bad syncword (expected 0x0B 0x77)"))
  /\ (forall b2 b3 b4 b5 rest,
         10 <= Z.shiftr b5 3 -> 256 * Z.land b2 7 + b3 < 4 ->
         read_frame (0x0B :: 0x77 :: b2 :: b3 :: b4 :: b5 :: rest)
         = Raise (PatchError "Invalid E-AC-3 frmsiz"))
  /\ (forall b2 b3 b4 b5 rest,
         Z.shiftr b5 3 < 10 -> 0 <= b4 < 250 ->
         38 <= b4 mod 64 \/ 192 <= b4 ->
         read_frame (0x0B :: 0x77 :: b2 :: b3 :: b4 :: b5 :: rest)
         = Raise (PatchError "Invalid AC-3 frmsizecod")).
Proof.
  split; [exact read_frame_short|]. split; [|split].
  - intros b0 b1 b2 b3 b4 b5 rest H. rewrite read_frame_header.
    destruct (Z.eqb_spec b0 11), (Z.eqb_spec b1 119); cbn [negb orb];
      try reflexivity.
    destruct H; congruence.
  - intros b2 b3 b4 b5 rest Hb Hs. rewrite read_frame_header.
    cbn [Z.eqb Pos.eqb negb orb]. unfold frame_size.
    replace (Z.shiftr b5 3 <? 10) with false by (symmetry; zbool).
    cbv zeta.
    now replace ((256 * Z.land b2 7 + b3) * 2 + 2 <? 10) with true
      by (symmetry; zbool).
  - intros b2 b3 b4 b5 rest Hb Hb4 Hcode. rewrite read_frame_header.
    cbn [Z.eqb Pos.eqb negb orb]. unfold frame_size.
    replace (Z.shiftr b5 3 <? 10) with true by (symmetry; zbool).
    rewrite (py_getitem_inrange _ _ 0) by (rewrite fsizetable_len; lia).
    pose proof fsizetable_zero_entries as H. rewrite forallb_forall in H.
    specialize (H b4 (proj2 (in_py_range 0 250 b4) Hb4)).
    apply andb_true_iff in H. destruct H as [H _]. apply Bool.eqb_prop in H.
    assert (E : nth (Z.to_nat b4) fsizetable 0 = 0).
    { apply Z.eqb_eq. rewrite H. apply orb_true_iff.
      destruct Hcode; [left; apply Z.leb_le | right; apply Z.leb_le]; lia. }
    cbn [bind]. rewrite E. reflexivity.
Qed.

Lemma read_frame_rejects_witness :
  read_frame [0x0B; 0x77; 0] = Raise (PatchError "Unexpected EOF (short header)")
  /\ read_frame [0x0B; 0x78; 0; 0; 0; 0]
     = Raise (PatchError "Bad syncword (expected 0x0B 0x77)")
  /\ read_frame [0x0B; 0x77; 0x40; 3; 0; 0x80]
     = Raise (PatchError "Invalid E-AC-3 frmsiz")
  /\ read_frame [0x0B; 0x77; 0; 0; 38; 0x40]
     = Raise (PatchError "Invalid AC-3 frmsizecod").
Proof.
  destruct read_frame_rejects as (H1 & H2 & H3 & H4).
  split; [apply H1; [discriminate | simpl; lia]|].
  split; [apply H2; right; discriminate|].
  split; [apply H3; [vm_compute; discriminate | vm_compute; reflexivity]|].
  apply H4; [vm_compute; reflexivity | lia | left; vm_compute; discriminate].
Defined.

(** A header that announces more bytes than the stream still holds is a
    truncated frame, also when nothing at all follows the header: it is
    never taken for the clean end of the stream. *)
Theorem read_frame_truncated b2 b3 b4 b5 rest n kind :
  frame_size b2 b3 b4 b5 = Ok (n, kind) ->
  len rest < n - 6 ->
  read_frame (0x0B :: 0x77 :: b2 :: b3 :: b4 :: b5 :: rest)
  = Raise (PatchError "Unexpected EOF (truncated frame)").
Proof.
  intros Hs Hshort. rewrite read_frame_header.
  cbn [Z.eqb Pos.eqb negb orb]. rewrite Hs. cbn [bind].
  unfold read_exact. pose proof (len_nonneg rest).
  replace (n - 6 <? 0) with false by (symmetry; zbool).
  assert (E : len (firstn (Z.to_nat (n - 6)) rest) = len rest).
  { unfold len in *. rewrite firstn_all2; [reflexivity | lia]. }
  rewrite E. now replace (len rest =? n - 6) with false by (symmetry; zbool).
Qed.

Lemma read_frame_truncated_witness :
  read_frame [0x0B; 0x77; 0x40; 4; 0; 0x80]
  = Raise (PatchError "Unexpected EOF (truncated frame)").
Proof.
  apply (read_frame_truncated 0x40 4 0 0x80 [] 10 "eac3").
  - reflexivity.
  - unfold len; simpl; lia.
Defined.

(** ** The frame reader: deliveries *)

Lemma fsizetable_max : forall e, In e fsizetable -> e <= 1920.
Proof.
  assert (H : forallb (fun e => e <=? 1920) fsizetable = true) by reflexivity.
  intros e He. rewrite forallb_forall in H. apply Z.leb_le. auto.
Qed.

(** What a read that does not raise delivers: the clean end of an empty
    stream, or a frame split off the front of the stream, as long as its
    header announces, starting with the sync marker, of even length; an AC-3
    frame (bsid below 10) has 128 to 3840 bytes, an E-AC-3 frame has
    [2 * (frmsiz + 1)] bytes, at least 10 and, its header bytes being
    bytes, at most 4096. *)
Theorem read_frame_delivers s fr n eof kind s' :
  read_frame s = Ok ((fr, n, eof, kind), s') ->
  (eof = true /\ fr = None /\ n = 0 /\ s = [] /\ s' = [])
  \/ (eof = false
      /\ exists f,
          fr = Some f /\ s = f ++ s' /\ len f = n /\ Z.even n = true
          /\ nth 0 f 0 = 0x0B /\ nth 1 f 0 = 0x77
          /\ ((kind = "ac3" /\ Z.shiftr (nth 5 f 0) 3 < 10 /\ 128 <= n <= 3840)
              \/ (kind = "eac3" /\ 10 <= Z.shiftr (nth 5 f 0) 3
                  /\ n = 2 * (256 * Z.land (nth 2 f 0) 7 + nth 3 f 0 + 1)
                  /\ 10 <= n
                  /\ (0 <= nth 3 f 0 < 256 -> n <= 4096)))).
Proof.
  intros E. destruct (read_frame_ok _ _ _ _ _ _ E)
    as [(-> & -> & -> & ->)|(-> & f & -> & -> & -> & Hf)].
  - left. rewrite read_frame_nil in E. assert (n = 0) by congruence. auto.
  - right. split; [reflexivity|]. exists f.
    split; [reflexivity|]. split; [reflexivity|]. split; [reflexivity|].
    destruct Hf as (b2 & b3 & b4 & b5 & tail & Ef & Es).
    rewrite Ef in *. cbn [nth]. clear E Ef.
    generalize dependent (len (11 :: 119 :: b2 :: b3 :: b4 :: b5 :: tail)).
    intros n Es. unfold frame_size in Es.
    destruct (Z.ltb_spec (Z.shiftr b5 3) 10) as [Hb|Hb].
    + destruct (py_getitem fsizetable b4) as [entry|e] eqn:Ee; cbn [bind] in Es;
        [|discriminate].
      apply py_getitem_In in Ee.
      pose proof (fsizetable_entries _ Ee). pose proof (fsizetable_max _ Ee).
      destruct (Z.eqb_spec (entry * 2) 0); [discriminate|].
      assert (En : entry * 2 = n) by congruence.
      assert (Ek : "ac3" = kind) by congruence. subst n kind.
      split; [rewrite Z.mul_comm; apply Z.even_mul|]. 
      split; [reflexivity|]. split; [reflexivity|]. left. repeat split; lia.
    + cbv zeta in Es.
      destruct (Z.ltb_spec ((256 * Z.land b2 7 + b3) * 2 + 2) 10); [discriminate|].
      assert (En : (256 * Z.land b2 7 + b3) * 2 + 2 = n) by congruence.
      assert (Ek : "eac3" = kind) by congruence. subst n kind.
      assert (H7 : 0 <= Z.land b2 7 < 8).
      { change 7 with (Z.ones 3). rewrite Z.land_ones by lia.
        apply Z.mod_pos_bound. reflexivity. }
      split.
      { replace ((256 * Z.land b2 7 + b3) * 2 + 2)
          with (2 * (256 * Z.land b2 7 + b3 + 1)) by lia.
        apply Z.even_mul. }
      split; [reflexivity|]. split; [reflexivity|]. right.
      split; [reflexivity|]. split; [lia|]. split; [lia|]. split; lia.
Qed.

Lemma read_frame_delivers_witness :
  (false = true /\ Some frame_one_candidate = None /\ 10 = 0
   /\ frame_one_candidate ++ [1; 2] = [] /\ [1; 2] = [])
  \/ (false = false
      /\ exists f,
          Some frame_one_candidate = Some f
          /\ frame_one_candidate ++ [1; 2] = f ++ [1; 2]
          /\ len f = 10 /\ Z.even 10 = true
          /\ nth 0 f 0 = 0x0B /\ nth 1 f 0 = 0x77
          /\ (("eac3" = "ac3" /\ Z.shiftr (nth 5 f 0) 3 < 10 /\ 128 <= 10 <= 3840)
              \/ ("eac3" = "eac3" /\ 10 <= Z.shiftr (nth 5 f 0) 3
                  /\ 10 = 2 * (256 * Z.land (nth 2 f 0) 7 + nth 3 f 0 + 1)
                  /\ 10 <= 10
                  /\ (0 <= nth 3 f 0 < 256 -> 10 <= 4096)))).
Proof.
  apply (read_frame_delivers (frame_one_candidate ++ [1; 2])
           (Some frame_one_candidate) 10 false "eac3" [1; 2]).
  vm_compute. reflexivity.
Defined.

(** Framing round trip: a concatenation of complete frames is read back as
    exactly those frames, in order and with their kinds, followed by the
    clean end of the stream, and as nothing else. *)
Theorem framing_round_trip (fs : list (list Z * string)) :
  (forall f kind, In (f, kind) fs -> is_frame f kind) ->
  reads_frames (concat (map fst fs)) fs
  /\ forall fs', reads_frames (concat (map fst fs)) fs' -> fs' = fs.
Proof.
  intros H. pose proof (reads_frames_of_frames fs H) as Hr.
  split; [exact Hr|]. intros fs' Hr'.
  exact (reads_frames_functional _ _ _ Hr' Hr).
Qed.

Lemma framing_round_trip_witness :
  reads_frames (concat (map fst [(frame_ac3_128, "ac3"); (frame_one_candidate, "eac3")]))
               [(frame_ac3_128, "ac3"); (frame_one_candidate, "eac3")]
  /\ forall fs',
      reads_frames
        (concat (map fst [(frame_ac3_128, "ac3"); (frame_one_candidate, "eac3")])) fs' ->
      fs' = [(frame_ac3_128, "ac3"); (frame_one_candidate, "eac3")].
Proof.
  apply framing_round_trip.
  intros f kind [[= <- <-]|[[= <- <-]|[]]].
  - exists 0, 0, 0, 0x40, (repeat 0 122). split; reflexivity.
  - exists 0x40, 4, 0, 0x80, [0x10; 0x01; 0; 0]. split; reflexivity.
Defined.

(** ** Header positions *)

Lemma bits_at_one buf pos : bits_at buf pos 1 = bit_at buf pos.
Proof.
  change 1 with (0 + 1) at 1.
  rewrite bits_at_succ, bits_at_nonpos, Z.add_0_r by lia. lia.
Qed.

(** [eac3_parse_positions] never raises, whatever the buffer, even an empty
    one; the positions it returns are the constants 45, 50 and 51, the
    stream type is a two-bit value, and the scan starts at 59 when bit 50 is
    set and at 51 otherwise (so at 51 on a buffer of at most six bytes).
    The result depends on bytes 2 and 6 of the buffer only. *)
Theorem eac3_parse_positions_total :
  (forall fr,
      exists info,
        eac3_parse_positions fr = Ok info
        /\ dialnorm_pos info = 45 /\ compre_pos info = 50 /\ compr_pos info = 51
        /\ 0 <= strmtype info <= 3
        /\ getbits fr 16 2 = Ok (strmtype info)
        /\ (getbit fr 50 = Ok 1 -> scan_start info = 59)
        /\ (getbit fr 50 = Ok 0 -> scan_start info = 51)
        /\ (len fr <= 6 -> scan_start info = 51)
        /\ (len fr <= 2 -> strmtype info = 0))
  /\ (forall fr fr',
         nth 2 fr 0 = nth 2 fr' 0 -> nth 6 fr 0 = nth 6 fr' 0 ->
         eac3_parse_positions fr = eac3_parse_positions fr').
Proof.
  split.
  - intros fr. rewrite eac3_parse_positions_eq. eexists. split; [reflexivity|].
    cbn [dialnorm_pos compre_pos compr_pos strmtype scan_start].
    rewrite getbits_nonneg, getbit_nonneg by lia.
    pose proof (bits_at_bounds fr 16 2 ltac:(lia)) as Hb. change (2 ^ 2) with 4 in Hb.
    unfold scan_start_of. rewrite bits_at_one.
    repeat (split; [reflexivity || lia|]).
    split; [intros [= ->]; reflexivity|]. split; [intros [= ->]; reflexivity|].
    split.
    + intros Hl. rewrite bit_at_beyond by lia. reflexivity.
    + intros Hl. apply bits_at_past_end; lia.
  - intros fr fr' H2 H6. rewrite !eac3_parse_positions_eq. f_equal.
    assert (E16 : bits_at fr 16 2 = bits_at fr' 16 2).
    { apply bits_at_ext. intros i Hi. unfold bit_at.
      replace ((16 + i) / 8) with 2
        by (apply Z.div_unique with (r := i); lia).
      change (Z.to_nat 2) with 2%nat. now rewrite H2. }
    assert (E50 : scan_start_of fr = scan_start_of fr').
    { unfold scan_start_of. rewrite !bits_at_one. unfold bit_at.
      change (Z.to_nat (50 / 8)) with 6%nat. now rewrite H6. }
    now rewrite E16, E50.
Qed.

Lemma eac3_parse_positions_total_witness :
  eac3_parse_positions [] = eac3_parse_positions [0x0B]
  /\ exists info,
      eac3_parse_positions frame_one_candidate = Ok info /\ scan_start info = 51.
Proof.
  destruct eac3_parse_positions_total as [H1 H2]. split.
  - apply H2; reflexivity.
  - destruct (H1 frame_one_candidate) as (info & E & _ & _ & _ & _ & _ & _ & H0 & _).
    exists info. split; [exact E|]. apply H0. reflexivity.
Defined.

(** ** The detector: what the histogram counts *)

Lemma dict_get_set {V} (d : dict V) k x k' :
  dict_get (dict_set d k x) k' = if k =? k' then Some x else dict_get d k'.
Proof.
  induction d as [|[k0 v0] d IH]; simpl.
  - now destruct (k =? k').
  - destruct (Z.eqb_spec k0 k) as [->|Hne]; simpl.
    + now destruct (k =? k').
    + rewrite IH. destruct (Z.eqb_spec k k') as [->|]; [|reflexivity].
      now replace (k0 =? k') with false by (symmetry; zbool).
Qed.

Lemma hist_count_record ph key v k w :
  hist_count (record_value ph key v) k w
  = hist_count ph k w + (if (k =? key) && (w =? v) then 1 else 0).
Proof.
  unfold hist_count, record_value. rewrite dict_get_set.
  rewrite (Z.eqb_sym key k).
  destruct (Z.eqb_spec k key) as [->|Hne]; cbn [andb]; [|lia].
  rewrite dict_get_set. rewrite (Z.eqb_sym v w).
  destruct (dict_get ph key) as [d|]; destruct (Z.eqb_spec w v) as [->|Hw];
    cbn [dict_get]; try lia; destruct (dict_get d _); lia.
Qed.

Lemma hist_count_scan fr (m : nat) start ph k w :
  hist_count (fold_left (scan_step fr) (py_range start (start + Z.of_nat m)) ph) k w
  = hist_count ph k w
    + (if (start <=? k - 1) && (k - 1 <? start + Z.of_nat m)
          && qualifies fr (k - 1) && (bits_at fr k 16 =? w)
       then 1 else 0).
Proof.
  revert start ph. induction m as [|m IH]; intros start ph.
  - rewrite py_range_empty by lia. cbn [fold_left].
    replace ((start <=? k - 1) && (k - 1 <? start + Z.of_nat 0)) with false
      by (symmetry; zbool).
    cbn [andb]. lia.
  - rewrite py_range_cons by lia. cbn [fold_left].
    replace (start + Z.of_nat (S m)) with (start + 1 + Z.of_nat m) by lia.
    rewrite IH. unfold scan_step.
    destruct (Z.eq_dec (k - 1) start) as [Ek|Hne].
    + replace (start + 1 <=? k - 1) with false by (symmetry; zbool).
      replace (start <=? k - 1) with true by (symmetry; zbool).
      replace (k - 1 <? start + 1 + Z.of_nat m) with true by (symmetry; zbool).
      cbn [andb]. rewrite Ek. replace k with (start + 1) by lia.
      replace (start + 1 - 1) with start by lia.
      destruct (qualifies fr start); cbn [andb]; [|lia].
      rewrite hist_count_record, Z.eqb_refl. cbn [andb].
      rewrite (Z.eqb_sym w). lia.
    + replace (start + 1 <=? k - 1) with (start <=? k - 1)
        by (destruct (Z.leb_spec start (k - 1)); symmetry; zbool).
      destruct (qualifies fr start); [|lia].
      rewrite hist_count_record.
      replace (k =? start + 1) with false by (symmetry; zbool).
      cbn [andb]. lia.
Qed.

Lemma hist_count_votes samples extra_bits ph :
  (forall fr, In fr samples -> 6 <= len fr) ->
  build_pos_hist samples extra_bits = Ok ph ->
  forall k v, hist_count ph k v = len (filter (votes_for extra_bits k v) samples).
Proof.
  intros Hlen E k v. unfold build_pos_hist in E.
  enough (G : forall ph0 ph1,
             for_each (scan_frame extra_bits) samples ph0 = Ok ph1 ->
             hist_count ph1 k v
             = hist_count ph0 k v + len (filter (votes_for extra_bits k v) samples)).
  { rewrite (G [] ph E). reflexivity. }
  clear E ph. induction samples as [|fr samples IH]; intros ph0 ph1 E.
  - injection E as <-. unfold len. simpl. lia.
  - cbn [for_each] in E. rewrite scan_frame_eq in E by (apply Hlen; now left).
    cbn [bind] in E. apply IH in E; [|intros; apply Hlen; now right].
    rewrite E. clear E IH. cbn [filter]. unfold votes_for at 2.
    destruct (is_dependent fr); cbn [andb]; [|lia].
    unfold scan_window.
    set (start := scan_start_of fr).
    set (end_ := Z.min (len fr * 8 - 17) (start + extra_bits)).
    destruct (Z.le_gt_cases end_ start) as [Hle|Hgt].
    + rewrite py_range_empty by lia. cbn [fold_left].
      replace ((start <=? k - 1) && (k - 1 <? end_)) with false
        by (symmetry; zbool).
      cbn [andb]. lia.
    + replace end_ with (start + Z.of_nat (Z.to_nat (end_ - start))) at 1 by lia.
      rewrite hist_count_scan.
      replace (start + Z.of_nat (Z.to_nat (end_ - start))) with end_ by lia.
      destruct ((start <=? k - 1) && (k - 1 <? end_) && qualifies fr (k - 1)
                && (bits_at fr k 16 =? v)).
      * unfold len. simpl length. lia.
      * lia.
Qed.

(** The histogram counts votes: the count on record for a value under a
    key is the number of sampled dependent frames whose scan window holds
    the offset before the key, qualifying, with that value behind it. *)
Theorem histogram_counts_votes samples extra_bits ph :
  (forall fr, In fr samples -> 6 <= len fr) ->
  build_pos_hist samples extra_bits = Ok ph ->
  forall k v, hist_count ph k v = len (filter (votes_for extra_bits k v) samples).
Proof. exact (hist_count_votes samples extra_bits ph). Qed.

Lemma histogram_counts_votes_witness :
  hist_count [(71, [(0x0040, 1)]); (61, [(0x0010, 1)])] 71 0x0040
  = len (filter (votes_for 2048 71 0x0040)
                [frame_late_candidate; frame_early_candidate]).
Proof.
  apply (histogram_counts_votes [frame_late_candidate; frame_early_candidate] 2048).
  - intros fr [<-|[<-|[]]]; vm_compute; discriminate.
  - vm_compute. reflexivity.
Defined.

(** ** The detector: frames that do not count *)

Lemma build_pos_hist_filter samples extra ph0 :
  (forall fr, In fr samples -> 6 <= len fr) ->
  for_each (scan_frame extra) samples ph0
  = for_each (scan_frame extra) (filter is_dependent samples) ph0.
Proof.
  revert ph0. induction samples as [|fr samples IH]; intros ph0 Hlen; [reflexivity|].
  assert (Hfr : 6 <= len fr) by (apply Hlen; now left).
  cbn [for_each filter]. rewrite scan_frame_eq by exact Hfr.
  destruct (is_dependent fr) eqn:Hd; cbn [bind for_each].
  - rewrite scan_frame_eq, Hd by exact Hfr. cbn [bind].
    apply IH. intros; apply Hlen; now right.
  - apply IH. intros; apply Hlen; now right.
Qed.

(** Frames that are not dependent E-AC-3 frames (AC-3 frames, stream type
    other than 1) have no influence on the detection: the result is that
    for the dependent frames alone. *)
Theorem detector_ignores_other_frames samples extra_bits :
  (forall fr, In fr samples -> 6 <= len fr) ->
  find_chanmap_bitpos samples extra_bits
  = find_chanmap_bitpos (filter is_dependent samples) extra_bits.
Proof.
  intros Hlen. unfold find_chanmap_bitpos, build_pos_hist.
  now rewrite build_pos_hist_filter.
Qed.

Lemma detector_ignores_other_frames_witness :
  find_chanmap_bitpos [frame_ac3_128; frame_one_candidate] 2048
  = find_chanmap_bitpos (filter is_dependent [frame_ac3_128; frame_one_candidate]) 2048.
Proof.
  apply detector_ignores_other_frames.
  intros fr [<-|[<-|[]]]; vm_compute; discriminate.
Defined.

Lemma scan_frame_short extra ph fr :
  len fr < 6 -> scan_frame extra ph fr = Raise IndexError.
Proof.
  intros Hs. unfold scan_frame, py_getitem. pose proof (len_nonneg fr).
  change (5 <? 0) with false. cbv iota.
  now replace ((0 <=? 5) && (5 <? len fr)) with false by (symmetry; zbool).
Qed.

(** Edge cases of the detector: no sample gives no position; so do samples
    that are all of at most eight bytes or not dependent, since their scan
    windows are empty or skipped; a sample of fewer than six bytes anywhere
    in the list ends the detection with [IndexError]. *)
Theorem detector_edge_cases extra_bits :
  find_chanmap_bitpos [] extra_bits = Ok None
  /\ (forall samples,
         (forall fr, In fr samples ->
                     6 <= len fr /\ (is_dependent fr = false \/ len fr <= 8)) ->
         find_chanmap_bitpos samples extra_bits = Ok None)
  /\ (forall samples fr,
         In fr samples -> len fr < 6 ->
         find_chanmap_bitpos samples extra_bits = Raise IndexError).
Proof.
  split; [reflexivity|]. split.
  - intros samples H. unfold find_chanmap_bitpos, build_pos_hist.
    enough (E : for_each (scan_frame extra_bits) samples [] = Ok []) by now rewrite E.
    induction samples as [|fr samples IH]; [reflexivity|].
    destruct (H fr (or_introl eq_refl)) as [Hl Hskip].
    cbn [for_each]. rewrite scan_frame_eq by exact Hl.
    assert (Hsame : (if is_dependent fr
                     then fold_left (scan_step fr)
                            (scan_window fr (scan_start_of fr) extra_bits) []
                     else []) = []).
    { destruct (is_dependent fr); [|reflexivity].
      destruct Hskip as [Hd|Hsmall]; [discriminate|].
      unfold scan_window. rewrite py_range_empty; [reflexivity|].
      pose proof (scan_start_of_cases fr). lia. }
    rewrite Hsame. cbn [bind]. apply IH. intros; apply H; now right.
  - intros samples fr Hin Hs. unfold find_chanmap_bitpos, build_pos_hist.
    enough (E : forall ph0, for_each (scan_frame extra_bits) samples ph0
                            = Raise IndexError) by now rewrite E.
    induction samples as [|f samples IH]; intros ph0; [destruct Hin|].
    cbn [for_each].
    destruct (Z.lt_ge_cases (len f) 6) as [Hf|Hf].
    + now rewrite scan_frame_short.
    + rewrite scan_frame_eq by exact Hf. cbn [bind].
      destruct Hin as [->|Hin]; [lia | now apply IH].
Qed.

Lemma detector_edge_cases_witness :
  find_chanmap_bitpos [frame_ac3_128; [0x0B; 0x77; 0x40; 0; 0; 0x80; 0xFF; 0xFF]] 2048
  = Ok None
  /\ find_chanmap_bitpos [frame_one_candidate; [0x0B; 0x77]] 2048 = Raise IndexError.
Proof.
  destruct (detector_edge_cases 2048) as (_ & Hnone & Hshort). split.
  - apply Hnone. intros fr [<-|[<-|[]]].
    + split; [vm_compute; discriminate | left; reflexivity].
    + split; [vm_compute; discriminate | right; vm_compute; discriminate].
  - apply (Hshort _ [0x0B; 0x77]); [right; now left | reflexivity].
Defined.

(** ** The discovery phase *)

Lemma is_frame_dependent f kind :
  is_frame f kind ->
  is_dependent f = (kind =? "eac3")%string && (bits_at f 16 2 =? 1).
Proof.
  intros Hf. destruct (is_frame_facts f kind Hf) as [_ [[-> Hb]|[-> Hb]]];
    unfold is_dependent.
  - replace (Z.shiftr (nth 5 f 0) 3 <? 10) with true by (symmetry; zbool).
    reflexivity.
  - replace (Z.shiftr (nth 5 f 0) 3 <? 10) with false by (symmetry; zbool).
    reflexivity.
Qed.

Lemma firstn_8_full (samples more : list (list Z)) :
  len samples = 8 -> firstn 8 (samples ++ more) = samples.
Proof.
  intros H. unfold len in H.
  rewrite firstn_app. replace (8 - length samples)%nat with O by lia.
  rewrite firstn_O, app_nil_r. apply firstn_all2. lia.
Qed.

Lemma discover_loop_frames fuel fs rest samples :
  (forall f kind, In (f, kind) fs -> is_frame f kind) ->
  (length fs < fuel)%nat ->
  len samples <= 8 ->
  discover_loop fuel (concat (map fst fs) ++ rest) samples
  = if 8 <=? len samples + len (filter is_dependent (map fst fs))
    then Some (Ok (firstn 8 (samples ++ filter is_dependent (map fst fs))))
    else discover_loop (fuel - length fs) rest
                       (samples ++ filter is_dependent (map fst fs)).
Proof.
  revert fuel samples. induction fs as [|[f kind] fs IH]; intros fuel samples Hfs Hfuel Hn.
  - cbn [map concat filter app length]. rewrite app_nil_r, Nat.sub_0_r.
    change (len (@nil (list Z))) with 0. rewrite Z.add_0_r.
    destruct (Z.leb_spec 8 (len samples)) as [H8|H8]; [|reflexivity].
    destruct fuel as [|fuel]; [simpl in Hfuel; lia|]. cbn [discover_loop].
    replace (len samples <? 8) with false by (symmetry; zbool).
    rewrite <- (app_nil_r samples) at 2. rewrite firstn_8_full by lia. reflexivity.
  - destruct fuel as [|fuel]; [simpl in Hfuel; lia|].
    assert (Hf : is_frame f kind) by (apply Hfs; now left).
    assert (Hrest : forall g k, In (g, k) fs -> is_frame g k)
      by (intros; apply Hfs; now right).
    cbn [map concat fst length] in *. rewrite <- app_assoc.
    cbn [discover_loop Nat.sub filter].
    rewrite (is_frame_dependent f kind Hf).
    destruct (Z.ltb_spec (len samples) 8) as [Hlt|Hge].
    + rewrite (read_frame_is_frame f kind _ Hf).
      destruct (is_frame_facts f kind Hf) as [_ [[-> Hb]|[-> Hb]]].
      * change ("ac3" =? "eac3")%string with false. cbn [andb].
        apply IH; [exact Hrest | lia | exact Hn].
      * change ("eac3" =? "eac3")%string with true. cbn [andb].
        rewrite eac3_parse_positions_eq. cbn [strmtype].
        destruct (bits_at f 16 2 =? 1).
        -- rewrite IH; [|exact Hrest | lia |].
           ++ replace (len (samples ++ [f])) with (len samples + 1)
                by (unfold len; rewrite length_app; simpl length; lia).
              replace (len (f :: filter is_dependent (map fst fs)))
                with (1 + len (filter is_dependent (map fst fs)))
                by (unfold len; simpl length; lia).
              rewrite Z.add_assoc. rewrite <- !app_assoc. reflexivity.
           ++ unfold len in *. rewrite length_app. simpl length. lia.
        -- apply IH; [exact Hrest | lia | exact Hn].
    + pose proof (len_nonneg (filter is_dependent (map fst fs))).
      assert (H0 : 0 <= len (if (kind =? "eac3")%string && (bits_at f 16 2 =? 1)
                             then f :: filter is_dependent (map fst fs)
                             else filter is_dependent (map fst fs))).
      { apply len_nonneg. }
      replace (8 <=? _) with true by (symmetry; zbool).
      rewrite firstn_8_full by lia. reflexivity.
Qed.

Lemma frames_fuel (fs : list (list Z * string)) rest :
  (forall f kind, In (f, kind) fs -> is_frame f kind) ->
  (10 * length fs <= length (concat (map fst fs) ++ rest))%nat.
Proof.
  induction fs as [|[f kind] fs IH]; intros Hfs; [simpl; lia|].
  cbn [map concat fst length]. rewrite <- app_assoc, length_app.
  destruct (is_frame_facts f kind (Hfs f kind (or_introl eq_refl))) as [Hl _].
  assert (length fs * 10 <= length (concat (map fst fs) ++ rest))%nat.
  { rewrite Nat.mul_comm. apply IH. intros; apply Hfs; now right. }
  unfold len in Hl. lia.
Qed.

Lemma discover_frames fs rest :
  (forall f kind, In (f, kind) fs -> is_frame f kind) ->
  discover (concat (map fst fs) ++ rest)
  = if 8 <=? len (filter is_dependent (map fst fs))
    then Some (Ok (dependent_samples fs))
    else discover_loop (S (length (concat (map fst fs) ++ rest)) - length fs)
                       rest (filter is_dependent (map fst fs)).
Proof.
  intros Hfs. unfold discover. pose proof (frames_fuel fs rest Hfs).
  rewrite discover_loop_frames; [reflexivity | exact Hfs | lia |].
  unfold len; simpl; lia.
Qed.

Lemma discover_clean fs :
  (forall f kind, In (f, kind) fs -> is_frame f kind) ->
  discover (concat (map fst fs)) = Some (Ok (dependent_samples fs)).
Proof.
  intros Hfs.
  rewrite <- (app_nil_r (concat (map fst fs))) at 1. rewrite discover_frames by exact Hfs.
  destruct (Z.leb_spec 8 (len (filter is_dependent (map fst fs)))) as [H8|H8];
    [reflexivity|].
  pose proof (frames_fuel fs [] Hfs).
  destruct (S _ - length fs)%nat as [|k] eqn:Ek; [lia|].
  cbn [discover_loop]. replace (_ <? 8) with true by (symmetry; zbool).
  rewrite read_frame_nil. unfold dependent_samples.
  rewrite firstn_all2; [reflexivity | unfold len in H8; lia].
Qed.

Lemma discover_full fs rest :
  (forall f kind, In (f, kind) fs -> is_frame f kind) ->
  8 <= len (filter is_dependent (map fst fs)) ->
  discover (concat (map fst fs) ++ rest) = Some (Ok (dependent_samples fs)).
Proof.
  intros Hfs H8. rewrite discover_frames by exact Hfs.
  now replace (8 <=? _) with true by (symmetry; zbool).
Qed.

Lemma discover_bad fs rest e :
  (forall f kind, In (f, kind) fs -> is_frame f kind) ->
  read_frame rest = Raise e ->
  len (filter is_dependent (map fst fs)) < 8 ->
  discover (concat (map fst fs) ++ rest) = Some (Raise e).
Proof.
  intros Hfs Hr H8. rewrite discover_frames by exact Hfs.
  replace (8 <=? _) with false by (symmetry; zbool).
  pose proof (frames_fuel fs rest Hfs).
  destruct (S _ - length fs)%nat as [|k] eqn:Ek; [lia|].
  cbn [discover_loop]. replace (_ <? 8) with true by (symmetry; zbool).
  now rewrite Hr.
Qed.

(** The discovery phase collects the first eight dependent frames and reads
    no further: on a stream of frames that ends cleanly it returns them (all
    of them when there are fewer than eight); once eight are found, what
    follows in the stream is not read, so an unreadable remainder does no
    harm; with fewer than eight dependent frames before an unreadable
    remainder, the error of [read_frame] ends the phase. *)
Theorem discover_first_eight fs :
  (forall f kind, In (f, kind) fs -> is_frame f kind) ->
  discover (concat (map fst fs)) = Some (Ok (dependent_samples fs))
  /\ (forall rest,
         8 <= len (filter is_dependent (map fst fs)) ->
         discover (concat (map fst fs) ++ rest) = Some (Ok (dependent_samples fs)))
  /\ (forall rest e,
         read_frame rest = Raise e ->
         len (filter is_dependent (map fst fs)) < 8 ->
         discover (concat (map fst fs) ++ rest) = Some (Raise e)).
Proof.
  intros Hfs. split; [|split].
  - now apply discover_clean.
  - intros rest. now apply discover_full.
  - intros rest e. now apply discover_bad.
Qed.

Lemma is_frame_one_candidate : is_frame frame_one_candidate "eac3".
Proof.
  exists 0x40, 4, 0, 0x80, [0x10; 0x01; 0; 0]. split; reflexivity.
Qed.

Lemma is_frame_ac3_128 : is_frame frame_ac3_128 "ac3".
Proof.
  exists 0, 0, 0, 0x40, (repeat 0 122). split; reflexivity.
Qed.

Lemma discover_first_eight_witness :
  discover (frame_ac3_128 ++ frame_one_candidate) = Some (Ok [frame_one_candidate])
  /\ discover (frame_ac3_128 ++ frame_one_candidate ++ [0x0B])
     = Some (Raise (PatchError "Unexpected EOF (short header)")).
Proof.
  assert (Hfs : forall f kind,
             In (f, kind) [(frame_ac3_128, "ac3"); (frame_one_candidate, "eac3")] ->
             is_frame f kind).
  { intros f kind [[= <- <-]|[[= <- <-]|[]]];
      [apply is_frame_ac3_128 | apply is_frame_one_candidate]. }
  destruct (discover_first_eight _ Hfs) as (Hclean & _ & Hbad). split.
  - exact Hclean.
  - apply (Hbad [0x0B]); [reflexivity | vm_compute; reflexivity].
Defined.

(** ** The patch pass on a stream of frames *)

Lemma patch_loop_frames fuel cp fs rest fout st :
  0 <= cp ->
  (forall f kind, In (f, kind) fs -> is_frame f kind) ->
  (length fs < fuel)%nat ->
  patch_loop fuel cp (concat (map fst fs) ++ rest) fout st
  = patch_loop (fuel - length fs) cp rest
               (fout ++ concat (map (output_frame cp) fs)) (add_counts st fs).
Proof.
  intros Hcp. revert fuel fout st.
  induction fs as [|[f kind] fs IH]; intros fuel fout st Hfs Hfuel.
  - cbn [map concat app length]. now rewrite app_nil_r, Nat.sub_0_r, add_counts_nil.
  - destruct fuel as [|fuel]; [simpl in Hfuel; lia|].
    assert (Hf : is_frame f kind) by (apply Hfs; now left).
    assert (Hrest : forall g k, In (g, k) fs -> is_frame g k)
      by (intros; apply Hfs; now right).
    destruct (is_frame_facts f kind Hf) as [Hlen _].
    cbn [map concat fst length] in *. rewrite <- app_assoc.
    cbn [patch_loop Nat.sub]. rewrite (read_frame_is_frame f kind _ Hf).
    rewrite add_counts_cons. cbn [output_frame]. rewrite app_assoc.
    destruct (kind =? "ac3")%string; [apply IH; [exact Hrest | lia]|].
    rewrite patch_eac3_eq by lia. apply IH; [exact Hrest | lia].
Qed.

Lemma dependent_samples_facts fs :
  (forall f kind, In (f, kind) fs -> is_frame f kind) ->
  (forall fr, In fr (dependent_samples fs) ->
              is_dependent fr = true /\ In (fr, "eac3") fs /\ 10 <= len fr)
  /\ len (dependent_samples fs) <= 8.
Proof.
  intros Hfs. split.
  - intros fr Hin. unfold dependent_samples in Hin.
    assert (Hin' : In fr (filter is_dependent (map fst fs))).
    { rewrite <- (firstn_skipn 8). apply in_or_app. now left. }
    clear Hin. rename Hin' into Hin. apply filter_In in Hin. destruct Hin as [Hin Hd].
    apply in_map_iff in Hin. destruct Hin as ([f kind] & <- & Hin). cbn [fst] in *.
    pose proof (Hfs f kind Hin) as Hf.
    destruct (is_frame_facts f kind Hf) as [Hlen _].
    rewrite (is_frame_dependent f kind Hf) in Hd.
    apply andb_true_iff in Hd. destruct Hd as [Hk Hs].
    apply String.eqb_eq in Hk. subst kind.
    split; [|split; [exact Hin | exact Hlen]].
    rewrite (is_frame_dependent f "eac3" Hf). now rewrite Hs.
  - unfold dependent_samples, len.
    pose proof (firstn_le_length 8 (filter is_dependent (map fst fs))). lia.
Qed.

Lemma detected_offset_window samples extra cp :
  (forall fr, In fr samples -> 6 <= len fr) ->
  len samples <= 8 ->
  find_chanmap_bitpos samples extra = Ok (Some cp) ->
  exists fr,
    In fr samples /\ is_dependent fr = true
    /\ scan_start_of fr <= cp - 1 < Z.min (len fr * 8 - 17) (scan_start_of fr + extra).
Proof.
  intros Hlen Hn Hfind.
  destruct (build_pos_hist_keys samples extra Hlen) as (ph & E & Hk).
  pose proof (build_pos_hist_counts samples extra Hlen ph E) as Hok.
  unfold find_chanmap_bitpos in Hfind. rewrite E in Hfind. cbn [bind] in Hfind.
  destruct ph as [|item ph]; [discriminate|].
  destruct (select_best_first_max (len samples) Hn (item :: ph) Hok)
    as (l1 & o & h & l2 & Eph & Hsel & _); [discriminate|].
  rewrite Hsel in Hfind. injection Hfind as ->.
  assert (Hkey : In cp (dict_keys (item :: ph))).
  { rewrite Eph. unfold dict_keys. rewrite map_app. apply in_or_app.
    right. now left. }
  apply Hk in Hkey. destruct Hkey as (fr & p & Hin & Hd & Hw & _ & ->).
  apply scan_window_spec in Hw. exists fr. split; [exact Hin|]. split; [exact Hd|].
  replace (p + 1 - 1) with p by lia. exact Hw.
Qed.

Lemma find_chanmap_bitpos_no_raise samples extra e :
  (forall fr, In fr samples -> 6 <= len fr) ->
  len samples <= 8 ->
  find_chanmap_bitpos samples extra <> Raise e.
Proof.
  intros Hlen Hn.
  destruct (build_pos_hist_keys samples extra Hlen) as (ph & E & _).
  destruct (find_chanmap_bitpos_result samples extra ph Hlen Hn E)
    as [(_ & ->)|(_ & o & ->)]; discriminate.
Qed.

(** [patch_file] on a stream of complete frames that ends cleanly: the
    detector runs on the first eight dependent frames and does not raise;
    if it finds an offset, the output file holds the output frame of every
    input frame, in order, and the counters are those of the frames;
    otherwise the output file is never opened and the run ends with the
    detection error. *)
Theorem patch_file_on_frames fs :
  (forall f kind, In (f, kind) fs -> is_frame f kind) ->
  (forall e, find_chanmap_bitpos (dependent_samples fs) 2048 <> Raise e)
  /\ patch_file (concat (map fst fs))
     = match find_chanmap_bitpos (dependent_samples fs) 2048 with
       | Ok (Some cp) =>
           Some (Opened (concat (map (output_frame cp) fs)),
                 Ok (cp, add_counts (mkStats 0 0 0 0) fs))
       | _ =>
           Some (Unopened,
                 Raise (PatchError
                   "Could not detect the chanmap location in dependent E-AC-3 frames."))
       end.
Proof.
  intros Hfs. destruct (dependent_samples_facts fs Hfs) as [Hs Hn].
  assert (Hlen : forall fr, In fr (dependent_samples fs) -> 6 <= len fr).
  { intros fr Hin. destruct (Hs fr Hin) as (_ & _ & ?). lia. }
  split; [intros e; now apply find_chanmap_bitpos_no_raise|].
  unfold patch_file. rewrite discover_clean by exact Hfs.
  destruct (find_chanmap_bitpos (dependent_samples fs) 2048) as [[cp|]|e] eqn:Efind;
    [|reflexivity|now apply find_chanmap_bitpos_no_raise in Efind].
  destruct (detected_offset_window _ _ _ Hlen Hn Efind) as (fr & _ & _ & Hw).
  pose proof (scan_start_of_cases fr).
  pose proof (frames_fuel fs [] Hfs) as Hfuel. rewrite app_nil_r in Hfuel.
  rewrite (patch_loop_backward _ cp _ fs); [reflexivity | lia | | lia].
  now apply reads_frames_of_frames.
Qed.

Lemma patch_file_on_frames_witness :
  patch_file (frame_ac3_128 ++ frame_one_candidate)
  = Some (Opened (frame_ac3_128 ++ patched_frame 52 frame_one_candidate),
          Ok (52, mkStats 2 1 1 1)).
Proof.
  assert (Hfs : forall f kind,
             In (f, kind) [(frame_ac3_128, "ac3"); (frame_one_candidate, "eac3")] ->
             is_frame f kind).
  { intros f kind [[= <- <-]|[[= <- <-]|[]]];
      [apply is_frame_ac3_128 | apply is_frame_one_candidate]. }
  destruct (patch_file_on_frames _ Hfs) as [_ H].
  cbn [map fst concat] in H. rewrite app_nil_r in H. rewrite H.
  vm_compute. reflexivity.
Defined.

(** [patch_file] on complete frames followed by bytes that [read_frame]
    rejects (a bad sync marker, a truncated frame, an invalid size): with
    fewer than eight dependent frames before them, discovery runs into the
    error and the output file is never opened; with eight or more, the
    detector runs on the first eight, and if it finds an offset the output
    file is left holding the output frames of all frames before the bad
    bytes while the run ends with the error of [read_frame]. *)
Theorem patch_file_stops_at_bad_frame fs rest e :
  (forall f kind, In (f, kind) fs -> is_frame f kind) ->
  read_frame rest = Raise e ->
  patch_file (concat (map fst fs) ++ rest)
  = if len (filter is_dependent (map fst fs)) <? 8 then Some (Unopened, Raise e)
    else match find_chanmap_bitpos (dependent_samples fs) 2048 with
         | Ok (Some cp) =>
             Some (Opened (concat (map (output_frame cp) fs)), Raise e)
         | _ =>
             Some (Unopened,
                   Raise (PatchError
                     "Could not detect the chanmap location in dependent E-AC-3 frames."))
         end.
Proof.
  intros Hfs Hr. destruct (dependent_samples_facts fs Hfs) as [Hs Hn].
  assert (Hlen : forall fr, In fr (dependent_samples fs) -> 6 <= len fr).
  { intros fr Hin. destruct (Hs fr Hin) as (_ & _ & ?). lia. }
  unfold patch_file.
  destruct (Z.ltb_spec (len (filter is_dependent (map fst fs))) 8) as [H8|H8].
  - now rewrite (discover_bad fs rest e Hfs Hr H8).
  - rewrite (discover_full fs rest Hfs H8).
    destruct (find_chanmap_bitpos (dependent_samples fs) 2048) as [[cp|]|e'] eqn:Efind;
      [|reflexivity|now apply find_chanmap_bitpos_no_raise in Efind].
    destruct (detected_offset_window _ _ _ Hlen Hn Efind) as (fr & _ & _ & Hw).
    pose proof (scan_start_of_cases fr).
    pose proof (frames_fuel fs rest Hfs) as Hfuel.
    rewrite patch_loop_frames; [|lia | exact Hfs | lia].
    destruct (S _ - length fs)%nat as [|k] eqn:Ek; [lia|].
    cbn [patch_loop]. rewrite Hr. reflexivity.
Qed.

Lemma patch_file_stops_at_bad_frame_witness :
  patch_file (frame_one_candidate ++ [0x0B; 0x77])
  = Some (Unopened, Raise (PatchError "Unexpected EOF (short header)")).
Proof.
  assert (Hfs : forall f kind,
             In (f, kind) [(frame_one_candidate, "eac3")] -> is_frame f kind).
  { intros f kind [[= <- <-]|[]]. apply is_frame_one_candidate. }
  pose proof (patch_file_stops_at_bad_frame _ [0x0B; 0x77] _ Hfs eq_refl) as H.
  cbn [map fst concat] in H. rewrite app_nil_r in H. exact H.
Defined.

Lemma filter_partition_len {A} (p : A -> bool) (l : list A) :
  len l = len (filter p l) + len (filter (fun x => negb (p x)) l).
Proof. unfold len. rewrite <- (filter_length p l) at 1. lia. Qed.

(** What a completed run reports: every frame is counted as AC-3 or as
    E-AC-3, every E-AC-3 frame is counted as patched, at least one frame is
    E-AC-3, every frame has at least ten bytes, the detected offset lies
    between bit 52 and bit 2107, and the output file was opened and is as
    long as the input. *)
Theorem patch_file_counters input s cp st :
  patch_file input = Some (s, Ok (cp, st)) ->
  total_frames st = ac3_count st + eac3_count st
  /\ patched_eac3 st = eac3_count st
  /\ 0 <= ac3_count st
  /\ 1 <= eac3_count st
  /\ 10 * total_frames st <= len input
  /\ 52 <= cp <= 2107
  /\ exists out, s = Opened out /\ len out = len input.
Proof.
  intros Hrun. destruct (patch_file_completes _ _ _ _ Hrun) as [out ->].
  destruct (patch_file_ok _ _ _ _ Hrun) as (samples & Hdisc & Hfind & Hloop).
  destruct (discover_samples input samples Hdisc) as [Hs Hn].
  assert (Hlen : forall fr, In fr samples -> 6 <= len fr).
  { intros fr Hin. destruct (Hs fr Hin). lia. }
  destruct (detected_offset_window _ _ _ Hlen Hn Hfind) as (fr & Hin & _ & Hw).
  pose proof (scan_start_of_cases fr) as Hstart.
  apply patch_loop_forward in Hloop; [|lia].
  destruct Hloop as (fs & Hfs & -> & ->).
  pose proof (reads_frames_is_frame _ _ Hfs) as Hall.
  pose proof (reads_frames_concat _ _ Hfs) as ->.
  rewrite (discover_clean fs Hall) in Hdisc.
  assert (samples = dependent_samples fs) as -> by congruence.
  destruct (dependent_samples_facts fs Hall) as [Hdep _].
  destruct (Hdep fr Hin) as (_ & Hmem & _).
  assert (Heac3 : 1 <= len (filter (fun x => negb (is_ac3 x)) fs)).
  { assert (Hf : In (fr, "eac3") (filter (fun x => negb (is_ac3 x)) fs))
      by (apply filter_In; split; [exact Hmem | reflexivity]).
    destruct (filter _ fs); [destruct Hf|]. unfold len. simpl length. lia. }
  pose proof (len_nonneg (filter is_ac3 fs)).
  pose proof (filter_partition_len is_ac3 fs).
  pose proof (frames_fuel fs [] Hall) as Hten. rewrite app_nil_r in Hten.
  cbn [add_counts total_frames ac3_count eac3_count patched_eac3 app].
  repeat (split; [unfold len in *; lia|]).
  exists (concat (map (output_frame cp) fs)). split; [reflexivity|].
  apply len_concat_map_ext. intros [f kind]. apply len_output_frame.
Qed.

Lemma patch_file_counters_witness :
  let st := mkStats 2 1 1 1 in
  total_frames st = ac3_count st + eac3_count st
  /\ patched_eac3 st = eac3_count st
  /\ 0 <= ac3_count st
  /\ 1 <= eac3_count st
  /\ 10 * total_frames st <= len (frame_ac3_128 ++ frame_one_candidate)
  /\ 52 <= 52 <= 2107
  /\ exists out,
      Opened (frame_ac3_128 ++ patched_frame 52 frame_one_candidate) = Opened out
      /\ len out = len (frame_ac3_128 ++ frame_one_candidate).
Proof.
  apply (patch_file_counters (frame_ac3_128 ++ frame_one_candidate)).
  vm_compute. reflexivity.
Defined.

(** ** The fields of a patched frame *)

Lemma bits_at_all_ones buf pos n :
  0 <= n -> bits_at buf pos n = 2 ^ n - 1 ->
  forall i, 0 <= i < n -> bit_at buf (pos + i) = 1.
Proof.
  intros Hn. rewrite <- (Z2Nat.id n Hn). generalize (Z.to_nat n). clear n Hn.
  induction n as [|n IH]; intros H i Hi; [lia|].
  rewrite Nat2Z.inj_succ, <- Z.add_1_r in H, Hi.
  rewrite bits_at_succ, Z.pow_add_r, Z.pow_1_r in H by lia.
  assert (Hb : 0 <= bits_at buf pos (Z.of_nat n) < 2 ^ Z.of_nat n)
    by (apply bits_at_bounds; lia).
  destruct (bit_at_01 buf (pos + Z.of_nat n)) as [E|E]; rewrite E in H; [lia|].
  destruct (Z.eq_dec i (Z.of_nat n)) as [->|Hne]; [exact E|]. apply IH; lia.
Qed.

Lemma bit_at_patched_frame cp fr q :
  0 <= cp -> 0 <= q < 8 * (len fr - 2) ->
  bit_at (patched_frame cp fr) q
  = if (bits_at fr 16 2 =? 1) && (cp <=? q) && (q <? cp + 16) && (q <? 8 * len fr)
    then Z.b2z (Z.testbit DEFAULT_CHANMAP (15 - (q - cp)))
    else if (50 <=? q) && (q <? 59) && (q <? 8 * len fr) then 1
         else bit_at fr q.
Proof.
  intros Hcp Hq. unfold patched_frame.
  rewrite bit_at_crc_fix by (rewrite len_patched_fields; lia).
  apply bit_at_patched_fields; lia.
Qed.

(** What the patch loop does to one E-AC-3 frame of at least ten bytes, for
    an offset as the detector returns them (52 or more): it never raises and
    counts the frame as patched; the frame keeps its length; the
    compression flag (bit 50) is set; the compression value (bits 51..58) is
    0xFF, except in a dependent frame when the offset is below 59, where the
    channel-map write overlaps it and the value is not 0xFF; in a dependent
    frame whose 16 bits from the offset lie before the two checksum bytes
    these bits hold 0x1A00; and the checksum over the frame behind the sync
    marker is zero. *)
Theorem patch_eac3_result cp fr n :
  52 <= cp -> 10 <= len fr ->
  exists fr',
    patch_eac3 cp fr (len fr) n = Ok (fr', n + 1)
    /\ len fr' = len fr
    /\ getbit fr' 50 = Ok 1
    /\ (bits_at fr 16 2 <> 1 \/ 59 <= cp -> getbits fr' 51 8 = Ok 0xFF)
    /\ (bits_at fr 16 2 = 1 -> cp <= 58 ->
        exists v, getbits fr' 51 8 = Ok v /\ v <> 0xFF)
    /\ (bits_at fr 16 2 = 1 -> cp + 16 <= 8 * (len fr - 2) ->
        getbits fr' cp 16 = Ok DEFAULT_CHANMAP)
    /\ crc16 (py_slice fr' 2 (len fr)) 0 = 0.
Proof.
  intros Hcp HL. exists (patched_frame cp fr).
  split; [apply patch_eac3_eq; lia|].
  split; [apply len_patched_frame|].
  split; [|split; [|split; [|split]]].
  - rewrite getbit_nonneg by lia. f_equal.
    rewrite bit_at_patched_frame by lia.
    replace (cp <=? 50) with false by (symmetry; zbool).
    rewrite andb_false_r. cbn [andb]. zbool.
  - intros Hcase. rewrite getbits_nonneg by lia. f_equal.
    transitivity (255 mod 2 ^ 8); [|reflexivity].
    apply bits_at_value; [lia|]. intros i Hi.
    rewrite bit_at_patched_frame by lia.
    change 255 with (Z.ones 8). rewrite Z.ones_spec_low by lia. cbn [Z.b2z].
    destruct Hcase as [Hnd|Hcp59].
    + replace (bits_at fr 16 2 =? 1) with false by (symmetry; zbool).
      cbn [andb]. zbool.
    + replace (cp <=? 51 + i) with false by (symmetry; zbool).
      rewrite andb_false_r. cbn [andb]. zbool.
  - intros Hd Hlow. exists (bits_at (patched_frame cp fr) 51 8).
    split; [apply getbits_nonneg; lia|]. intros Hv.
    assert (H1 : bit_at (patched_frame cp fr) (51 + (cp - 51)) = 1)
      by (apply (bits_at_all_ones _ 51 8); [lia | exact Hv | lia]).
    replace (51 + (cp - 51)) with cp in H1 by lia.
    rewrite bit_at_patched_frame, Hd in H1 by lia.
    replace (15 - (cp - cp)) with 15 in H1 by lia.
    change (Z.testbit DEFAULT_CHANMAP 15) with false in H1.
    replace ((1 =? 1) && (cp <=? cp) && (cp <? cp + 16) && (cp <? 8 * len fr))
      with true in H1 by (symmetry; zbool).
    discriminate.
  - intros Hd Hfit. rewrite getbits_nonneg by lia. f_equal.
    transitivity (DEFAULT_CHANMAP mod 2 ^ 16); [|reflexivity].
    apply bits_at_value; [lia|]. intros i Hi.
    rewrite bit_at_patched_frame, Hd by lia.
    replace (cp + i - cp) with i by lia.
    replace (16 - 1 - i) with (15 - i) by lia.
    replace ((1 =? 1) && (cp <=? cp + i) && (cp + i <? cp + 16)
             && (cp + i <? 8 * len fr)) with true by (symmetry; zbool).
    reflexivity.
  - unfold patched_frame.
    rewrite <- (len_patched_fields cp fr). apply crc_fix_checks.
    rewrite len_patched_fields. lia.
Qed.

Lemma patch_eac3_result_witness :
  exists fr',
    patch_eac3 52 frame_late_candidate 12 0 = Ok (fr', 1)
    /\ getbit fr' 50 = Ok 1
    /\ getbits fr' 52 16 = Ok DEFAULT_CHANMAP
    /\ (exists v, getbits fr' 51 8 = Ok v /\ v <> 0xFF).
Proof.
  destruct (patch_eac3_result 52 frame_late_candidate 0)
    as (fr' & E & _ & H50 & _ & Hlow & Hmap & _).
  - lia.
  - vm_compute. discriminate.
  - exists fr'. split; [exact E|]. split; [exact H50|]. split.
    + apply Hmap; [reflexivity | vm_compute; discriminate].
    + apply Hlow; [reflexivity | lia].
Defined.

(** ** The detector: an offset on which all samples agree *)

Lemma votes_for_facts extra k v fr :
  votes_for extra k v fr = true ->
  is_dependent fr = true
  /\ In (k - 1) (scan_window fr (scan_start_of fr) extra)
  /\ qualifies fr (k - 1) = true
  /\ bits_at fr k 16 = v
  /\ 9 <= len fr.
Proof.
  unfold votes_for. rewrite !andb_true_iff, Z.leb_le, Z.ltb_lt, Z.eqb_eq.
  intros ((((Hd & Hlo) & Hhi) & Hq) & Hv).
  pose proof (scan_start_of_cases fr).
  split; [exact Hd|]. split; [apply scan_window_spec; lia|].
  split; [exact Hq|]. split; [exact Hv | lia].
Qed.

Lemma filter_all {A} (p : A -> bool) (l : list A) :
  (forall x, In x l -> p x = true) -> filter p l = l.
Proof.
  induction l as [|x l IH]; intros H; [reflexivity|].
  cbn [filter]. rewrite (H x (or_introl eq_refl)). f_equal.
  apply IH. intros; apply H; now right.
Qed.

Lemma filter_full {A} (p : A -> bool) (l : list A) :
  length (filter p l) = length l -> forall x, In x l -> p x = true.
Proof.
  induction l as [|y l IH]; intros H x Hin; [destruct Hin|].
  cbn [filter] in H. pose proof (filter_length p l) as Hf.
  destruct (p y) eqn:Ey; cbn [length] in H.
  - destruct Hin as [<-|Hin]; [exact Ey | apply IH; [lia | exact Hin]].
  - lia.
Qed.

Lemma py_sum_ge_elem_len l :
  (forall c, In c l -> 1 <= c) ->
  forall c, In c l -> c + Z.of_nat (length l) - 1 <= py_sum l.
Proof.
  induction l as [|x l IH]; intros Hpos c Hc; [destruct Hc|].
  rewrite py_sum_cons. cbn [length]. rewrite Nat2Z.inj_succ.
  assert (Hl : Z.of_nat (length l) <= py_sum l).
  { clear -Hpos. induction l as [|y l IH]; [unfold py_sum; simpl; lia|].
    rewrite py_sum_cons. cbn [length]. rewrite Nat2Z.inj_succ.
    assert (1 <= y) by (apply Hpos; right; now left).
    assert (Z.of_nat (length l) <= py_sum l)
      by (apply IH; intros c [->|H']; apply Hpos; [now left | right; now right]).
    lia. }
  assert (1 <= x) by (apply Hpos; now left).
  destruct Hc as [->|Hc]; [lia|].
  assert (c + Z.of_nat (length l) - 1 <= py_sum l)
    by (apply IH; auto; intros; apply Hpos; now right).
  lia.
Qed.

(** A histogram of [n] frames that shows the count [n] holds one value. *)
Lemma counts_unanimous n (h : dict Z) :
  counts_ok n h -> In n (dict_values h) -> exists v, h = [(v, n)].
Proof.
  intros (_ & Hpos & Hsum) Hin.
  pose proof (py_sum_ge_elem_len _ Hpos n Hin) as Hge.
  unfold dict_values in *. rewrite length_map in Hge.
  destruct h as [|[v c] [|item h]]; [destruct Hin| |simpl length in Hge; lia].
  destruct Hin as [Hc|[]]. cbn [snd] in Hc. subst c. now exists v.
Qed.

Lemma dict_get_nodup {V} (d : dict V) k v :
  NoDup (dict_keys d) -> In (k, v) d -> dict_get d k = Some v.
Proof.
  induction d as [|[k0 v0] d IH]; intros Hnd Hin; [destruct Hin|].
  cbn [dict_keys map fst] in Hnd. inversion Hnd as [|? ? Hnot Hnd']; subst.
  cbn [dict_get]. destruct Hin as [[= -> ->]|Hin].
  - now rewrite Z.eqb_refl.
  - destruct (Z.eqb_spec k0 k) as [->|Hne]; [|now apply IH].
    exfalso. apply Hnot. change (In (fst (k, v)) (map fst d)). now apply in_map.
Qed.

Lemma note_key_fresh seen k : ~ In k seen -> note_key seen k = seen ++ [k].
Proof.
  intros H. unfold note_key.
  destruct (existsb (Z.eqb k) seen) eqn:E; [|reflexivity].
  apply existsb_exists in E. destruct E as (x & Hx & Ex).
  apply Z.eqb_eq in Ex. now subst x.
Qed.

Lemma fold_note_key_nodup A S :
  NoDup (S ++ A) -> fold_left note_key A S = S ++ A.
Proof.
  revert S. induction A as [|k A IH]; intros S Hnd; [now rewrite app_nil_r|].
  cbn [fold_left]. rewrite note_key_fresh.
  - rewrite IH; rewrite <- app_assoc; [reflexivity | exact Hnd].
  - apply NoDup_remove_2 in Hnd. intros Hin. apply Hnd, in_or_app. now left.
Qed.

Lemma fold_note_key_extends R S :
  NoDup S ->
  exists X,
    fold_left note_key R S = S ++ X
    /\ (forall x, In x X -> ~ In x S)
    /\ NoDup (S ++ X).
Proof.
  revert S. induction R as [|k R IH]; intros S Hnd.
  - exists []. rewrite app_nil_r. now split; [|split; [intros x []|]].
  - cbn [fold_left]. unfold note_key at 2.
    destruct (existsb (Z.eqb k) S) eqn:E; [now apply IH|].
    assert (Hk : ~ In k S).
    { intros Hin. assert (existsb (Z.eqb k) S = true); [|congruence].
      apply existsb_exists. exists k. split; [exact Hin | apply Z.eqb_refl]. }
    assert (Hnd' : NoDup (S ++ [k])).
    { apply NoDup_app; [exact Hnd | repeat constructor; intros [] |].
      intros x Hx [<-|[]]. now apply Hk. }
    destruct (IH _ Hnd') as (X & E' & Hdis & HX).
    exists (k :: X). rewrite E', <- app_assoc. split; [reflexivity|]. split.
    + intros x [<-|Hx]; [exact Hk|]. intros Hin. apply (Hdis x Hx), in_or_app. now left.
    + now rewrite <- app_assoc in HX.
Qed.

Lemma sorted_py_range (m : nat) lo :
  StronglySorted Z.lt (py_range lo (lo + Z.of_nat m)).
Proof.
  revert lo. induction m as [|m IH]; intros lo.
  - rewrite py_range_empty by lia. constructor.
  - rewrite py_range_cons by lia.
    replace (lo + Z.of_nat (S m)) with (lo + 1 + Z.of_nat m) by lia.
    constructor; [apply IH|]. apply Forall_forall. intros y Hy.
    apply in_py_range in Hy. lia.
Qed.

Lemma sorted_filter (p : Z -> bool) l :
  StronglySorted Z.lt l -> StronglySorted Z.lt (filter p l).
Proof.
  induction 1 as [|a l Hs IH Hall]; [constructor|].
  cbn [filter]. destruct (p a); [|exact IH].
  constructor; [exact IH|]. rewrite Forall_forall in *. intros y Hy.
  apply filter_In in Hy. now apply Hall.
Qed.

Lemma sorted_shift l :
  StronglySorted Z.lt l -> StronglySorted Z.lt (map (fun p => p + 1) l).
Proof.
  induction 1 as [|a l Hs IH Hall]; [constructor|].
  cbn [map]. constructor; [exact IH|]. rewrite Forall_forall in *. intros y Hy.
  apply in_map_iff in Hy. destruct Hy as (x & <- & Hx). specialize (Hall x Hx). lia.
Qed.

Lemma sorted_split l1 x l2 :
  StronglySorted Z.lt (l1 ++ x :: l2) -> forall y, In y l2 -> x < y.
Proof.
  induction l1 as [|a l1 IH]; cbn [app]; intros Hs y Hy;
    apply StronglySorted_inv in Hs; destruct Hs as [Hs Hall].
  - rewrite Forall_forall in Hall. now apply Hall.
  - now apply IH.
Qed.

Lemma nodup_split_unique (a1 b1 a2 b2 : list Z) x :
  NoDup (a1 ++ x :: b1) -> a1 ++ x :: b1 = a2 ++ x :: b2 -> a1 = a2 /\ b1 = b2.
Proof.
  revert a2. induction a1 as [|y a1 IH]; intros a2 Hnd E.
  - destruct a2 as [|z a2]; cbn [app] in *.
    + split; [reflexivity | congruence].
    + exfalso. injection E as <- E. inversion Hnd as [|? ? Hnot _]; subst.
      apply Hnot. apply in_or_app. right. now left.
  - destruct a2 as [|z a2]; cbn [app] in *.
    + exfalso. injection E as -> E. inversion Hnd as [|? ? Hnot _]; subst.
      apply Hnot. apply in_or_app. right. now left.
    + injection E as <- E. inversion Hnd as [|? ? _ Hnd']; subst.
      destruct (IH a2 Hnd' E) as [-> ->]. now split.
Qed.

(** The keys of the histogram: those of the first sample, ascending, then
    the keys that only later samples bring; no key twice. *)
Lemma build_pos_hist_first_sample fr samples extra ph :
  (forall f, In f (fr :: samples) -> 6 <= len f) ->
  is_dependent fr = true ->
  build_pos_hist (fr :: samples) extra = Ok ph ->
  exists A X,
    dict_keys ph = A ++ X
    /\ A = map (fun p => p + 1)
             (filter (qualifies fr) (scan_window fr (scan_start_of fr) extra))
    /\ StronglySorted Z.lt A
    /\ (forall x, In x X -> ~ In x A)
    /\ NoDup (A ++ X).
Proof.
  intros Hlen Hd E.
  set (A := map (fun p => p + 1)
                (filter (qualifies fr) (scan_window fr (scan_start_of fr) extra))).
  assert (Hsorted : StronglySorted Z.lt A).
  { apply sorted_shift, sorted_filter. unfold scan_window.
    set (start := scan_start_of fr).
    set (end_ := Z.min (len fr * 8 - 17) (start + extra)).
    destruct (Z.le_gt_cases end_ start) as [Hle|Hgt].
    - rewrite py_range_empty by lia. constructor.
    - replace end_ with (start + Z.of_nat (Z.to_nat (end_ - start))) by lia.
      apply sorted_py_range. }
  assert (HndA : NoDup A).
  { clear -Hsorted. induction Hsorted as [|a l Hs IH Hall]; constructor; [|exact IH].
    intros Hin. rewrite Forall_forall in Hall. specialize (Hall a Hin). lia. }
  rewrite (build_pos_hist_order _ _ _ Hlen E).
  unfold first_seen, qualifying_keys. cbn [flat_map]. rewrite Hd. fold A.
  rewrite fold_left_app, (fold_note_key_nodup A []) by exact HndA. cbn [app].
  destruct (fold_note_key_extends
              (flat_map (fun fr0 =>
                           if is_dependent fr0
                           then map (fun p => p + 1)
                                    (filter (qualifies fr0)
                                            (scan_window fr0 (scan_start_of fr0) extra))
                           else []) samples) A HndA) as (X & -> & Hdis & Hnd).
  exists A, X. now repeat split.
Qed.

(** If some offset carries, in every sampled frame, a set presence bit
    followed by one and the same qualifying value, detection succeeds and
    the detected offset is again one on which all sampled frames agree; it
    is at most the given offset, so it is the smallest such offset. *)
Theorem unanimous_offset_detected samples extra_bits k v :
  samples <> [] ->
  len samples <= 8 ->
  (forall fr, In fr samples -> votes_for extra_bits k v fr = true) ->
  exists o v',
    find_chanmap_bitpos samples extra_bits = Ok (Some o)
    /\ (forall fr, In fr samples -> votes_for extra_bits o v' fr = true)
    /\ o <= k.
Proof.
  intros Hne Hn Hall.
  assert (Hlen : forall fr, In fr samples -> 6 <= len fr).
  { intros fr Hin.
    destruct (votes_for_facts _ _ _ _ (Hall fr Hin)) as (_ & _ & _ & _ & ?). lia. }
  destruct (build_pos_hist_keys samples extra_bits Hlen) as (ph & E & _).
  pose proof (build_pos_hist_counts samples extra_bits Hlen ph E) as Hok.
  pose proof (hist_count_votes samples extra_bits ph Hlen E) as Hvotes.
  assert (Hn1 : 1 <= len samples).
  { destruct samples; [congruence|]. unfold len. simpl length. lia. }
  assert (Hk : hist_count ph k v = len samples).
  { rewrite Hvotes, filter_all by exact Hall. reflexivity. }
  unfold hist_count in Hk.
  destruct (dict_get ph k) as [hk|] eqn:Ek; [|lia].
  destruct (dict_get hk v) as [c|] eqn:Ev; [|lia]. subst c.
  apply dict_get_in in Ek. apply dict_get_in in Ev.
  assert (Hph : ph <> []) by (intros ->; destruct Ek).
  destruct (select_best_first_max (len samples) Hn ph Hok Hph)
    as (l1 & o & h & l2 & Eph & Hsel & Hbefore & Hafter).
  assert (Hfind : find_chanmap_bitpos samples extra_bits = Ok (Some o)).
  { unfold find_chanmap_bitpos. rewrite E. cbn [bind].
    destruct ph; [congruence | exact Hsel]. }
  destruct (counts_unanimous (len samples) hk (Hok k hk Ek)) as [vk Ehk].
  { unfold dict_values. change (len samples) with (snd (v, len samples)).
    now apply in_map. }
  assert (Hkc : hist_counts hk = (len samples, len samples))
    by (rewrite Ehk; reflexivity).
  assert (Hoh : In (o, h) ph) by (rewrite Eph; apply in_or_app; right; now left).
  destruct (counts_ok_bounds (len samples) h (Hok o h Hoh))
    as (total & top & Ehc & Emax & Htop & Htot).
  assert (Hplace : (o, h) = (k, hk) \/ In (k, hk) l2).
  { rewrite Eph in Ek. apply in_app_or in Ek. destruct Ek as [H1|[Heq|H2]]; auto.
    exfalso. specialize (Hbefore k hk H1). rewrite Hkc, Ehc in Hbefore.
    unfold exact_lt in Hbefore.
    assert (top * top <= len samples * total) by nia. nia. }
  assert (Htopn : top = len samples).
  { destruct Hplace as [Heq|H2].
    - injection Heq as _ ->. rewrite Hkc in Ehc. congruence.
    - specialize (Hafter k hk H2). rewrite Hkc, Ehc in Hafter.
      unfold exact_lt in Hafter.
      assert (top * top <= top * total) by nia.
      assert (top * total <= len samples * total) by nia.
      nia. }
  subst top.
  destruct (counts_unanimous (len samples) h (Hok o h Hoh)) as [v' Eh].
  { unfold py_max in Emax. destruct (dict_values h) as [|x l]; [discriminate|].
    injection Emax as Emax. rewrite <- Emax. apply (fold_max_spec l x). }
  destruct samples as [|fr1 samples]; [congruence|].
  destruct (votes_for_facts _ _ _ _ (Hall fr1 (or_introl eq_refl)))
    as (Hd1 & Hwk & Hqk & _ & _).
  destruct (build_pos_hist_first_sample fr1 samples extra_bits ph Hlen Hd1 E)
    as (A & X & Ekeys & EA & Hsorted & Hdis & Hnd).
  assert (Hgo : dict_get ph o = Some h).
  { apply dict_get_nodup; [now rewrite Ekeys | exact Hoh]. }
  assert (Hvo : forall fr, In fr (fr1 :: samples) -> votes_for extra_bits o v' fr = true).
  { apply filter_full. apply Nat2Z.inj. fold (len (fr1 :: samples)).
    change (Z.of_nat (length (filter (votes_for extra_bits o v') (fr1 :: samples))))
      with (len (filter (votes_for extra_bits o v') (fr1 :: samples))).
    rewrite <- Hvotes. unfold hist_count. rewrite Hgo, Eh. cbn [dict_get].
    now rewrite Z.eqb_refl. }
  exists o, v'. split; [exact Hfind|]. split; [exact Hvo|].
  destruct Hplace as [Heq|H2]; [injection Heq as -> _; lia|].
  destruct (votes_for_facts _ _ _ _ (Hvo fr1 (or_introl eq_refl)))
    as (_ & Hwo & Hqo & _ & _).
  assert (HoA : In o A).
  { rewrite EA. apply in_map_iff. exists (o - 1). split; [lia|].
    apply filter_In. now split. }
  assert (HkA : In k A).
  { rewrite EA. apply in_map_iff. exists (k - 1). split; [lia|].
    apply filter_In. now split. }
  destruct (in_split o A HoA) as (A1 & A2 & EA12).
  assert (Esplit : A1 ++ o :: (A2 ++ X) = map fst l1 ++ o :: map fst l2).
  { transitivity (dict_keys ph).
    - rewrite Ekeys, EA12, <- app_assoc. reflexivity.
    - rewrite Eph. unfold dict_keys. now rewrite map_app. }
  assert (Hnd' : NoDup (A1 ++ o :: (A2 ++ X))).
  { rewrite EA12, <- app_assoc in Hnd. exact Hnd. }
  destruct (nodup_split_unique _ _ _ _ _ Hnd' Esplit) as [_ E2].
  assert (HkQ : In k (A2 ++ X)).
  { rewrite E2. change k with (fst (k, hk)). now apply in_map. }
  apply in_app_or in HkQ. destruct HkQ as [HkA2|HkX].
  - rewrite EA12 in Hsorted. pose proof (sorted_split _ _ _ Hsorted k HkA2). lia.
  - exfalso. exact (Hdis k HkX HkA).
Qed.

Lemma unanimous_offset_detected_witness :
  exists o v',
    find_chanmap_bitpos [frame_one_candidate; frame_one_candidate] 2048 = Ok (Some o)
    /\ (forall fr, In fr [frame_one_candidate; frame_one_candidate] ->
                   votes_for 2048 o v' fr = true)
    /\ o <= 52.
Proof.
  apply (unanimous_offset_detected _ 2048 52 0x0010).
  - discriminate.
  - vm_compute. discriminate.
  - intros fr [<-|[<-|[]]]; vm_compute; reflexivity.
Defined.

(** ** Streams without a dependent frame *)

Lemma filter_none {A} (p : A -> bool) (l : list A) :
  (forall x, In x l -> p x = false) -> filter p l = [].
Proof.
  induction l as [|x l IH]; intros H; [reflexivity|].
  cbn [filter]. rewrite (H x (or_introl eq_refl)).
  apply IH. intros; apply H; now right.
Qed.

(** A stream of complete frames none of which is a dependent E-AC-3 frame
    (an empty file, AC-3 frames only, independent substreams only) is
    refused: the output file is never opened and the run ends with the
    detection error. *)
Theorem patch_file_needs_dependent_frame fs :
  (forall f kind, In (f, kind) fs -> is_frame f kind) ->
  (forall f kind, In (f, kind) fs -> is_dependent f = false) ->
  patch_file (concat (map fst fs))
  = Some (Unopened,
          Raise (PatchError
            "Could not detect the chanmap location in dependent E-AC-3 frames.")).
Proof.
  intros Hfs Hnone. unfold patch_file. rewrite discover_clean by exact Hfs.
  unfold dependent_samples. rewrite filter_none; [reflexivity|].
  intros f Hin. apply in_map_iff in Hin. destruct Hin as ([g kind] & <- & Hin).
  exact (Hnone g kind Hin).
Qed.

Lemma patch_file_needs_dependent_frame_witness :
  patch_file (frame_ac3_128 ++ frame_ac3_128)
  = Some (Unopened,
          Raise (PatchError
            "Could not detect the chanmap location in dependent E-AC-3 frames.")).
Proof.
  assert (H := patch_file_needs_dependent_frame
                 [(frame_ac3_128, "ac3"); (frame_ac3_128, "ac3")]).
  cbn [map fst concat] in H. rewrite app_nil_r in H. apply H.
  - intros f kind [[= <- <-]|[[= <- <-]|[]]]; apply is_frame_ac3_128.
  - intros f kind [[= <- <-]|[[= <- <-]|[]]]; reflexivity.
Defined.
